(** * GradientBackground: the zone-driven tweening loop of the portfolio page

    Two source files are covered:
    - [src/components/GradientBackground.tsx] (module [GradientBackground]):
      tweens thirteen numeric shader parameters, colours are JSX constants;
    - the unnamed sibling [part_000] (module [Part000]): tweens three colours
      and [positionY], everything else is a JSX constant.

    The development is layered the way the code depends on its platform:
    - [JS]: the JavaScript built-ins the code calls (numbers, int32 bit
      operators, [parseInt], [Number.prototype.toString], [String.slice]);
    - [Loop]: [animateTo] / [step] / [handleTransition] / effect cleanup and
      the window's animation-frame callback list, which are the same text in
      both files up to the configuration type;
    - one module per source file with its tables and interpolation code;
    - facts about each layer, then the properties C1 to C10 of the
      specification;
    - further facts and the further properties X1 to X17 of the code.

    JavaScript numbers are kept abstract behind the class [JS.Number] and
    instantiated twice: by exact rationals [Q] and by IEEE-754 binary64
    ([PrimFloat.float], the arithmetic a JavaScript engine really runs). *)

From Stdlib Require Import ZArith QArith Qround Qminmax Qabs.
From Stdlib Require Import String Ascii List Bool Lia Lra Psatz.
From Stdlib Require PrimFloat FloatOps SpecFloat FloatAxioms Uint63.
Import ListNotations.

(* ================================================================= *)
(** * JavaScript built-ins *)
(* ================================================================= *)

Module JS.

(** ** Numbers *)

(** The operations on [number] that the two files use.  [lit] is a numeric
    literal of the source text, given by its exact decimal value. *)
Class Number (num : Type) : Type := {
  lit : Q -> num;
  add : num -> num -> num;
  sub : num -> num -> num;
  mul : num -> num -> num;
  div : num -> num -> num;
  lt : num -> num -> bool;
  Math_min : num -> num -> num;
  (** [Math.pow] with a natural-number exponent (the code only calls
      [Math.pow(_, 3)]) *)
  Math_pow : num -> nat -> num;
  Math_round : num -> num;
  (** the [ToInt32] conversion applied by [<<], [>>], [|] and [&] *)
  ToInt32 : num -> Z;
  (** [xs[k]] for a number [k]: the array index that the property key
      [ToString(k)] denotes, if it denotes one *)
  ToIndex : num -> option nat
}.

Declare Scope js_scope.
Delimit Scope js_scope with js.
Infix "+" := add : js_scope.
Infix "-" := sub : js_scope.
Infix "*" := mul : js_scope.
Infix "/" := div : js_scope.
Infix "<?" := lt : js_scope.
Arguments lit {num _} _%_Q.

(** *** int32 arithmetic of the bit operators *)

(** Reduction modulo 2^32 into [-2^31, 2^31). *)
Definition wrap32 (z : Z) : Z :=
  ((z + 2147483648) mod 4294967296 - 2147483648)%Z.

(** [x << n] *)
Definition shl (x n : Z) : Z := wrap32 (Z.shiftl (wrap32 x) (n mod 32)).
(** [x >> n] (sign-propagating) *)
Definition sar (x n : Z) : Z := Z.shiftr (wrap32 x) (n mod 32).
(** [x | y] *)
Definition bitor (x y : Z) : Z := Z.lor (wrap32 x) (wrap32 y).
(** [x & y] *)
Definition bitand (x y : Z) : Z := Z.land (wrap32 x) (wrap32 y).

(** *** Exact rationals *)

(** Truncation toward zero, the integer part taken by [ToInt32]. *)
Definition Qtrunc (q : Q) : Z := Z.quot (Qnum q) (Z.pos (Qden q)).

(** [Math.round]: the nearest integer, ties toward +infinity. *)
Definition Qround_half_up (q : Q) : Z := Qfloor (q + (1 # 2)).

Definition Qis_integer (q : Q) : bool :=
  (Qnum q mod Z.pos (Qden q) =? 0)%Z.

(** Array indices are the integers from 0 to 2^32 - 2. *)
Definition Qindex (q : Q) : option nat :=
  if Qis_integer q && (0 <=? Qtrunc q)%Z && (Qtrunc q <? 4294967295)%Z
  then Some (Z.to_nat (Qtrunc q)) else None.

Definition Qltb (x y : Q) : bool := negb (Qle_bool y x).

(** The rationals have no [NaN] and no infinities; the one division of the
    code is by the constant 700. *)
#[export] Instance ExactNumber : Number Q := {
  lit q := q;
  add := Qplus;
  sub := Qminus;
  mul := Qmult;
  div := Qdiv;
  lt := Qltb;
  Math_min := Qmin;
  Math_pow x n := Qpower x (Z.of_nat n);
  Math_round x := inject_Z (Qround_half_up x);
  ToInt32 x := wrap32 (Qtrunc x);
  ToIndex := Qindex
}.

(** *** IEEE-754 binary64 *)

Module F64.
Import PrimFloat.

(** An integer as a double (exact below 2^53 in magnitude; the literals
    and channel values of the code are far below). *)
Definition of_Z (z : Z) : float :=
  match z with
  | Z0 => zero
  | Zpos _ => of_uint63 (Uint63.of_Z z)
  | Zneg p => opp (of_uint63 (Uint63.of_Z (Zpos p)))
  end.

(** A decimal literal m / 10^k: both integers are doubles and the
    division is correctly rounded, so this is the double nearest to the
    literal, as the engine's parser produces it. *)
Definition of_Q (q : Q) : float :=
  PrimFloat.div (of_Z (Qnum q)) (of_Z (Z.pos (Qden q))).

(** [m / 2^k] in lowest terms, for a positive [k]. *)
Fixpoint dyadic (m k : positive) : positive * N :=
  match m with
  | xO m' =>
      match k with
      | xH => (m', 0%N)
      | _ => dyadic m' (Pos.pred k)
      end
  | _ => (m, Npos k)
  end.

(** The exact value of a finite double. *)
Definition to_Q (x : float) : option Q :=
  match FloatOps.Prim2SF x with
  | SpecFloat.S754_zero _ => Some 0%Q
  | SpecFloat.S754_finite s m e =>
      let signed (p : positive) := if s then Z.neg p else Z.pos p in
      Some (match e with
            | Zneg k =>
                let '(m', k') := dyadic m k in
                match k' with
                | N0 => inject_Z (signed m')
                | Npos k'' => signed m' # (2 ^ k'')
                end
            | _ => inject_Z (signed m * 2 ^ e)
            end)
  | _ => None
  end.

Definition min (x y : float) : float :=
  if is_nan x || is_nan y then nan
  else if ltb x y then x
  else if ltb y x then y
  else if get_sign x then x else y.

(** ECMAScript fixes [Math.pow] at the special values and leaves the
    rest implementation-approximated; repeated multiplication is one
    such approximation and agrees with the fixed values used below
    ([Math.pow(+0, 3)] is [+0]). *)
Fixpoint pow (x : float) (n : nat) : float :=
  match n with
  | O => one
  | S n' => PrimFloat.mul x (pow x n')
  end.

Definition round (x : float) : float :=
  match to_Q x with
  | None => x
  | Some q =>
      (* from 2^52 on every double is an integer *)
      if Qle_bool 4503599627370496 (Qabs q) then x
      else
        let r := Qround_half_up q in
        if (r =? 0)%Z then (if get_sign x then neg_zero else zero)
        else of_Z r
  end.

Definition to_int32 (x : float) : Z :=
  match to_Q x with
  | None => 0%Z
  | Some q => wrap32 (Qtrunc q)
  end.

Definition index (x : float) : option nat :=
  match to_Q x with
  | None => None
  | Some q => Qindex q
  end.
End F64.

#[export] Instance IEEENumber : Number PrimFloat.float := {
  lit := F64.of_Q;
  add := PrimFloat.add;
  sub := PrimFloat.sub;
  mul := PrimFloat.mul;
  div := PrimFloat.div;
  lt := PrimFloat.ltb;
  Math_min := F64.min;
  Math_pow := F64.pow;
  Math_round := F64.round;
  ToInt32 := F64.to_int32;
  ToIndex := F64.index
}.

(** ** Strings

    Strings are sequences of code units, of which [ascii] covers 0..255:
    the digits, letters, signs and the Latin-1 white space.  (The white
    space characters above U+00FF, which [parseInt] also skips, are not
    representable.) *)

Local Open Scope string_scope.

(** [s.slice(n)] for a non-negative [n]. *)
Fixpoint slice (s : string) (n : nat) {struct n} : string :=
  match n, s with
  | O, _ => s
  | S n', String _ r => slice r n'
  | S _, EmptyString => EmptyString
  end.

(** White space and line terminators skipped by [parseInt]. *)
Definition isWhiteSpace (c : ascii) : bool :=
  match nat_of_ascii c with
  | 9 | 10 | 11 | 12 | 13 | 32 | 160 => true
  | _ => false
  end%nat.

Fixpoint trimStart (s : string) : string :=
  match s with
  | String c r => if isWhiteSpace c then trimStart r else s
  | EmptyString => EmptyString
  end.

(** The value of a digit character: [0-9], [a-z] and [A-Z]. *)
Definition digitValue (c : ascii) : option Z :=
  let n := Z.of_nat (nat_of_ascii c) in
  if (48 <=? n)%Z && (n <=? 57)%Z then Some (n - 48)%Z
  else if (97 <=? n)%Z && (n <=? 122)%Z then Some (n - 87)%Z
  else if (65 <=? n)%Z && (n <=? 90)%Z then Some (n - 55)%Z
  else None.

(** The longest prefix of radix-[R] digits, read most significant digit
    first; [acc] is [None] until a digit has been read. *)
Fixpoint parseDigits (R : Z) (s : string) (acc : option Z) : option Z :=
  match s with
  | EmptyString => acc
  | String c r =>
      match digitValue c with
      | Some d =>
          if (d <? R)%Z
          then parseDigits R r
                 (Some (match acc with Some a => a * R + d | None => d end)%Z)
          else acc
      | None => acc
      end
  end.

(** The integer-valued double nearest to a non-negative integer (ties to
    even); the identity below 2^53. *)
Definition nearestDouble (m : Z) : Z :=
  let k := (Z.log2 m - 52)%Z in
  if (k <=? 0)%Z then m
  else
    let q := Z.shiftr m k in
    let r := (m - Z.shiftl q k)%Z in
    let half := Z.shiftl 1 (k - 1) in
    let q' := if (r <? half)%Z then q
              else if (half <? r)%Z then (q + 1)%Z
              else if Z.even q then q else (q + 1)%Z in
    Z.shiftl q' k.

(** An optional sign in front of the digits. *)
Definition splitSign (s : string) : Z * string :=
  match s with
  | String "-" r => ((-1)%Z, r)
  | String "+" r => (1%Z, r)
  | _ => (1%Z, s)
  end.

(** A leading [0x] or [0X]. *)
Definition stripHexPrefix (s : string) : option string :=
  match s with
  | String "0" (String "x" r) => Some r
  | String "0" (String "X" r) => Some r
  | _ => None
  end.

(** [parseInt(s, radix)] for an integer [radix]; [None] is [NaN]. *)
Definition parseInt (s : string) (radix : Z) : option Z :=
  let '(sign, s2) := splitSign (trimStart s) in
  let R := wrap32 radix in
  if negb (R =? 0)%Z && ((R <? 2)%Z || (36 <? R)%Z) then None
  else
    let stripPrefix := (R =? 0)%Z || (R =? 16)%Z in
    let '(R', s3) :=
      match (if stripPrefix then stripHexPrefix s2 else None) with
      | Some r => (16%Z, r)
      | None => ((if (R =? 0)%Z then 10 else R)%Z, s2)
      end in
    match parseDigits R' s3 None with
    | None => None
    | Some m => Some (sign * nearestDouble m)%Z
    end.

(** [ToInt32] of the result of [parseInt] ([NaN] converts to 0). *)
Definition ToInt32_parsed (n : option Z) : Z :=
  match n with
  | None => 0%Z
  | Some z => wrap32 z
  end.

(** Digit characters produced by [toString]: [0-9] then [a-z]. *)
Definition digitChar (d : Z) : ascii :=
  ascii_of_nat (Z.to_nat (if (d <? 10)%Z then 48 + d else 87 + d)%Z).

(** Digits of a non-negative integer, least significant first, pushed in
    front of [acc]; one unit of fuel per digit. *)
Fixpoint toDigits (fuel : nat) (radix n : Z) (acc : string) : string :=
  match fuel with
  | O => acc
  | S fuel' =>
      let acc' := String (digitChar (n mod radix)) acc in
      if (n / radix =? 0)%Z then acc'
      else toDigits fuel' radix (n / radix) acc'
  end.

(** [n.toString(radix)] for an integer [n] and [2 <= radix <= 36]; a
    number of [b] bits has at most [b] digits. *)
Definition toString (n radix : Z) : string :=
  let digits m := toDigits (S (Z.to_nat (Z.log2 m))) radix m EmptyString in
  if (n <? 0)%Z then String "-" (digits (- n)%Z) else digits n.

(** ** Notions used to state the properties *)

(** Digit lists, most significant digit first. *)
Definition digitsValue (radix : Z) (ds : list Z) : Z :=
  fold_left (fun a d => a * radix + d)%Z ds 0%Z.

Definition digitsString (ds : list Z) : string :=
  fold_right (fun d s => String (digitChar d) s) EmptyString ds.

Definition validDigits (radix : Z) (ds : list Z) : Prop :=
  Forall (fun d => 0 <= d < radix)%Z ds.

(** The two hexadecimal digits of a byte. *)
Definition hex2 (c : Z) : list Z := [(c / 16)%Z; (c mod 16)%Z].

(** Lowercase hexadecimal digit characters. *)
Definition isHexDigit (c : ascii) : bool :=
  let n := nat_of_ascii c in
  ((48 <=? n) && (n <=? 57) || (97 <=? n) && (n <=? 102))%nat.

(** Bytes survive the trip through numbers: a byte converts to a number
    and rounds back to itself, also after the interpolation arithmetic at
    [t = 0] and [t = 1]. *)
Definition byte_exact (num : Type) {NUM : Number num} : Prop :=
  forall a b : Z,
    (0 <= a <= 255)%Z -> (0 <= b <= 255)%Z ->
    let x := lit (inject_Z a) in
    let y := lit (inject_Z b) in
    ToInt32 (Math_round x) = a /\
    ToInt32 (Math_round (x + (y - x) * lit 0)%js) = a /\
    ToInt32 (Math_round (x + (y - x) * lit 1)%js) = b.

Definition bytes : list Z := map Z.of_nat (seq 0 256).

(** Equality of decoded doubles. *)
Definition sf_eqb (x y : SpecFloat.spec_float) : bool :=
  match x, y with
  | SpecFloat.S754_zero s, SpecFloat.S754_zero s' => Bool.eqb s s'
  | SpecFloat.S754_infinity s, SpecFloat.S754_infinity s' => Bool.eqb s s'
  | SpecFloat.S754_nan, SpecFloat.S754_nan => true
  | SpecFloat.S754_finite s m e, SpecFloat.S754_finite s' m' e' =>
      Bool.eqb s s' && Pos.eqb m m' && Z.eqb e e'
  | _, _ => false
  end.

(** [ToInt32(Math.round(x))] for a double, from its exact value. *)
Definition int32_of_rounded (v : option Q) : Z :=
  match v with
  | None => 0%Z
  | Some q =>
      if Qle_bool 4503599627370496 (Qabs q) then wrap32 (Qtrunc q)
      else if (Qround_half_up q =? 0)%Z then 0%Z
      else F64.to_int32 (F64.of_Z (Qround_half_up q))
  end.

(** [byte_exact] for doubles, as tests: a byte rounds to itself, and the
    interpolation arithmetic at [t = 0] and [t = 1] returns the doubles
    of its end points. *)
Definition byte_rounds (a : Z) : bool :=
  (ToInt32 (Math_round (lit (inject_Z a) : PrimFloat.float)) =? a)%Z.

Definition byte_ends (a b : Z) : bool :=
  let x : PrimFloat.float := lit (inject_Z a) in
  let y : PrimFloat.float := lit (inject_Z b) in
  sf_eqb (FloatOps.Prim2SF (x + (y - x) * lit 0)%js) (FloatOps.Prim2SF x) &&
  sf_eqb (FloatOps.Prim2SF (x + (y - x) * lit 1)%js) (FloatOps.Prim2SF y).

End JS.

Import JS.

(* ================================================================= *)
(** * The rendered widget *)
(* ================================================================= *)

(** The props both files pass to the third-party [<ShaderGradient>]
    element, in the order of the JSX. *)
Module ShaderGradient.

Inductive ShapeType := sphere | waterPlane.

Record Props {num : Type} := mkProps {
  animate : string;
  axesHelper : string;
  bgColor1 : string;
  bgColor2 : string;
  brightness : num;
  cAzimuthAngle : num;
  cDistance : num;
  cPolarAngle : num;
  cameraZoom : num;
  color1 : string;
  color2 : string;
  color3 : string;
  destination : string;
  embedMode : string;
  envPreset : string;
  format : string;
  fov : num;
  frameRate : num;
  gizmoHelper : string;
  grain : string;
  lightType : string;
  pixelDensity : num;
  positionX : num;
  positionY : num;
  positionZ : num;
  range : string;
  rangeEnd : num;
  rangeStart : num;
  reflection : num;
  rotationX : num;
  rotationY : num;
  rotationZ : num;
  shader : string;
  type : ShapeType;
  uAmplitude : num;
  uDensity : num;
  uFrequency : num;
  uSpeed : num;
  uStrength : num;
  uTime : num;
  wireframe : bool
}.
Arguments Props : clear implicits.

End ShaderGradient.

(* ================================================================= *)
(** * The tweening loop shared by the two files *)
(* ================================================================= *)

(** Lines 61-122 of [GradientBackground.tsx] and 58-118 of [part_000]
    differ only in the configuration type and in how [step] builds
    [newProps]; they are modelled once, over those two parameters.

    The React refs and state and the window's animation-frame callback
    list are threaded explicitly.  Timestamps ([performance.now()] and the
    argument the browser passes to a frame callback) come from the
    environment, so they are carried by the events. *)
Module Loop.
Section Loop.

Context {num : Type} {NUM : Number num}.

Variable Config : Type.
Variable CONFIGS : list Config.
Variable initialProps : Config.
Variable TRANSITION_DURATION : num.
Variable easeOutCubic : num -> num.
(** [newProps from target t]: the object built in the body of [step] *)
Variable newProps : Config -> Config -> num -> Config.

(** What the closure [step] captures from its enclosing [animateTo]. *)
Record Closure := mkClosure {
  from : Config;
  target : Config;
  startTime : num
}.

Record State := mkState {
  gradientProps : Config;            (* useState *)
  currentRef : Config;               (* currentRef.current *)
  animFrameRef : N;                  (* animFrameRef.current *)
  callbacks : list (N * Closure);    (* pending frame callbacks, oldest first *)
  lastHandle : N;                    (* the window's callback identifier *)
  listening : bool                   (* handleTransition is registered *)
}.

Definition set_currentRef (p : Config) (st : State) : State :=
  mkState (gradientProps st) p (animFrameRef st) (callbacks st)
          (lastHandle st) (listening st).

Definition setGradientProps (p : Config) (st : State) : State :=
  mkState p (currentRef st) (animFrameRef st) (callbacks st)
          (lastHandle st) (listening st).

Definition set_animFrameRef (h : N) (st : State) : State :=
  mkState (gradientProps st) (currentRef st) h (callbacks st)
          (lastHandle st) (listening st).

Definition set_callbacks (cbs : list (N * Closure)) (st : State) : State :=
  mkState (gradientProps st) (currentRef st) (animFrameRef st) cbs
          (lastHandle st) (listening st).

Definition set_lastHandle (h : N) (st : State) : State :=
  mkState (gradientProps st) (currentRef st) (animFrameRef st)
          (callbacks st) h (listening st).

Definition set_listening (b : bool) (st : State) : State :=
  mkState (gradientProps st) (currentRef st) (animFrameRef st)
          (callbacks st) (lastHandle st) b.

(** ** The window's frame-callback list *)

(** Handles are the successive values of a counter that is incremented
    before use, so a handle is never 0. *)
Definition requestAnimationFrame (cb : Closure) (st : State) : N * State :=
  let handle := N.succ (lastHandle st) in
  (handle,
   set_lastHandle handle (set_callbacks (callbacks st ++ [(handle, cb)]) st)).

Definition cancelAnimationFrame (handle : N) (st : State) : State :=
  set_callbacks
    (filter (fun e => negb (fst e =? handle)%N) (callbacks st)) st.

Fixpoint lookup (handle : N) (cbs : list (N * Closure)) : option Closure :=
  match cbs with
  | [] => None
  | (h, cb) :: rest => if (h =? handle)%N then Some cb else lookup handle rest
  end.

(** ** The component *)

Definition step (cl : Closure) (now : num) (st : State) : State :=
  let elapsed := (now - startTime cl)%js in
  let rawT := Math_min (elapsed / TRANSITION_DURATION)%js (lit 1) in
  let t := easeOutCubic rawT in
  let newP := newProps (from cl) (target cl) t in
  let st1 := setGradientProps newP (set_currentRef newP st) in
  if (rawT <? lit 1)%js then
    let '(h, st2) := requestAnimationFrame cl st1 in
    set_animFrameRef h st2
  else
    set_animFrameRef 0 st1.

Definition animateTo (target : Config) (perfNow : num) (st : State)
  : State :=
  let st1 :=
    if negb (animFrameRef st =? 0)%N
    then cancelAnimationFrame (animFrameRef st) st
    else st in
  let from := currentRef st1 in
  let startTime := perfNow in
  let '(h, st2) :=
    requestAnimationFrame (mkClosure from target startTime) st1 in
  set_animFrameRef h st2.

(** [CONFIGS[zoneIndex]]: [undefined] unless the number is an index of
    the array.  Every element is an object, hence truthy. *)
Definition config_at (zoneIndex : num) : option Config :=
  match ToIndex zoneIndex with
  | Some i => nth_error CONFIGS i
  | None => None
  end.

Definition handleTransition (zoneIndex perfNow : num) (st : State)
  : State :=
  match config_at zoneIndex with
  | Some config => animateTo config perfNow st
  | None => st
  end.

(** The function returned by the effect. *)
Definition cleanup (st : State) : State :=
  let st1 := set_listening false st in
  if negb (animFrameRef st1 =? 0)%N
  then cancelAnimationFrame (animFrameRef st1) st1
  else st1.

(** ** The environment *)

(** Running the frame callbacks: the handles pending when the frame
    starts are visited in order; a callback still in the list is removed
    from it and invoked with the frame's timestamp. *)
Definition invoke (now : num) (st : State) (handle : N) : State :=
  match lookup handle (callbacks st) with
  | Some cl => step cl now (cancelAnimationFrame handle st)
  | None => st
  end.

Definition runFrameCallbacks (now : num) (st : State) : State :=
  fold_left (invoke now) (map fst (callbacks st)) st.

Inductive Event :=
| GradientTransition (zoneIndex perfNow : num)
    (* a "gradient-transition" event; [performance.now()] when handled *)
| AnimationFrame (now : num)
    (* the browser runs the frame callbacks *)
| ForeignRequest
    (* other code of the page takes a frame-callback handle *)
| Unmount.

Definition dispatch (ev : Event) (st : State) : State :=
  match ev with
  | GradientTransition zoneIndex perfNow =>
      if listening st then handleTransition zoneIndex perfNow st else st
  | AnimationFrame now => runFrameCallbacks now st
  | ForeignRequest => set_lastHandle (N.succ (lastHandle st)) st
  | Unmount => if listening st then cleanup st else st
  end.

(** The component after its first render and effect, on a page whose
    frame-callback counter stands at [h0]. *)
Definition mount (h0 : N) : State :=
  mkState initialProps initialProps 0 [] h0 true.

Definition run (evs : list Event) (st : State) : State :=
  fold_left (fun s ev => dispatch ev s) evs st.

Inductive reachable : State -> Prop :=
| reachable_mount : forall h0, reachable (mount h0)
| reachable_dispatch : forall st ev,
    reachable st -> reachable (dispatch ev st).

(** ** Notions used to state the properties *)

(** The progress of a closure at a frame timestamp, as [step] computes
    it. *)
Definition rawT_of (cl : Closure) (now : num) : num :=
  Math_min ((now - startTime cl) / TRANSITION_DURATION)%js (lit 1).

Definition props_of (cl : Closure) (now : num) : Config :=
  newProps (from cl) (target cl) (easeOutCubic (rawT_of cl now)).

(** The state in which [animateTo] schedules: the pending frame, if any,
    has been cancelled. *)
Definition cancelled (st : State) : State :=
  if negb (animFrameRef st =? 0)%N
  then cancelAnimationFrame (animFrameRef st) st
  else st.

(** At most one callback is pending; it is the one [animFrameRef] names,
    its target is a row of the table, no callback outlives the listener,
    and the ref mirrors the React state. *)
Record inv (st : State) : Prop := {
  inv_pending :
    callbacks st = [] \/
    exists cl, callbacks st = [(animFrameRef st, cl)] /\
               animFrameRef st <> 0%N /\
               In (target cl) CONFIGS;
  inv_unmounted : listening st = false -> callbacks st = [];
  inv_mirror : currentRef st = gradientProps st
}.

(** The events of one transition up to the frame at [now]: the zone
    change, the frames before, that frame. *)
Definition transition (zoneIndex perfNow : num) (frames : list num)
    (now : num) : list Event :=
  GradientTransition zoneIndex perfNow
    :: map AnimationFrame frames ++ [AnimationFrame now].

(** [step]'s test [rawT < 1] for a transition started at [perfNow]. *)
Definition running (perfNow now : num) : bool :=
  (Math_min ((now - perfNow) / TRANSITION_DURATION) (lit 1) <? lit 1)%js.

End Loop.

Arguments Closure : clear implicits.
Arguments State : clear implicits.
Arguments Event : clear implicits.
Arguments mkClosure {num Config}.
Arguments GradientTransition {num}.
Arguments AnimationFrame {num}.
Arguments ForeignRequest {num}.
Arguments Unmount {num}.

End Loop.

(* ================================================================= *)
(** * [src/components/GradientBackground.tsx] *)
(* ================================================================= *)

Module GradientBackground.

Import ShaderGradient(ShapeType, sphere, waterPlane).

Section WithNumber.

Context {num : Type} {NUM : Number num}.

Record ZoneConfig := mkZoneConfig {
  cameraZoom : num;
  cAzimuthAngle : num;
  cPolarAngle : num;
  cDistance : num;
  rotationX : num;
  rotationY : num;
  rotationZ : num;
  positionX : num;
  fov : num;
  pixelDensity : num;
  uDensity : num;
  uSpeed : num;
  uStrength : num;
  type : ShapeType
}.

Definition ZONE_CONFIGS : list ZoneConfig := [
  (* Zone 0 - Intro: large, off-screen right *)
  mkZoneConfig (lit 5.0) (lit 160) (lit 90) (lit 2.5)
               (lit 0) (lit 0) (lit 0) (lit (-2.9))
               (lit 45) (lit 1.3) (lit 3) (lit 0.1) (lit 3.8)
               sphere;
  (* Zone 1 - About: top right, arc inward *)
  mkZoneConfig (lit 2.3) (lit 180) (lit 70) (lit 3.6)
               (lit 45) (lit 10) (lit 50) (lit (-2.6))
               (lit 45) (lit 1.3) (lit 3) (lit 0.1) (lit 3.8)
               sphere;
  (* Zone 2 - Experience: center right, popped out toward edge *)
  mkZoneConfig (lit 2.3) (lit 180) (lit 90) (lit 3.6)
               (lit 90) (lit 30) (lit 100) (lit (-3.4))
               (lit 45) (lit 1.3) (lit 3) (lit 0.1) (lit 3.8)
               sphere;
  (* Zone 3 - Projects: bottom right, arc inward *)
  mkZoneConfig (lit 2.3) (lit 180) (lit 110) (lit 3.6)
               (lit 5) (lit 50) (lit 30) (lit (-2.6))
               (lit 45) (lit 1.3) (lit 3) (lit 0.1) (lit 3.8)
               sphere;
  (* Zone 4 - Contact: water plane *)
  mkZoneConfig (lit 1) (lit 180) (lit 90) (lit 3.6)
               (lit 0) (lit 10) (lit 50) (lit (-1.4))
               (lit 50) (lit 1) (lit 1.3) (lit 0.4) (lit 4)
               waterPlane
].

(** [keyof NumericProps] *)
Inductive NumericKey :=
| k_cameraZoom | k_cAzimuthAngle | k_cPolarAngle | k_cDistance
| k_rotationX | k_rotationY | k_rotationZ | k_positionX
| k_fov | k_pixelDensity | k_uDensity | k_uSpeed | k_uStrength.

(** [c[key]] *)
Definition get (key : NumericKey) (c : ZoneConfig) : num :=
  match key with
  | k_cameraZoom => cameraZoom c
  | k_cAzimuthAngle => cAzimuthAngle c
  | k_cPolarAngle => cPolarAngle c
  | k_cDistance => cDistance c
  | k_rotationX => rotationX c
  | k_rotationY => rotationY c
  | k_rotationZ => rotationZ c
  | k_positionX => positionX c
  | k_fov => fov c
  | k_pixelDensity => pixelDensity c
  | k_uDensity => uDensity c
  | k_uSpeed => uSpeed c
  | k_uStrength => uStrength c
  end.

(** [c[key] = v] *)
Definition set (key : NumericKey) (v : num) (c : ZoneConfig) : ZoneConfig :=
  let '(mkZoneConfig a1 a2 a3 a4 a5 a6 a7 a8 a9 a10 a11 a12 a13 ty) := c in
  match key with
  | k_cameraZoom => mkZoneConfig v a2 a3 a4 a5 a6 a7 a8 a9 a10 a11 a12 a13 ty
  | k_cAzimuthAngle => mkZoneConfig a1 v a3 a4 a5 a6 a7 a8 a9 a10 a11 a12 a13 ty
  | k_cPolarAngle => mkZoneConfig a1 a2 v a4 a5 a6 a7 a8 a9 a10 a11 a12 a13 ty
  | k_cDistance => mkZoneConfig a1 a2 a3 v a5 a6 a7 a8 a9 a10 a11 a12 a13 ty
  | k_rotationX => mkZoneConfig a1 a2 a3 a4 v a6 a7 a8 a9 a10 a11 a12 a13 ty
  | k_rotationY => mkZoneConfig a1 a2 a3 a4 a5 v a7 a8 a9 a10 a11 a12 a13 ty
  | k_rotationZ => mkZoneConfig a1 a2 a3 a4 a5 a6 v a8 a9 a10 a11 a12 a13 ty
  | k_positionX => mkZoneConfig a1 a2 a3 a4 a5 a6 a7 v a9 a10 a11 a12 a13 ty
  | k_fov => mkZoneConfig a1 a2 a3 a4 a5 a6 a7 a8 v a10 a11 a12 a13 ty
  | k_pixelDensity => mkZoneConfig a1 a2 a3 a4 a5 a6 a7 a8 a9 v a11 a12 a13 ty
  | k_uDensity => mkZoneConfig a1 a2 a3 a4 a5 a6 a7 a8 a9 a10 v a12 a13 ty
  | k_uSpeed => mkZoneConfig a1 a2 a3 a4 a5 a6 a7 a8 a9 a10 a11 v a13 ty
  | k_uStrength => mkZoneConfig a1 a2 a3 a4 a5 a6 a7 a8 a9 a10 a11 a12 v ty
  end.

Definition lerp (a b t : num) : num := (a + (b - a) * t)%js.

Definition easeOutCubic (t : num) : num :=
  (lit 1 - Math_pow (lit 1 - t) 3)%js.

Definition TRANSITION_DURATION : num := lit 700.

Definition numericKeys : list NumericKey := [
  k_cameraZoom; k_cAzimuthAngle; k_cPolarAngle; k_cDistance;
  k_rotationX; k_rotationY; k_rotationZ; k_positionX;
  k_fov; k_pixelDensity; k_uDensity; k_uSpeed; k_uStrength
].

(** [{ type: target.type } as ZoneConfig]: the numeric properties do not
    exist yet.  [unset] stands for them; the loop over [numericKeys]
    assigns every one, so no [unset] is left in the result
    ([newProps_unset_irrelevant] below). *)
Definition fresh (unset : num) (ty : ShapeType) : ZoneConfig :=
  mkZoneConfig unset unset unset unset unset unset unset unset unset
               unset unset unset unset ty.

Definition newProps_over (unset : num) (from target : ZoneConfig) (t : num)
  : ZoneConfig :=
  fold_left
    (fun newP key => set key (lerp (get key from) (get key target) t) newP)
    numericKeys
    (fresh unset (type target)).

Definition newProps : ZoneConfig -> ZoneConfig -> num -> ZoneConfig :=
  newProps_over (lit 0).

(** [{ ...ZONE_CONFIGS[0] }] *)
Definition initialProps : ZoneConfig :=
  nth 0 ZONE_CONFIGS (fresh (lit 0) sphere).

Definition State := Loop.State num ZoneConfig.
Definition Closure := Loop.Closure num ZoneConfig.
Definition Event := Loop.Event num.

Definition step : Closure -> num -> State -> State :=
  Loop.step ZoneConfig TRANSITION_DURATION easeOutCubic newProps.
Definition animateTo : ZoneConfig -> num -> State -> State :=
  Loop.animateTo ZoneConfig.
Definition handleTransition : num -> num -> State -> State :=
  Loop.handleTransition ZoneConfig ZONE_CONFIGS.
Definition dispatch : Event -> State -> State :=
  Loop.dispatch ZoneConfig ZONE_CONFIGS TRANSITION_DURATION easeOutCubic
                newProps.
Definition mount : N -> State := Loop.mount ZoneConfig initialProps.
Definition run : list Event -> State -> State :=
  Loop.run ZoneConfig ZONE_CONFIGS TRANSITION_DURATION easeOutCubic newProps.
Definition reachable : State -> Prop :=
  Loop.reachable ZoneConfig ZONE_CONFIGS initialProps TRANSITION_DURATION
                 easeOutCubic newProps.

(** The JSX returned by the component. *)
Definition render (st : State) : ShaderGradient.Props num :=
  let gradientProps := Loop.gradientProps _ st in
  {| ShaderGradient.animate := "on";
     ShaderGradient.axesHelper := "off";
     ShaderGradient.bgColor1 := "#000000";
     ShaderGradient.bgColor2 := "#000000";
     ShaderGradient.brightness := lit 1.2;
     ShaderGradient.cAzimuthAngle := cAzimuthAngle gradientProps;
     ShaderGradient.cDistance := cDistance gradientProps;
     ShaderGradient.cPolarAngle := cPolarAngle gradientProps;
     ShaderGradient.cameraZoom := cameraZoom gradientProps;
     ShaderGradient.color1 := "#7b2cbf";
     ShaderGradient.color2 := "#d17db8";
     ShaderGradient.color3 := "#e6d0de";
     ShaderGradient.destination := "onCanvas";
     ShaderGradient.embedMode := "off";
     ShaderGradient.envPreset := "city";
     ShaderGradient.format := "gif";
     ShaderGradient.fov := fov gradientProps;
     ShaderGradient.frameRate := lit 10;
     ShaderGradient.gizmoHelper := "hide";
     ShaderGradient.grain := "on";
     ShaderGradient.lightType := "3d";
     ShaderGradient.pixelDensity := pixelDensity gradientProps;
     ShaderGradient.positionX := positionX gradientProps;
     ShaderGradient.positionY := lit 0;
     ShaderGradient.positionZ := lit 0;
     ShaderGradient.range := "disabled";
     ShaderGradient.rangeEnd := lit 40;
     ShaderGradient.rangeStart := lit 0;
     ShaderGradient.reflection := lit 0.1;
     ShaderGradient.rotationX := rotationX gradientProps;
     ShaderGradient.rotationY := rotationY gradientProps;
     ShaderGradient.rotationZ := rotationZ gradientProps;
     ShaderGradient.shader := "defaults";
     ShaderGradient.type := type gradientProps;
     ShaderGradient.uAmplitude := lit 1;
     ShaderGradient.uDensity := uDensity gradientProps;
     ShaderGradient.uFrequency := lit 5.5;
     ShaderGradient.uSpeed := uSpeed gradientProps;
     ShaderGradient.uStrength := uStrength gradientProps;
     ShaderGradient.uTime := lit 0;
     ShaderGradient.wireframe := false |}.

(** The prop of the rendered element that shows the numeric key. *)
Definition rendered (key : NumericKey) (p : ShaderGradient.Props num) : num :=
  match key with
  | k_cameraZoom => ShaderGradient.cameraZoom p
  | k_cAzimuthAngle => ShaderGradient.cAzimuthAngle p
  | k_cPolarAngle => ShaderGradient.cPolarAngle p
  | k_cDistance => ShaderGradient.cDistance p
  | k_rotationX => ShaderGradient.rotationX p
  | k_rotationY => ShaderGradient.rotationY p
  | k_rotationZ => ShaderGradient.rotationZ p
  | k_positionX => ShaderGradient.positionX p
  | k_fov => ShaderGradient.fov p
  | k_pixelDensity => ShaderGradient.pixelDensity p
  | k_uDensity => ShaderGradient.uDensity p
  | k_uSpeed => ShaderGradient.uSpeed p
  | k_uStrength => ShaderGradient.uStrength p
  end.

End WithNumber.

Arguments ZoneConfig : clear implicits.
Arguments State : clear implicits.
Arguments Closure : clear implicits.
Arguments Event : clear implicits.

End GradientBackground.

(* ================================================================= *)
(** * [part_000]: the colour variant *)
(* ================================================================= *)

Module Part000.

Local Open Scope string_scope.

(** A colour written [#rrggbb] with lowercase digits. *)
Definition wellFormedHex (h : string) : bool :=
  match h with
  | String "#" (String c1 (String c2 (String c3 (String c4 (String c5
      (String c6 EmptyString)))))) =>
      forallb isHexDigit [c1; c2; c3; c4; c5; c6]
  | _ => false
  end.

Section WithNumber.

Context {num : Type} {NUM : Number num}.

Record SectionConfig := mkSectionConfig {
  color1 : string;
  color2 : string;
  color3 : string;
  positionY : num
}.

Definition SECTION_CONFIGS : list SectionConfig := [
  (* Zone 0 - Intro (same as About) *)
  mkSectionConfig "#ff5005" "#dbba95" "#d0bce1" (lit (-1.8));
  (* Zone 1 - About: orange/tan/lavender, bottom-right *)
  mkSectionConfig "#ff5005" "#dbba95" "#d0bce1" (lit (-1.8));
  (* Zone 2 - Experience: deep blue/light blue-green/pale blue *)
  mkSectionConfig "#0466c8" "#7ab8cc" "#c1d0c8" (lit (-0.6));
  (* Zone 3 - Projects: mid-green/green-yellow/pale mint *)
  mkSectionConfig "#2eab5e" "#a8d840" "#d2ebd8" (lit 0.6);
  (* Zone 4 - Contact: violet/pink-purple/light blush, top-right *)
  mkSectionConfig "#7b2cbf" "#d17db8" "#e6d0de" (lit 1.8)
].

(** The three channels as int32 values, before they are numbers again. *)
Definition hexToRgb_int (hex : string) : Z * Z * Z :=
  let n := ToInt32_parsed (parseInt (slice hex 1) 16) in
  (bitand (sar n 16) 255, bitand (sar n 8) 255, bitand n 255).

Definition of_int (z : Z) : num := lit (inject_Z z).

Definition hexToRgb (hex : string) : num * num * num :=
  let '(r, g, b) := hexToRgb_int hex in
  (of_int r, of_int g, of_int b).

Definition rgbToHex (r g b : num) : string :=
  "#" ++
  slice
    (toString
       (bitor (bitor (bitor (shl 1 24)
                            (shl (ToInt32 (Math_round r)) 16))
                     (shl (ToInt32 (Math_round g)) 8))
              (ToInt32 (Math_round b)))
       16)
    1.

Definition lerpColor (from to : string) (t : num) : string :=
  let '(r1, g1, b1) := hexToRgb from in
  let '(r2, g2, b2) := hexToRgb to in
  rgbToHex (r1 + (r2 - r1) * t)%js
           (g1 + (g2 - g1) * t)%js
           (b1 + (b2 - b1) * t)%js.

Definition lerp (a b t : num) : num := (a + (b - a) * t)%js.

Definition easeOutCubic (t : num) : num :=
  (lit 1 - Math_pow (lit 1 - t) 3)%js.

Definition TRANSITION_DURATION : num := lit 700.

Definition newProps (from target : SectionConfig) (t : num)
  : SectionConfig :=
  {| color1 := lerpColor (color1 from) (color1 target) t;
     color2 := lerpColor (color2 from) (color2 target) t;
     color3 := lerpColor (color3 from) (color3 target) t;
     positionY := lerp (positionY from) (positionY target) t |}.

(** The initial [useState] value, copied into [currentRef]. *)
Definition initialProps : SectionConfig :=
  let c0 := nth 0 SECTION_CONFIGS (mkSectionConfig "" "" "" (lit 0)) in
  {| color1 := color1 c0;
     color2 := color2 c0;
     color3 := color3 c0;
     positionY := positionY c0 |}.

Definition State := Loop.State num SectionConfig.
Definition Closure := Loop.Closure num SectionConfig.
Definition Event := Loop.Event num.

Definition step : Closure -> num -> State -> State :=
  Loop.step SectionConfig TRANSITION_DURATION easeOutCubic newProps.
Definition animateTo : SectionConfig -> num -> State -> State :=
  Loop.animateTo SectionConfig.
Definition handleTransition : num -> num -> State -> State :=
  Loop.handleTransition SectionConfig SECTION_CONFIGS.
Definition dispatch : Event -> State -> State :=
  Loop.dispatch SectionConfig SECTION_CONFIGS TRANSITION_DURATION
                easeOutCubic newProps.
Definition mount : N -> State := Loop.mount SectionConfig initialProps.
Definition run : list Event -> State -> State :=
  Loop.run SectionConfig SECTION_CONFIGS TRANSITION_DURATION easeOutCubic
           newProps.
Definition reachable : State -> Prop :=
  Loop.reachable SectionConfig SECTION_CONFIGS initialProps
                 TRANSITION_DURATION easeOutCubic newProps.

(** The JSX returned by the component. *)
Definition render (st : State) : ShaderGradient.Props num :=
  let gradientProps := Loop.gradientProps _ st in
  {| ShaderGradient.animate := "on";
     ShaderGradient.axesHelper := "off";
     ShaderGradient.bgColor1 := "#000000";
     ShaderGradient.bgColor2 := "#000000";
     ShaderGradient.brightness := lit 1.2;
     ShaderGradient.cAzimuthAngle := lit 180;
     ShaderGradient.cDistance := lit 3.6;
     ShaderGradient.cPolarAngle := lit 90;
     ShaderGradient.cameraZoom := lit 2.3;
     ShaderGradient.color1 := color1 gradientProps;
     ShaderGradient.color2 := color2 gradientProps;
     ShaderGradient.color3 := color3 gradientProps;
     ShaderGradient.destination := "onCanvas";
     ShaderGradient.embedMode := "off";
     ShaderGradient.envPreset := "city";
     ShaderGradient.format := "gif";
     ShaderGradient.fov := lit 45;
     ShaderGradient.frameRate := lit 10;
     ShaderGradient.gizmoHelper := "hide";
     ShaderGradient.grain := "on";
     ShaderGradient.lightType := "3d";
     ShaderGradient.pixelDensity := lit 1.3;
     ShaderGradient.positionX := lit (-2.9);
     ShaderGradient.positionY := positionY gradientProps;
     ShaderGradient.positionZ := lit 0;
     ShaderGradient.range := "disabled";
     ShaderGradient.rangeEnd := lit 40;
     ShaderGradient.rangeStart := lit 0;
     ShaderGradient.reflection := lit 0.1;
     ShaderGradient.rotationX := lit 0;
     ShaderGradient.rotationY := lit 10;
     ShaderGradient.rotationZ := lit 50;
     ShaderGradient.shader := "defaults";
     ShaderGradient.type := ShaderGradient.sphere;
     ShaderGradient.uAmplitude := lit 1;
     ShaderGradient.uDensity := lit 3;
     ShaderGradient.uFrequency := lit 5.5;
     ShaderGradient.uSpeed := lit 0.1;
     ShaderGradient.uStrength := lit 3.8;
     ShaderGradient.uTime := lit 0;
     ShaderGradient.wireframe := false |}.

End WithNumber.

Arguments SectionConfig : clear implicits.
Arguments State : clear implicits.
Arguments Closure : clear implicits.
Arguments Event : clear implicits.

End Part000.

(* ================================================================= *)
(** * Notions of the specification *)
(* ================================================================= *)

(** The eased progress at elapsed time [e], written as the specification
    does: easeOutCubic(min(e / 700, 1)), easeOutCubic(t) = 1 - (1 - t)^3. *)
Definition eased_progress {num : Type} {NUM : Number num} (e : num) : num :=
  (lit 1 - Math_pow (lit 1 - Math_min (e / lit 700) (lit 1)) 3)%js.

(** A number that indexes one of the five rows of a zone table. *)
Definition indexes_a_zone (zoneIndex : Q) : Prop :=
  exists i : Z, (0 <= i <= 4)%Z /\ zoneIndex == inject_Z i.

(** The doubles that the counterexamples below meet. *)
Module Doubles.
Import PrimFloat.
Definition a_tenth : float := 0x1.999999999999ap-4.
Definition below_a_tenth : float := 0x1.9999999999998p-4.
Definition minus_six_tenths : float := -0x1.3333333333333p-1.
Definition above_minus_six_tenths : float := -0x1.3333333333332p-1.
End Doubles.

(** A decoded double that is positive and at least [2^(52 + lo)]: the
    positive infinity, or a finite positive double whose mantissa has 53
    digits and whose exponent is at least [lo]. *)
Definition sf_at_least (lo : Z) (r : SpecFloat.spec_float) : Prop :=
  r = SpecFloat.S754_infinity false \/
  exists m e,
    r = SpecFloat.S754_finite false m e /\ (lo <= e)%Z /\ (2 ^ 52 <= Zpos m)%Z.

(* ================================================================= *)
(** * Notions for the further properties *)
(* ================================================================= *)

(** Characters that [parseInt(_, 16)] reads as the digits [ds]: [0-9],
    [a-f] and [A-F]. *)
Definition hexDigits (cs : list ascii) (ds : list Z) : Prop :=
  Forall2 (fun c d => digitValue c = Some d /\ (0 <= d < 16)%Z) cs ds.

(** The bytes 2, 1 and 0 of an integer. *)
Definition channelsOf (n : Z) : Z * Z * Z :=
  ((n / 65536) mod 256, (n / 256) mod 256, n mod 256)%Z.

(** No frame callback is run with a timestamp earlier than the start
    time its closure captured. *)
Fixpoint timely (evs : list (Loop.Event Q)) (st : Part000.State Q) : Prop :=
  match evs with
  | [] => True
  | ev :: rest =>
      match ev with
      | Loop.AnimationFrame now =>
          Forall (fun e => (Loop.startTime _ (snd e) <= now)%Q)
                 (Loop.callbacks _ st)
      | _ => True
      end /\ timely rest (Part000.dispatch ev st)
  end.

(** Channel by channel, [v] lies between [x] and [y]. *)
Definition betweenRgb (x y v : Z * Z * Z) : Prop :=
  let '(x1, x2, x3) := x in
  let '(y1, y2, y3) := y in
  let '(v1, v2, v3) := v in
  (Z.min x1 y1 <= v1 <= Z.max x1 y1)%Z /\
  (Z.min x2 y2 <= v2 <= Z.max x2 y2)%Z /\
  (Z.min x3 y3 <= v3 <= Z.max x3 y3)%Z.

(** The channel [lerpColor] writes for the channels [a] and [b] of its
    two colours: [Math.round(a + (b - a) * t)]. *)
Definition mixChannel (a b : Z) (t : Q) : Z :=
  Qround_half_up (inject_Z a + (inject_Z b - inject_Z a) * t).

(** The events of the component itself: the sequence without the frame
    requests of other code. *)
Definition isForeign {num : Type} (ev : Loop.Event num) : bool :=
  match ev with
  | Loop.ForeignRequest => true
  | _ => false
  end.

Definition withoutForeign {num : Type} (evs : list (Loop.Event num))
  : list (Loop.Event num) :=
  filter (fun ev => negb (isForeign ev)) evs.

(* ================================================================= *)
(** * The model on sample inputs *)
(* ================================================================= *)

Module Samples.

Example parseInt_samples :
  parseInt "ff5005" 16 = Some 16732165%Z /\
  parseInt "FfA" 16 = Some 4090%Z /\
  parseInt "  -0x1fg" 16 = Some (-31)%Z /\
  parseInt "12px" 10 = Some 12%Z /\
  parseInt "" 16 = None /\
  parseInt "xyz" 16 = None /\
  parseInt "20000000000001" 16 = Some 9007199254740992%Z.
Proof. repeat split; reflexivity. Qed.

Example toString_samples :
  toString 16777215 16 = "ffffff"%string /\
  toString 16777216 16 = "1000000"%string /\
  toString 0 16 = "0"%string /\
  toString (-255) 16 = "-ff"%string /\
  toString 35 36 = "z"%string.
Proof. repeat split; reflexivity. Qed.

Example int32_samples :
  shl 1 24 = 16777216%Z /\
  shl 255 16 = 16711680%Z /\
  shl 1 31 = (-2147483648)%Z /\
  shl 32768 16 = (-2147483648)%Z /\
  sar (-256) 4 = (-16)%Z /\
  bitor (shl 1 24) 255 = 16777471%Z /\
  bitand (-1) 255 = 255%Z.
Proof. repeat split; reflexivity. Qed.

Example Math_round_samples :
  Math_round (2.5 : Q) == 3 /\
  Math_round (-2.5 : Q) == -2 /\
  Math_round (254.49 : Q) == 254 /\
  ToInt32 (-1.5 : Q) = (-1)%Z /\
  ToInt32 (4294967297.5 : Q) = 1%Z /\
  ToIndex (4 : Q) = Some 4%nat /\
  ToIndex (1.5 : Q) = None /\
  ToIndex (-1 : Q) = None.
Proof. repeat split; reflexivity. Qed.

Example doubles_samples :
  (lit 0.1 : PrimFloat.float) = Doubles.a_tenth /\
  (lit 0.4 + (lit 0.1 - lit 0.4) * lit 1)%js = Doubles.below_a_tenth /\
  F64.to_Q (lit 0.5) = Some (1 # 2) /\
  F64.to_Q (lit 255) = Some 255 /\
  F64.to_Q PrimFloat.nan = None /\
  Math_round (lit 2.5 : PrimFloat.float) = lit 3 /\
  Math_round (lit (-2.5) : PrimFloat.float) = lit (-2) /\
  Math_round (lit (-0.2) : PrimFloat.float) = PrimFloat.neg_zero /\
  ToIndex (lit 4 : PrimFloat.float) = Some 4%nat /\
  ToIndex PrimFloat.neg_zero = Some 0%nat /\
  ToIndex (lit 1.5 : PrimFloat.float) = None /\
  ToIndex PrimFloat.nan = None.
Proof. repeat split; vm_compute; reflexivity. Qed.

Example rgbToHex_samples :
  Part000.rgbToHex (255.4 : Q) (-0.4) 15.5 = "#ff0010"%string /\
  Part000.rgbToHex (256 : Q) 0 0 = "#000000"%string /\
  Part000.rgbToHex (-1 : Q) 0 0 = "#10000"%string /\
  Part000.hexToRgb_int "#ff5005" = (255, 80, 5)%Z /\
  Part000.hexToRgb_int "#FF5005" = (255, 80, 5)%Z /\
  Part000.hexToRgb_int "#fff" = (0, 15, 255)%Z /\
  Part000.hexToRgb_int "zzz" = (0, 0, 0)%Z /\
  Part000.lerpColor "#ff5005" "#0466c8" (1 # 2 : Q) = "#825b67"%string.
Proof. repeat split; vm_compute; reflexivity. Qed.

End Samples.

(* ================================================================= *)
(** * Facts about the built-ins *)
(* ================================================================= *)

Module JSFacts.

Local Open Scope Z_scope.

(** ** Digit strings *)

Lemma digitsValue_snoc radix ds d :
  digitsValue radix (ds ++ [d]) = digitsValue radix ds * radix + d.
Proof. unfold digitsValue. rewrite fold_left_app. reflexivity. Qed.

Lemma fold_digits_lower radix ds a :
  1 <= radix -> 0 <= a -> validDigits radix ds ->
  a <= fold_left (fun a d => a * radix + d) ds a.
Proof.
  intros Hr. revert a. induction ds as [| d ds IH]; intros a Ha Hv; cbn.
  - lia.
  - inversion Hv as [| ? ? Hd Hv']; subst.
    etransitivity; [| apply IH; [nia | assumption]]. nia.
Qed.

Lemma digitsValue_pos radix d ds :
  1 <= radix -> validDigits radix (d :: ds) -> d <> 0 ->
  0 < digitsValue radix (d :: ds).
Proof.
  intros Hr Hv Hd. inversion Hv as [| ? ? Hd' Hv']; subst.
  unfold digitsValue. cbn.
  pose proof (fold_digits_lower radix ds d Hr ltac:(lia) Hv'). lia.
Qed.

Lemma digitsString_snoc ds d acc :
  (digitsString (ds ++ [d]) ++ acc)%string
  = (digitsString ds ++ String (digitChar d) acc)%string.
Proof.
  induction ds as [| x ds IH]; [reflexivity |].
  change (String (digitChar x) (digitsString (ds ++ [d]) ++ acc)
          = String (digitChar x)
              (digitsString ds ++ String (digitChar d) acc))%string.
  now rewrite IH.
Qed.

(** [toDigits] writes out a digit list, given a unit of fuel per digit. *)
Lemma toDigits_digits radix :
  2 <= radix ->
  forall ds fuel acc,
    ds <> [] -> validDigits radix ds -> hd 0 ds <> 0 ->
    (length ds <= fuel)%nat ->
    toDigits fuel radix (digitsValue radix ds) acc
    = (digitsString ds ++ acc)%string.
Proof.
  intros Hr ds. induction ds as [| d ds IH] using rev_ind;
    intros fuel acc Hne Hv Hhd Hlen; [congruence |].
  rewrite digitsValue_snoc, digitsString_snoc.
  apply Forall_app in Hv. destruct Hv as [Hv Hd].
  inversion Hd as [| ? ? Hd' _]; subst.
  rewrite length_app in Hlen. cbn in Hlen.
  destruct fuel as [| fuel]; [lia |]. cbn [toDigits].
  replace ((digitsValue radix ds * radix + d) mod radix) with d
    by (rewrite Z.add_comm, Z.mod_add by lia; now rewrite Z.mod_small).
  replace ((digitsValue radix ds * radix + d) / radix)
    with (digitsValue radix ds)
    by (rewrite Z.add_comm, Z.div_add by lia; rewrite Z.div_small by lia; lia).
  destruct ds as [| d0 ds'].
  - reflexivity.
  - pose proof (digitsValue_pos radix d0 ds' ltac:(lia) Hv Hhd) as Hpos.
    destruct (Z.eqb_spec (digitsValue radix (d0 :: ds')) 0); [lia |].
    apply IH; [discriminate | assumption | exact Hhd | lia].
Qed.

Lemma digitsValue_lower radix d ds :
  2 <= radix -> validDigits radix (d :: ds) -> d <> 0 ->
  radix ^ Z.of_nat (length ds) <= digitsValue radix (d :: ds).
Proof.
  intros Hr. revert d.
  induction ds as [| x ds IH] using rev_ind; intros d Hv Hd.
  - inversion Hv; subst. unfold digitsValue. cbn. lia.
  - change (d :: ds ++ [x])%list with ((d :: ds) ++ [x])%list in *.
    apply Forall_app in Hv. destruct Hv as [Hv Hx].
    inversion Hx as [| ? ? Hx' _]; subst.
    rewrite digitsValue_snoc, length_app. cbn [length].
    rewrite Nat2Z.inj_add, Z.pow_add_r by lia.
    specialize (IH d Hv Hd). change (Z.of_nat 1) with 1. rewrite Z.pow_1_r. nia.
Qed.

(** The fuel [toString] supplies is enough for every integer. *)
Lemma toString_digits radix ds :
  2 <= radix -> ds <> [] -> validDigits radix ds -> hd 0 ds <> 0 ->
  toString (digitsValue radix ds) radix = digitsString ds.
Proof.
  intros Hr Hne Hv Hhd.
  destruct ds as [| d ds]; [congruence |]. cbn [hd] in Hhd.
  pose proof (digitsValue_pos radix d ds ltac:(lia) Hv Hhd) as Hpos.
  pose proof (digitsValue_lower radix d ds Hr Hv Hhd) as Hlow.
  unfold toString.
  destruct (Z.ltb_spec (digitsValue radix (d :: ds)) 0); [lia |].
  rewrite (toDigits_digits radix Hr (d :: ds)); try assumption.
  - clear. induction (digitsString (d :: ds)); cbn; congruence.
  - cbn [length].
    assert (Z.of_nat (length ds) <= Z.log2 (digitsValue radix (d :: ds))).
    { apply Z.log2_le_pow2; [lia |].
      etransitivity; [| exact Hlow].
      apply Z.pow_le_mono_l. lia. }
    lia.
Qed.

Lemma parseDigits_digits radix ds acc :
  validDigits radix ds ->
  (forall d, 0 <= d < radix -> digitValue (digitChar d) = Some d) ->
  parseDigits radix (digitsString ds) (Some acc)
  = Some (fold_left (fun a d => a * radix + d) ds acc).
Proof.
  intros Hv Hdig. revert acc.
  induction Hv as [| d ds Hd Hv IH]; intros acc; cbn.
  - reflexivity.
  - rewrite (Hdig d Hd). destruct (Z.ltb_spec d radix); [| lia]. apply IH.
Qed.

(** ** Hexadecimal digits and the int32 operators *)

Lemma hex_cases (d : Z) :
  0 <= d < 16 ->
  d = 0 \/ d = 1 \/ d = 2 \/ d = 3 \/ d = 4 \/ d = 5 \/ d = 6 \/ d = 7 \/
  d = 8 \/ d = 9 \/ d = 10 \/ d = 11 \/ d = 12 \/ d = 13 \/ d = 14 \/ d = 15.
Proof. lia. Qed.

Ltac each_hex d H :=
  let C := fresh in
  pose proof (hex_cases d H) as C;
  repeat (destruct C as [C | C]); subst d.

Lemma digitValue_digitChar (d : Z) :
  0 <= d < 16 -> digitValue (digitChar d) = Some d.
Proof. intros H. each_hex d H; reflexivity. Qed.

Lemma isHexDigit_digitChar (d : Z) :
  0 <= d < 16 -> isHexDigit (digitChar d) = true.
Proof. intros H. each_hex d H; reflexivity. Qed.

Lemma isHexDigit_inv (c : ascii) :
  isHexDigit c = true -> exists d, 0 <= d < 16 /\ c = digitChar d.
Proof.
  intros H.
  exists (match digitValue c with Some d => d | None => 0 end).
  destruct c as [[] [] [] [] [] [] [] []];
    try discriminate H; cbv; intuition congruence.
Qed.

Lemma trimStart_hex (d : Z) (r : string) :
  0 <= d < 16 -> trimStart (String (digitChar d) r) = String (digitChar d) r.
Proof. intros H. each_hex d H; reflexivity. Qed.

Lemma splitSign_hex (d : Z) (r : string) :
  0 <= d < 16 ->
  splitSign (String (digitChar d) r) = (1, String (digitChar d) r).
Proof. intros H. each_hex d H; reflexivity. Qed.

Lemma stripHexPrefix_hex (d1 d2 : Z) (r : string) :
  0 <= d1 < 16 -> 0 <= d2 < 16 ->
  stripHexPrefix (String (digitChar d1) (String (digitChar d2) r)) = None.
Proof. intros H1 H2. each_hex d1 H1; each_hex d2 H2; reflexivity. Qed.

Lemma land_disjoint (a b k : Z) :
  0 <= k -> 0 <= b < 2 ^ k -> Z.land (a * 2 ^ k) b = 0.
Proof.
  intros Hk Hb. apply Z.bits_inj'. intros n Hn.
  rewrite Z.land_spec, Z.bits_0.
  destruct (Z.lt_ge_cases n k) as [Hlt | Hge].
  - rewrite Z.mul_pow2_bits_low by lia. reflexivity.
  - destruct (Z.eq_dec b 0) as [-> | Hnz].
    + rewrite Z.bits_0. apply andb_false_r.
    + rewrite (Z.bits_above_log2 b n); [apply andb_false_r | lia |].
      apply Z.log2_lt_pow2; [lia |].
      apply Z.lt_le_trans with (2 ^ k); [lia |].
      apply Z.pow_le_mono_r; lia.
Qed.

Lemma lor_disjoint (a b k : Z) :
  0 <= k -> 0 <= b < 2 ^ k -> Z.lor (a * 2 ^ k) b = a * 2 ^ k + b.
Proof.
  intros Hk Hb.
  pose proof (Z.add_lor_land (a * 2 ^ k) b) as H.
  rewrite land_disjoint in H by assumption. lia.
Qed.

Lemma wrap32_small (z : Z) :
  (- 2 ^ 31 <= z < 2 ^ 31)%Z -> wrap32 z = z.
Proof.
  intros Hz. unfold wrap32.
  rewrite Z.mod_small by lia. lia.
Qed.

Lemma shl_small (x n : Z) :
  0 <= n < 32 -> 0 <= x -> x * 2 ^ n < 2 ^ 31 -> shl x n = x * 2 ^ n.
Proof.
  intros Hn Hx Hlt. unfold shl.
  assert (x < 2 ^ 31) by (pose proof (Z.pow_pos_nonneg 2 n); nia).
  rewrite (wrap32_small x) by lia.
  rewrite Z.mod_small by lia. rewrite Z.shiftl_mul_pow2 by lia.
  apply wrap32_small. nia.
Qed.

Lemma bitor_small (a b k : Z) :
  0 <= k -> 1 <= a -> a * 2 ^ k < 2 ^ 31 -> 0 <= b < 2 ^ k ->
  bitor (a * 2 ^ k) b = a * 2 ^ k + b.
Proof.
  intros Hk Ha Hlt Hb. unfold bitor.
  pose proof (Z.pow_pos_nonneg 2 k ltac:(lia) Hk).
  rewrite (wrap32_small (a * 2 ^ k)), (wrap32_small b) by nia.
  now apply lor_disjoint.
Qed.

(** The integer that [rgbToHex] converts to hexadecimal. *)
Lemma packed_channels (R G B : Z) :
  0 <= R <= 255 -> 0 <= G <= 255 -> 0 <= B <= 255 ->
  bitor (bitor (bitor (shl 1 24) (shl R 16)) (shl G 8)) B
  = 16777216 + R * 65536 + G * 256 + B.
Proof.
  intros HR HG HB.
  rewrite (shl_small 1 24), (shl_small R 16), (shl_small G 8) by lia.
  change (1 * 2 ^ 24) with (1 * 2 ^ 24).
  rewrite (bitor_small 1 (R * 2 ^ 16) 24) by lia.
  replace (1 * 2 ^ 24 + R * 2 ^ 16) with ((256 + R) * 2 ^ 16) by lia.
  rewrite (bitor_small (256 + R) (G * 2 ^ 8) 16) by lia.
  replace ((256 + R) * 2 ^ 16 + G * 2 ^ 8)
    with ((65536 + R * 256 + G) * 2 ^ 8) by lia.
  rewrite (bitor_small (65536 + R * 256 + G) B 8) by lia.
  lia.
Qed.

Lemma sar_small (x n : Z) :
  0 <= n < 32 -> 0 <= x < 2 ^ 31 -> sar x n = x / 2 ^ n.
Proof.
  intros Hn Hx. unfold sar.
  rewrite wrap32_small by lia. rewrite Z.mod_small by lia.
  apply Z.shiftr_div_pow2. lia.
Qed.

Lemma bitand_255 (x : Z) :
  0 <= x < 2 ^ 31 -> bitand x 255 = x mod 256.
Proof.
  intros Hx. unfold bitand. rewrite !wrap32_small by lia.
  change 255 with (Z.ones 8). rewrite Z.land_ones by lia. reflexivity.
Qed.

Lemma wrap32_range (z : Z) : - 2 ^ 31 <= wrap32 z < 2 ^ 31.
Proof.
  unfold wrap32.
  pose proof (Z.mod_pos_bound (z + 2147483648) 4294967296 ltac:(lia)). lia.
Qed.

(** ** Colours of [part_000] *)

Lemma hex2_valid (c : Z) : 0 <= c <= 255 -> validDigits 16 (hex2 c).
Proof.
  intros Hc. unfold hex2.
  repeat constructor; try (apply Z.div_pos; lia); try apply Z.mod_pos_bound;
    try lia.
  apply Z.div_lt_upper_bound; lia.
Qed.

Lemma stripHexPrefix_digits (d : Z) (ds : list Z) :
  validDigits 16 (d :: ds) -> stripHexPrefix (digitsString (d :: ds)) = None.
Proof.
  intros Hv. inversion Hv as [| ? ? Hd Hv']; subst.
  destruct Hv' as [| d2 ds H2 _].
  - each_hex d Hd; reflexivity.
  - each_hex d Hd; each_hex d2 H2; reflexivity.
Qed.

Lemma parseInt_hex_digits (ds : list Z) :
  ds <> [] -> validDigits 16 ds ->
  parseInt (digitsString ds) 16 = Some (nearestDouble (digitsValue 16 ds)).
Proof.
  intros Hne Hv. destruct ds as [| d ds]; [congruence |].
  pose proof Hv as Hv0. inversion Hv as [| ? ? Hd Hv']; subst.
  unfold parseInt.
  change (digitsString (d :: ds)) with (String (digitChar d) (digitsString ds)).
  rewrite trimStart_hex, splitSign_hex by assumption.
  change (String (digitChar d) (digitsString ds)) with (digitsString (d :: ds)).
  rewrite stripHexPrefix_digits by assumption.
  change (wrap32 16) with 16.
  cbn [Z.eqb Pos.eqb Z.ltb Z.compare Pos.compare Pos.compare_cont
       negb andb orb].
  change (digitsString (d :: ds)) with (String (digitChar d) (digitsString ds)).
  cbn [parseDigits]. rewrite digitValue_digitChar by assumption.
  destruct (Z.ltb_spec d 16); [| lia].
  rewrite parseDigits_digits; [| assumption | apply digitValue_digitChar].
  unfold digitsValue. cbn [fold_left]. rewrite Z.mul_1_l. reflexivity.
Qed.

Section Channels.

Context {num : Type} {NUM : Number num}.

Import Part000.

Lemma rgbToHex_channels (r g b : num) :
  let R := ToInt32 (Math_round r) in
  let G := ToInt32 (Math_round g) in
  let B := ToInt32 (Math_round b) in
  0 <= R <= 255 -> 0 <= G <= 255 -> 0 <= B <= 255 ->
  rgbToHex r g b
  = String "#" (digitsString (hex2 R ++ hex2 G ++ hex2 B)).
Proof.
  intros R G B HR HG HB. unfold rgbToHex. fold R G B.
  rewrite packed_channels by assumption.
  pose proof (hex2_valid R HR) as VR. pose proof (hex2_valid G HG) as VG.
  pose proof (hex2_valid B HB) as VB.
  replace (16777216 + R * 65536 + G * 256 + B)
    with (digitsValue 16 (1 :: hex2 R ++ hex2 G ++ hex2 B)).
  - rewrite toString_digits; [reflexivity | lia | discriminate | | cbn; lia].
    constructor; [lia |]. repeat (apply Forall_app; split); assumption.
  - unfold digitsValue, hex2. cbn [fold_left app].
    pose proof (Z.div_mod R 16 ltac:(lia)).
    pose proof (Z.div_mod G 16 ltac:(lia)).
    pose proof (Z.div_mod B 16 ltac:(lia)). lia.
Qed.

Lemma hexToRgb_int_range (hex : string) :
  let '(r, g, b) := hexToRgb_int hex in
  0 <= r <= 255 /\ 0 <= g <= 255 /\ 0 <= b <= 255.
Proof.
  unfold hexToRgb_int.
  assert (Hb : forall x, 0 <= bitand x 255 <= 255).
  { intros x. unfold bitand. rewrite (wrap32_small 255) by lia.
    replace (Z.land (wrap32 x) 255) with (wrap32 x mod 2 ^ 8)
      by (symmetry; apply (Z.land_ones (wrap32 x) 8); lia).
    pose proof (Z.mod_pos_bound (wrap32 x) (2 ^ 8) ltac:(lia)). lia. }
  repeat split; apply Hb.
Qed.

Lemma hexToRgb_int_digits (d1 d2 d3 d4 d5 d6 : Z) :
  validDigits 16 [d1; d2; d3; d4; d5; d6] ->
  hexToRgb_int (String "#" (digitsString [d1; d2; d3; d4; d5; d6]))
  = (d1 * 16 + d2, d3 * 16 + d4, d5 * 16 + d6).
Proof.
  intros Hv.
  assert (Hall : forall d, In d [d1; d2; d3; d4; d5; d6] -> 0 <= d < 16)
    by (apply Forall_forall; exact Hv).
  assert (H1 : 0 <= d1 < 16) by (apply Hall; cbn; auto).
  assert (H2 : 0 <= d2 < 16) by (apply Hall; cbn; auto).
  assert (H3 : 0 <= d3 < 16) by (apply Hall; cbn; auto).
  assert (H4 : 0 <= d4 < 16) by (apply Hall; cbn; auto).
  assert (H5 : 0 <= d5 < 16) by (apply Hall; cbn; auto 7).
  assert (H6 : 0 <= d6 < 16) by (apply Hall; cbn; auto 7).
  clear Hall.
  unfold hexToRgb_int. cbn [slice].
  rewrite parseInt_hex_digits by (assumption || discriminate).
  unfold digitsValue. cbn [fold_left]. rewrite Z.mul_0_l, Z.add_0_l.
  set (n := ((((d1 * 16 + d2) * 16 + d3) * 16 + d4) * 16 + d5) * 16 + d6).
  assert (Hn : 0 <= n < 2 ^ 24) by (subst n; lia).
  assert (Hnd : nearestDouble n = n).
  { unfold nearestDouble.
    destruct (Z.leb_spec (Z.log2 n - 52) 0) as [_ | Hk]; [reflexivity |].
    destruct (Z.eq_dec n 0) as [-> | Hnz]; [discriminate Hk |].
    assert (Z.log2 n < 24) by (apply Z.log2_lt_pow2; lia). lia. }
  rewrite Hnd. unfold ToInt32_parsed.
  rewrite (wrap32_small n) by lia.
  rewrite !sar_small by lia.
  rewrite !bitand_255;
    try (split; [apply Z.div_pos; lia | apply Z.div_lt_upper_bound; lia]);
    try lia.
  change (2 ^ 16) with 65536. change (2 ^ 8) with 256.
  assert (E16 : n / 65536 = d1 * 16 + d2).
  { symmetry.
    apply Z.div_unique with (r := ((d3 * 16 + d4) * 16 + d5) * 16 + d6);
      subst n; lia. }
  assert (E8 : n / 256 = ((d1 * 16 + d2) * 16 + d3) * 16 + d4).
  { symmetry. apply Z.div_unique with (r := d5 * 16 + d6); subst n; lia. }
  rewrite E16, E8. f_equal; [f_equal |].
  - apply Z.mod_small. lia.
  - symmetry. apply Z.mod_unique with (q := d1 * 16 + d2); lia.
  - symmetry.
    apply Z.mod_unique with (q := (((d1 * 16 + d2) * 16 + d3) * 16 + d4));
      subst n; lia.
Qed.

End Channels.

Section Colours.

Context {num : Type} {NUM : Number num}.
Hypothesis exact : byte_exact num.

Import Part000.

Lemma wellFormedHex_inv (h : string) :
  wellFormedHex h = true ->
  exists d1 d2 d3 d4 d5 d6,
    validDigits 16 [d1; d2; d3; d4; d5; d6] /\
    h = String "#" (digitsString [d1; d2; d3; d4; d5; d6]).
Proof.
  intros H.
  destruct h as [| c0 h]; [discriminate |].
  destruct c0 as [[] [] [] [] [] [] [] []]; try discriminate H.
  destruct h as [| c1 [| c2 [| c3 [| c4 [| c5 [| c6 [| c7 h]]]]]]];
    try discriminate H.
  cbn [wellFormedHex forallb] in H.
  repeat (apply andb_prop in H; let Hc := fresh "Hc" in destruct H as [Hc H]).
  repeat match goal with
         | Hc : isHexDigit ?c = true |- _ =>
             let d := fresh "d" in
             let Hd := fresh "Hd" in
             destruct (isHexDigit_inv c Hc) as (d & Hd & ->); clear Hc
         end.
  exists d4, d3, d2, d1, d0, d. split; [| reflexivity].
  repeat constructor; lia.
Qed.

Lemma hex2_digits (d1 d2 : Z) :
  0 <= d1 < 16 -> 0 <= d2 < 16 -> hex2 (d1 * 16 + d2) = [d1; d2].
Proof.
  intros H1 H2. unfold hex2. f_equal; [| f_equal].
  - symmetry. apply Z.div_unique with (r := d2); lia.
  - symmetry. apply Z.mod_unique with (q := d1); lia.
Qed.

(** [rgbToHex] of numbers that round to the channels of a well-formed
    colour gives that colour back. *)
Lemma rgbToHex_of_channels (h : string) (r g b : num) :
  wellFormedHex h = true ->
  (ToInt32 (Math_round r), ToInt32 (Math_round g), ToInt32 (Math_round b))
    = hexToRgb_int h ->
  rgbToHex r g b = h.
Proof.
  intros Hwf Hch.
  destruct (wellFormedHex_inv h Hwf)
    as (d1 & d2 & d3 & d4 & d5 & d6 & Hv & ->).
  rewrite hexToRgb_int_digits in Hch by assumption.
  injection Hch as HR HG HB.
  assert (Hall : forall d, In d [d1; d2; d3; d4; d5; d6] -> 0 <= d < 16)
    by (apply Forall_forall; exact Hv).
  assert (H1 : 0 <= d1 < 16) by (apply Hall; cbn; auto).
  assert (H2 : 0 <= d2 < 16) by (apply Hall; cbn; auto).
  assert (H3 : 0 <= d3 < 16) by (apply Hall; cbn; auto).
  assert (H4 : 0 <= d4 < 16) by (apply Hall; cbn; auto).
  assert (H5 : 0 <= d5 < 16) by (apply Hall; cbn; auto 7).
  assert (H6 : 0 <= d6 < 16) by (apply Hall; cbn; auto 7).
  rewrite rgbToHex_channels by lia.
  rewrite HR, HG, HB, !hex2_digits by assumption. reflexivity.
Qed.

Lemma hexToRgb_roundtrip (h : string) :
  wellFormedHex h = true ->
  let '(r, g, b) := hexToRgb h in rgbToHex r g b = h.
Proof.
  intros Hwf. unfold hexToRgb.
  pose proof (hexToRgb_int_range h) as Hr.
  destruct (hexToRgb_int h) as [[R G] B] eqn:E.
  destruct Hr as (HR & HG & HB).
  apply rgbToHex_of_channels; [assumption |]. rewrite E. unfold of_int.
  now rewrite (proj1 (exact R R HR HR)), (proj1 (exact G G HG HG)),
    (proj1 (exact B B HB HB)).
Qed.

Lemma lerpColor_0 (from to : string) :
  wellFormedHex from = true -> lerpColor from to (lit 0) = from.
Proof.
  intros Hwf. unfold lerpColor, hexToRgb.
  pose proof (hexToRgb_int_range from) as Hf.
  pose proof (hexToRgb_int_range to) as Ht.
  destruct (hexToRgb_int from) as [[R1 G1] B1] eqn:Ef.
  destruct (hexToRgb_int to) as [[R2 G2] B2] eqn:Et.
  destruct Hf as (? & ? & ?). destruct Ht as (? & ? & ?).
  apply rgbToHex_of_channels; [assumption |]. rewrite Ef. unfold of_int.
  now rewrite (proj1 (proj2 (exact R1 R2 ltac:(assumption) ltac:(assumption)))),
    (proj1 (proj2 (exact G1 G2 ltac:(assumption) ltac:(assumption)))),
    (proj1 (proj2 (exact B1 B2 ltac:(assumption) ltac:(assumption)))).
Qed.

Lemma lerpColor_1 (from to : string) :
  wellFormedHex to = true -> lerpColor from to (lit 1) = to.
Proof.
  intros Hwf. unfold lerpColor, hexToRgb.
  pose proof (hexToRgb_int_range from) as Hf.
  pose proof (hexToRgb_int_range to) as Ht.
  destruct (hexToRgb_int from) as [[R1 G1] B1] eqn:Ef.
  destruct (hexToRgb_int to) as [[R2 G2] B2] eqn:Et.
  destruct Hf as (? & ? & ?). destruct Ht as (? & ? & ?).
  apply rgbToHex_of_channels; [assumption |]. rewrite Et. unfold of_int.
  now rewrite (proj2 (proj2 (exact R1 R2 ltac:(assumption) ltac:(assumption)))),
    (proj2 (proj2 (exact G1 G2 ltac:(assumption) ltac:(assumption)))),
    (proj2 (proj2 (exact B1 B2 ltac:(assumption) ltac:(assumption)))).
Qed.

End Colours.

(** ** Both number types are exact on channel values *)

Lemma Qround_half_up_int (x : Q) (a : Z) :
  (x == inject_Z a)%Q -> Qround_half_up x = a.
Proof.
  intros Hx. unfold Qround_half_up.
  rewrite (Qfloor_comp _ (inject_Z a + (1 # 2))%Q) by (rewrite Hx; reflexivity).
  pose proof (Qfloor_le (inject_Z a + (1 # 2))) as Hle.
  pose proof (Qlt_floor (inject_Z a + (1 # 2))) as Hlt.
  unfold Qle, Qlt in *. cbn in *. lia.
Qed.

Lemma Qtrunc_int (a : Z) : Qtrunc (inject_Z a) = a.
Proof. unfold Qtrunc. cbn. apply Z.quot_1_r. Qed.

Lemma ToInt32_round_int (x : Q) (a : Z) :
  (x == inject_Z a)%Q -> 0 <= a <= 255 -> ToInt32 (Math_round x) = a.
Proof.
  intros Hx Ha.
  change (ToInt32 (Math_round x))
    with (wrap32 (Qtrunc (inject_Z (Qround_half_up x)))).
  rewrite (Qround_half_up_int x a Hx), Qtrunc_int.
  apply wrap32_small. lia.
Qed.

(** Over the rationals [ToInt32(Math.round(x))] in 0..255 is the rounded
    value itself. *)
Lemma ToInt32_round_byte (x : Q) :
  0 <= Qround_half_up x <= 255 ->
  ToInt32 (Math_round x) = Qround_half_up x.
Proof.
  intros Hx.
  change (ToInt32 (Math_round x))
    with (wrap32 (Qtrunc (inject_Z (Qround_half_up x)))).
  rewrite Qtrunc_int. apply wrap32_small. lia.
Qed.

Lemma byte_exact_Q : byte_exact Q.
Proof.
  intros a b Ha Hb x y. subst x y.
  repeat split; apply ToInt32_round_int; try assumption; cbn; ring.
Qed.

Lemma bytes_complete (a : Z) : 0 <= a <= 255 -> In a bytes.
Proof.
  intros Ha. unfold bytes. rewrite <- (Z2Nat.id a) by lia.
  apply in_map, in_seq. lia.
Qed.

Lemma sf_eqb_eq (x y : SpecFloat.spec_float) : sf_eqb x y = true -> x = y.
Proof.
  destruct x as [s | s | | s m e], y as [s' | s' | | s' m' e'];
    cbn; try discriminate; intros H.
  - now rewrite (Bool.eqb_prop _ _ H).
  - now rewrite (Bool.eqb_prop _ _ H).
  - reflexivity.
  - apply andb_prop in H. destruct H as [H He].
    apply andb_prop in H. destruct H as [Hs Hm].
    apply Bool.eqb_prop in Hs. apply Pos.eqb_eq in Hm. apply Z.eqb_eq in He.
    now subst.
Qed.

Lemma to_Q_decoded (x y : PrimFloat.float) :
  FloatOps.Prim2SF x = FloatOps.Prim2SF y -> F64.to_Q x = F64.to_Q y.
Proof. intros H. unfold F64.to_Q. now rewrite H. Qed.

Lemma to_int32_round (x : PrimFloat.float) :
  F64.to_int32 (F64.round x) = int32_of_rounded (F64.to_Q x).
Proof.
  unfold F64.round, int32_of_rounded.
  destruct (F64.to_Q x) as [q |] eqn:E.
  - destruct (Qle_bool 4503599627370496 (Qabs q)).
    + unfold F64.to_int32. now rewrite E.
    + destruct (Qround_half_up q =? 0)%Z; [| reflexivity].
      destruct (PrimFloat.get_sign x); reflexivity.
  - unfold F64.to_int32. now rewrite E.
Qed.

(** The 256 bytes and the 65536 pairs of bytes, by evaluation. *)
Lemma byte_rounds_all : forallb byte_rounds bytes = true.
Proof. vm_cast_no_check (eq_refl true). Qed.

Lemma byte_ends_all :
  forallb (fun a => forallb (byte_ends a) bytes) bytes = true.
Proof. vm_cast_no_check (eq_refl true). Qed.

Lemma byte_exact_F64 : byte_exact PrimFloat.float.
Proof.
  intros a b Ha Hb x y.
  assert (Hround : forall c, 0 <= c <= 255 ->
            ToInt32 (Math_round (lit (inject_Z c) : PrimFloat.float)) = c).
  { intros c Hc. pose proof byte_rounds_all as H.
    rewrite forallb_forall in H. specialize (H c (bytes_complete c Hc)).
    now apply Z.eqb_eq. }
  pose proof byte_ends_all as Hall.
  rewrite forallb_forall in Hall.
  specialize (Hall a (bytes_complete a Ha)).
  rewrite forallb_forall in Hall.
  specialize (Hall b (bytes_complete b Hb)).
  unfold byte_ends in Hall. fold x y in Hall.
  apply andb_prop in Hall. destruct Hall as [H0 H1].
  apply sf_eqb_eq, to_Q_decoded in H0. apply sf_eqb_eq, to_Q_decoded in H1.
  split; [apply Hround; assumption |].
  change (F64.to_int32 (F64.round (x + (y - x) * lit 0)%js) = a
          /\ F64.to_int32 (F64.round (x + (y - x) * lit 1)%js) = b).
  rewrite !to_int32_round, H0, H1, <- !to_int32_round.
  split; apply Hround; assumption.
Qed.

End JSFacts.

(* ================================================================= *)
(** * Facts about the loop, for any number type and either file *)
(* ================================================================= *)

Module LoopFacts.
Section LoopFacts.

Import Loop.

Context {num : Type} {NUM : Number num}.
Variable Config : Type.
Variable CONFIGS : list Config.
Variable initialProps : Config.
Variable TRANSITION_DURATION : num.
Variable easeOutCubic : num -> num.
Variable newProps : Config -> Config -> num -> Config.

Abbreviation State := (Loop.State num Config).
Abbreviation Closure := (Loop.Closure num Config).
Abbreviation step :=
  (Loop.step Config TRANSITION_DURATION easeOutCubic newProps).
Abbreviation animateTo := (@Loop.animateTo num Config).
Abbreviation cleanup := (@Loop.cleanup num Config).
Abbreviation dispatch :=
  (Loop.dispatch Config CONFIGS TRANSITION_DURATION easeOutCubic newProps).
Abbreviation run :=
  (Loop.run Config CONFIGS TRANSITION_DURATION easeOutCubic newProps).
Abbreviation reachable :=
  (Loop.reachable Config CONFIGS initialProps TRANSITION_DURATION
                  easeOutCubic newProps).
Abbreviation mount := (@Loop.mount num Config initialProps).
Abbreviation rawT_of := (Loop.rawT_of Config TRANSITION_DURATION).
Abbreviation props_of :=
  (Loop.props_of Config TRANSITION_DURATION easeOutCubic newProps).
Abbreviation cancelled := (@Loop.cancelled num Config).
Abbreviation inv := (@Loop.inv num Config CONFIGS).
Abbreviation inv_pending := (@Loop.inv_pending num Config CONFIGS).
Abbreviation inv_unmounted := (@Loop.inv_unmounted num Config CONFIGS).
Abbreviation inv_mirror := (@Loop.inv_mirror num Config CONFIGS).


(** ** What one call of [step] does *)

Lemma step_props (cl : Closure) (now : num) (st : State) :
  gradientProps _ (step cl now st) = props_of cl now /\
  currentRef _ (step cl now st) = props_of cl now.
Proof.
  unfold Loop.step. fold (rawT_of cl now). fold (props_of cl now).
  destruct (rawT_of cl now <? lit 1)%js; cbn; auto.
Qed.

Lemma step_running (cl : Closure) (now : num) (st : State) :
  (rawT_of cl now <? lit 1)%js = true ->
  callbacks _ (step cl now st)
    = callbacks _ st ++ [(N.succ (lastHandle _ st), cl)] /\
  animFrameRef _ (step cl now st) = N.succ (lastHandle _ st).
Proof.
  intros Hlt. unfold Loop.step. fold (rawT_of cl now). rewrite Hlt.
  cbn. auto.
Qed.

Lemma step_finished (cl : Closure) (now : num) (st : State) :
  (rawT_of cl now <? lit 1)%js = false ->
  callbacks _ (step cl now st) = callbacks _ st /\
  animFrameRef _ (step cl now st) = 0%N /\
  lastHandle _ (step cl now st) = lastHandle _ st.
Proof.
  intros Hlt. unfold Loop.step. fold (rawT_of cl now). rewrite Hlt.
  cbn. auto.
Qed.

Lemma step_listening (cl : Closure) (now : num) (st : State) :
  listening _ (step cl now st) = listening _ st.
Proof.
  unfold Loop.step.
  destruct (Math_min _ _ <? lit 1)%js; reflexivity.
Qed.


Lemma cancel_pending (st : State) :
  inv st ->
  callbacks _ (cancelAnimationFrame _ (animFrameRef _ st) st) = [].
Proof.
  intros [[Hnil | (cl & Hcb & _)] _ _]; unfold cancelAnimationFrame; cbn.
  - rewrite Hnil. reflexivity.
  - rewrite Hcb. cbn. rewrite N.eqb_refl. reflexivity.
Qed.

Lemma idle_no_callback (st : State) :
  inv st -> animFrameRef _ st = 0%N -> callbacks _ st = [].
Proof.
  intros [[Hnil | (cl & _ & Hnz & _)] _ _] H0; [assumption | contradiction].
Qed.


Lemma cancelled_callbacks (st : State) :
  inv st -> callbacks _ (cancelled st) = [].
Proof.
  intros Hinv. unfold cancelled.
  destruct (N.eqb_spec (animFrameRef _ st) 0) as [H0 | Hnz]; cbn.
  - now apply idle_no_callback.
  - now apply cancel_pending.
Qed.

Lemma cancelled_fields (st : State) :
  currentRef _ (cancelled st) = currentRef _ st /\
  gradientProps _ (cancelled st) = gradientProps _ st /\
  lastHandle _ (cancelled st) = lastHandle _ st /\
  listening _ (cancelled st) = listening _ st.
Proof.
  unfold cancelled.
  destruct (negb _); cbn; auto.
Qed.

Lemma animateTo_spec (tgt : Config) (perfNow : num) (st : State) :
  inv st ->
  let st' := animateTo tgt perfNow st in
  callbacks _ st'
    = [(animFrameRef _ st', mkClosure (currentRef _ st) tgt perfNow)] /\
  animFrameRef _ st' = N.succ (lastHandle _ st) /\
  currentRef _ st' = currentRef _ st /\
  gradientProps _ st' = gradientProps _ st /\
  listening _ st' = listening _ st.
Proof.
  intros Hinv. unfold Loop.animateTo. fold (cancelled st).
  pose proof (cancelled_callbacks st Hinv) as Hcb.
  destruct (cancelled_fields st) as (Hcur & Hgp & Hlast & Hlis).
  cbn. rewrite Hcb, Hcur, Hgp, Hlast, Hlis. cbn. auto.
Qed.

Lemma cleanup_spec (st : State) :
  inv st ->
  callbacks _ (cleanup st) = [] /\
  listening _ (cleanup st) = false /\
  currentRef _ (cleanup st) = currentRef _ st /\
  gradientProps _ (cleanup st) = gradientProps _ st.
Proof.
  intros Hinv. unfold Loop.cleanup. cbn.
  destruct (N.eqb_spec (animFrameRef _ st) 0) as [H0 | Hnz]; cbn.
  - repeat split. now apply idle_no_callback.
  - repeat split.
    pose proof (cancel_pending st Hinv) as Hc.
    unfold cancelAnimationFrame in *. cbn in *. exact Hc.
Qed.

(** A frame with one pending callback runs [step] on it, after the
    browser has taken it off the list. *)
Lemma frame_runs_step (st : State) (cl : Closure) (now : num) :
  callbacks _ st = [(animFrameRef _ st, cl)] ->
  runFrameCallbacks Config TRANSITION_DURATION easeOutCubic newProps now st
    = step cl now (set_callbacks _ [] st).
Proof.
  intros Hcb. unfold runFrameCallbacks. rewrite Hcb. cbn.
  unfold invoke. rewrite Hcb. cbn. rewrite N.eqb_refl.
  unfold cancelAnimationFrame. rewrite Hcb. cbn.
  rewrite N.eqb_refl. reflexivity.
Qed.

Lemma frame_idle (st : State) (now : num) :
  callbacks _ st = [] ->
  runFrameCallbacks Config TRANSITION_DURATION easeOutCubic newProps now st
    = st.
Proof.
  intros Hcb. unfold runFrameCallbacks. rewrite Hcb. reflexivity.
Qed.

Lemma inv_mount (h0 : N) : inv (mount h0).
Proof.
  split; cbn; auto.
Qed.

Lemma config_at_In (zoneIndex : num) (config : Config) :
  config_at Config CONFIGS zoneIndex = Some config -> In config CONFIGS.
Proof.
  unfold config_at. destruct (ToIndex zoneIndex); [| discriminate].
  apply nth_error_In.
Qed.

Lemma inv_animateTo (tgt : Config) (perfNow : num) (st : State) :
  inv st -> listening _ st = true -> In tgt CONFIGS ->
  inv (animateTo tgt perfNow st).
Proof.
  intros Hinv Hlis Hin.
  destruct (animateTo_spec tgt perfNow st Hinv)
    as (Hcb & Href & Hcur & Hgp & Hlis').
  split.
  - right. eexists. split; [exact Hcb |]. split; [| exact Hin].
    rewrite Href. apply N.neq_succ_0.
  - rewrite Hlis', Hlis. discriminate.
  - rewrite Hcur, Hgp. apply (inv_mirror st Hinv).
Qed.

Lemma inv_step (cl : Closure) (now : num) (st : State) :
  callbacks _ st = [] -> listening _ st = true -> In (target _ cl) CONFIGS ->
  inv (step cl now st).
Proof.
  intros Hcb Hlis Hin.
  destruct (step_props cl now st) as (Hgp & Hcur).
  split.
  - destruct (rawT_of cl now <? lit 1)%js eqn:Hlt.
    + destruct (step_running cl now st Hlt) as (Hcb' & Href).
      right. exists cl. rewrite Hcb', Href, Hcb. cbn.
      split; [reflexivity |]. split; [apply N.neq_succ_0 | exact Hin].
    + destruct (step_finished cl now st Hlt) as (Hcb' & _).
      left. now rewrite Hcb'.
  - rewrite step_listening, Hlis. discriminate.
  - now rewrite Hgp, Hcur.
Qed.

Lemma inv_dispatch (ev : Event num) (st : State) :
  inv st -> inv (dispatch ev st).
Proof.
  intros Hinv. destruct ev as [zoneIndex perfNow | now | | ]; cbn.
  - destruct (listening _ st) eqn:Hlis; [| assumption].
    unfold handleTransition.
    destruct (config_at _ _ zoneIndex) as [config |] eqn:Hc;
      [| assumption].
    apply inv_animateTo; auto. eapply config_at_In; eauto.
  - destruct (inv_pending st Hinv) as [Hnil | (cl & Hcb & Hnz & Hin)].
    + now rewrite frame_idle.
    + rewrite (frame_runs_step st cl now Hcb).
      apply inv_step; cbn; auto.
      destruct (listening _ st) eqn:Hlis; [reflexivity |].
      rewrite (inv_unmounted st Hinv Hlis) in Hcb. discriminate.
  - destruct Hinv as [Hp Hu Hm]. split; cbn; auto.
  - destruct (listening _ st) eqn:Hlis; [| assumption].
    destruct (cleanup_spec st Hinv) as (Hcb & Hl & Hcur & Hgp).
    split.
    + now left.
    + auto.
    + rewrite Hcur, Hgp. apply (inv_mirror st Hinv).
Qed.

Lemma inv_reachable (st : State) : reachable st -> inv st.
Proof.
  induction 1 as [h0 | st ev _ IH].
  - apply inv_mount.
  - now apply inv_dispatch.
Qed.

Lemma run_app (evs1 evs2 : list (Event num)) (st : State) :
  run (evs1 ++ evs2) st = run evs2 (run evs1 st).
Proof.
  unfold Loop.run. apply fold_left_app.
Qed.

Lemma reachable_run (evs : list (Event num)) (st : State) :
  reachable st -> reachable (run evs st).
Proof.
  revert st. induction evs as [| ev evs IH]; intros st Hst; cbn.
  - exact Hst.
  - apply IH. now constructor.
Qed.

Lemma inv_run (h0 : N) (evs : list (Event num)) : inv (run evs (mount h0)).
Proof.
  apply inv_reachable, reachable_run. constructor.
Qed.

(** ** A transition, frame by frame *)

(** While [rawT < 1] the closure scheduled by [animateTo] is rescheduled
    unchanged by every frame. *)
Lemma frames_keep_closure (cl : Closure) (frames : list num) (st : State) :
  callbacks _ st = [(animFrameRef _ st, cl)] ->
  Forall (fun now => (rawT_of cl now <? lit 1)%js = true) frames ->
  let st' := run (map AnimationFrame frames) st in
  callbacks _ st' = [(animFrameRef _ st', cl)] /\
  listening _ st' = listening _ st.
Proof.
  intros Hcb Hrun. revert st Hcb.
  induction Hrun as [| now frames Hnow _ IH]; intros st Hcb; cbn.
  - auto.
  - rewrite (frame_runs_step st cl now Hcb).
    destruct (step_running cl now (set_callbacks _ [] st) Hnow)
      as (Hcb' & Href).
    cbn in Hcb', Href.
    specialize (IH (step cl now (set_callbacks _ [] st))).
    cbn zeta in IH. rewrite step_listening in IH.
    cbn [listening set_callbacks] in IH.
    apply IH. rewrite Hcb', Href. reflexivity.
Qed.

(** The frame at timestamp [now] of a transition whose earlier frames
    were all before the end. *)
Lemma transition_frame (st : State) (tgt : Config) (perfNow : num)
    (frames : list num) (now : num) :
  inv st ->
  let cl := mkClosure (currentRef _ st) tgt perfNow in
  Forall (fun f => (rawT_of cl f <? lit 1)%js = true) frames ->
  let st' :=
    run (map AnimationFrame frames ++ [AnimationFrame now])
        (animateTo tgt perfNow st) in
  gradientProps _ st' = props_of cl now /\
  currentRef _ st' = props_of cl now /\
  ((rawT_of cl now <? lit 1)%js = true ->
   callbacks _ st' = [(animFrameRef _ st', cl)]) /\
  ((rawT_of cl now <? lit 1)%js = false ->
   callbacks _ st' = [] /\ animFrameRef _ st' = 0%N /\
   forall now', dispatch (AnimationFrame now') st' = st').
Proof.
  intros Hinv cl Hrun st'.
  destruct (animateTo_spec tgt perfNow st Hinv) as (Hcb & _).
  fold cl in Hcb.
  destruct (frames_keep_closure cl frames _ Hcb Hrun) as (Hcb1 & _).
  subst st'. rewrite run_app.
  set (st1 := run (map AnimationFrame frames) (animateTo tgt perfNow st)) in *.
  cbn [Loop.run fold_left Loop.dispatch].
  rewrite (frame_runs_step st1 cl now Hcb1).
  destruct (step_props cl now (set_callbacks _ [] st1)) as (Hgp & Hcur).
  repeat split; try assumption.
  - intros Hlt.
    destruct (step_running cl now (set_callbacks _ [] st1) Hlt) as (Hc & Hr).
    rewrite Hc, Hr. reflexivity.
  - apply (step_finished cl now (set_callbacks _ [] st1) H).
  - apply (step_finished cl now (set_callbacks _ [] st1) H).
  - intros now'. cbn [Loop.dispatch]. apply frame_idle.
    apply (step_finished cl now (set_callbacks _ [] st1) H).
Qed.

(** The same, from the event that starts the transition. *)
Lemma transition_result (st : State) (zoneIndex perfNow : num)
    (config : Config) (frames : list num) (now : num) :
  inv st ->
  listening _ st = true ->
  config_at Config CONFIGS zoneIndex = Some config ->
  Forall (fun f => running TRANSITION_DURATION perfNow f = true) frames ->
  let cl := mkClosure (currentRef _ st) config perfNow in
  let st' := run (transition zoneIndex perfNow frames now) st in
  gradientProps _ st' = props_of cl now /\
  currentRef _ st' = props_of cl now /\
  (running TRANSITION_DURATION perfNow now = true ->
   callbacks _ st' = [(animFrameRef _ st', cl)]) /\
  (running TRANSITION_DURATION perfNow now = false ->
   callbacks _ st' = [] /\ animFrameRef _ st' = 0%N /\
   forall now', dispatch (AnimationFrame now') st' = st').
Proof.
  intros Hinv Hlis Hcfg Hrun cl st'. subst st'.
  unfold transition. cbn [Loop.run fold_left Loop.dispatch].
  rewrite Hlis. unfold handleTransition. rewrite Hcfg.
  apply (transition_frame st config perfNow frames now Hinv Hrun).
Qed.

End LoopFacts.
End LoopFacts.

(* ================================================================= *)
(** * Exact arithmetic *)
(* ================================================================= *)

Module ExactFacts.

Local Open Scope Q_scope.

Lemma Qsqr_nonneg (x : Q) : 0 <= x * x.
Proof.
  destruct (Qlt_le_dec x 0).
  - setoid_replace (x * x) with ((- x) * (- x)) by ring.
    apply Qmult_le_0_compat; lra.
  - apply Qmult_le_0_compat; lra.
Qed.

Lemma cube_unit (u : Q) : 0 <= u <= 1 -> 0 <= u * u * u <= 1.
Proof.
  intros [H0 H1].
  assert (0 <= u * u) by nra.
  assert (u * u <= 1) by nra.
  split; nra.
Qed.

Lemma cube_mono (u v : Q) : u <= v -> u * u * u <= v * v * v.
Proof.
  intros H.
  assert (0 <= (v - u) * (u * u + u * v + v * v)).
  { apply Qmult_le_0_compat; [lra |].
    pose proof (Qsqr_nonneg (2 * u + v)). pose proof (Qsqr_nonneg v). lra. }
  nra.
Qed.

Lemma easeOutCubic_cube (t : Q) :
  GradientBackground.easeOutCubic t == 1 - (1 - t) * (1 - t) * (1 - t).
Proof. unfold GradientBackground.easeOutCubic. cbn. ring. Qed.

Lemma easeOutCubic_range (t : Q) :
  0 <= t <= 1 -> 0 <= GradientBackground.easeOutCubic t <= 1.
Proof.
  intros H. rewrite easeOutCubic_cube.
  pose proof (cube_unit (1 - t) ltac:(lra)). lra.
Qed.

Lemma easeOutCubic_mono (x y : Q) :
  x <= y ->
  GradientBackground.easeOutCubic x <= GradientBackground.easeOutCubic y.
Proof.
  intros H. rewrite !easeOutCubic_cube.
  pose proof (cube_mono (1 - y) (1 - x) ltac:(lra)). lra.
Qed.

Lemma easeOutCubic_one (t : Q) :
  t == 1 -> GradientBackground.easeOutCubic t == 1.
Proof. intros H. rewrite easeOutCubic_cube, H. ring. Qed.

Lemma lerp_between (a b t : Q) :
  0 <= t <= 1 ->
  Qmin a b <= GradientBackground.lerp a b t <= Qmax a b.
Proof.
  intros Ht. unfold GradientBackground.lerp. cbn.
  destruct (Qlt_le_dec a b).
  - rewrite Q.min_l, Q.max_r by lra. split; nra.
  - rewrite Q.min_r, Q.max_l by lra. split; nra.
Qed.

Lemma lerp_one (a b t : Q) : t == 1 -> GradientBackground.lerp a b t == b.
Proof. intros H. unfold GradientBackground.lerp. cbn. rewrite H. ring. Qed.

Lemma Qltb_true (x y : Q) : Qltb x y = true <-> x < y.
Proof.
  unfold Qltb. rewrite negb_true_iff, <- not_true_iff_false, Qle_bool_iff.
  split; [apply Qnot_le_lt | apply Qlt_not_le].
Qed.

Lemma Qltb_false (x y : Q) : Qltb x y = false <-> y <= x.
Proof. unfold Qltb. rewrite negb_false_iff. apply Qle_bool_iff. Qed.

(** [rawT] as a function of the elapsed time. *)
Lemma rawT_done (e : Q) : 700 <= e -> Qmin (e / 700) 1 == 1.
Proof. intros H. apply Q.min_r. apply Qle_shift_div_l; lra. Qed.

Lemma rawT_range (e : Q) : 0 <= e -> 0 <= Qmin (e / 700) 1 <= 1.
Proof.
  intros H. split.
  - apply Q.min_glb; [| lra]. apply Qle_shift_div_l; lra.
  - apply Q.le_min_r.
Qed.

Lemma running_iff (perfNow now : Q) :
  Loop.running (lit 700) perfNow now = true <-> now - perfNow < 700.
Proof.
  unfold Loop.running. cbn. rewrite Qltb_true. split; intros H.
  - destruct (Qlt_le_dec (now - perfNow) 700) as [Hlt | Hge]; [assumption |].
    rewrite (rawT_done _ Hge) in H. lra.
  - apply Qle_lt_trans with ((now - perfNow) / 700); [apply Q.le_min_l |].
    apply Qlt_shift_div_r; lra.
Qed.

(** ** Array indices *)

Lemma Qindex_int (z : Z) :
  (0 <= z < 4294967295)%Z -> Qindex (inject_Z z) = Some (Z.to_nat z).
Proof.
  intros Hz. unfold Qindex, Qis_integer, Qtrunc. cbn.
  rewrite Z.mod_1_r, Z.quot_1_r. cbn.
  destruct (Z.leb_spec 0 z); [| lia].
  destruct (Z.ltb_spec z 4294967295); [| lia]. reflexivity.
Qed.

Lemma Qindex_Some (q : Q) (n : nat) :
  Qindex q = Some n -> q == inject_Z (Z.of_nat n).
Proof.
  unfold Qindex, Qis_integer, Qtrunc. destruct q as [a b]. cbn.
  destruct (Z.eqb_spec (a mod Z.pos b) 0) as [Hmod | _]; [| discriminate].
  destruct (Z.leb_spec 0 (a ÷ Z.pos b)) as [Hge | _]; [| discriminate].
  destruct (Z.ltb_spec (a ÷ Z.pos b) 4294967295); [| discriminate].
  cbn. intros [= <-]. rewrite Z2Nat.id by assumption.
  apply Z.mod_divide in Hmod; [| lia]. destruct Hmod as [k ->].
  rewrite Z.quot_mul by lia. unfold Qeq. cbn. lia.
Qed.

Lemma Qindex_of_int (q : Q) (z : Z) :
  q == inject_Z z -> (0 <= z < 4294967295)%Z ->
  Qindex q = Some (Z.to_nat z).
Proof.
  intros Hq Hz. unfold Qindex, Qis_integer, Qtrunc.
  destruct q as [a b]. unfold Qeq in Hq. cbn in *.
  assert (Ha : a = (z * Z.pos b)%Z) by lia. subst a.
  rewrite Z.mod_mul, Z.quot_mul by lia. cbn.
  destruct (Z.leb_spec 0 z); [| lia].
  destruct (Z.ltb_spec z 4294967295); [| lia]. reflexivity.
Qed.

End ExactFacts.

(* ================================================================= *)
(** * Facts about the two files *)
(* ================================================================= *)

Module VariantFacts.
Section VariantFacts.

Context {num : Type} {NUM : Number num}.

Import Loop.

(** ** [GradientBackground.tsx] *)

Lemma get_newProps_over (unset : num)
    (from target : GradientBackground.ZoneConfig num) (t : num)
    (key : GradientBackground.NumericKey) :
  GradientBackground.get key
    (GradientBackground.newProps_over unset from target t)
  = GradientBackground.lerp (GradientBackground.get key from)
      (GradientBackground.get key target) t.
Proof. destruct key; reflexivity. Qed.

(** The loop over [numericKeys] leaves no property unassigned. *)
Lemma newProps_unset_irrelevant (u1 u2 : num)
    (from target : GradientBackground.ZoneConfig num) (t : num) :
  GradientBackground.newProps_over u1 from target t
  = GradientBackground.newProps_over u2 from target t.
Proof. reflexivity. Qed.

Lemma get_newProps (from target : GradientBackground.ZoneConfig num)
    (t : num) (key : GradientBackground.NumericKey) :
  GradientBackground.get key (GradientBackground.newProps from target t)
  = GradientBackground.lerp (GradientBackground.get key from)
      (GradientBackground.get key target) t.
Proof. apply get_newProps_over. Qed.

Lemma rendered_get (key : GradientBackground.NumericKey)
    (st : GradientBackground.State num) :
  GradientBackground.rendered key (GradientBackground.render st)
  = GradientBackground.get key (gradientProps _ st).
Proof. destruct key; reflexivity. Qed.

Lemma ZONE_CONFIGS_length :
  length (GradientBackground.ZONE_CONFIGS (num := num)) = 5%nat.
Proof. reflexivity. Qed.

(** ** [part_000] *)

Lemma SECTION_CONFIGS_length :
  length (Part000.SECTION_CONFIGS (num := num)) = 5%nat.
Proof. reflexivity. Qed.

Lemma SECTION_CONFIGS_wellFormed (c : Part000.SectionConfig num) :
  In c Part000.SECTION_CONFIGS ->
  Part000.wellFormedHex (Part000.color1 c) = true /\
  Part000.wellFormedHex (Part000.color2 c) = true /\
  Part000.wellFormedHex (Part000.color3 c) = true.
Proof.
  intros Hin. cbn in Hin.
  repeat (destruct Hin as [<- | Hin]; [repeat split; reflexivity |]).
  contradiction.
Qed.

(** ** The invariant and a transition's frames, per file *)

Lemma zone_inv (h0 : N) (evs : list (Event num)) :
  inv _ GradientBackground.ZONE_CONFIGS
    (GradientBackground.run evs (GradientBackground.mount h0)).
Proof. apply LoopFacts.inv_run. Qed.

Lemma section_inv (h0 : N) (evs : list (Event num)) :
  inv _ Part000.SECTION_CONFIGS (Part000.run evs (Part000.mount h0)).
Proof. apply LoopFacts.inv_run. Qed.

(** The two files define the same helpers. *)
Lemma lerp_same (a b t : num) :
  Part000.lerp a b t = GradientBackground.lerp a b t.
Proof. reflexivity. Qed.

Lemma easeOutCubic_same (t : num) :
  Part000.easeOutCubic t = GradientBackground.easeOutCubic t.
Proof. reflexivity. Qed.

End VariantFacts.

Abbreviation zone_transition :=
  (LoopFacts.transition_result (GradientBackground.ZoneConfig _)
     GradientBackground.ZONE_CONFIGS GradientBackground.TRANSITION_DURATION
     GradientBackground.easeOutCubic GradientBackground.newProps).

Abbreviation section_transition :=
  (LoopFacts.transition_result (Part000.SectionConfig _)
     Part000.SECTION_CONFIGS Part000.TRANSITION_DURATION
     Part000.easeOutCubic Part000.newProps).

(** ** Colours at the end of a transition, in exact arithmetic *)

Lemma lerpColor_end (from to : string) (t : Q) :
  (t == 1)%Q -> Part000.wellFormedHex to = true ->
  Part000.lerpColor from to t = to.
Proof.
  intros Ht Hwf. unfold Part000.lerpColor, Part000.hexToRgb.
  pose proof (JSFacts.hexToRgb_int_range to) as Hr.
  destruct (Part000.hexToRgb_int from) as [[R1 G1] B1].
  destruct (Part000.hexToRgb_int to) as [[R2 G2] B2] eqn:Et.
  destruct Hr as (HR & HG & HB).
  apply JSFacts.rgbToHex_of_channels; [assumption |]. rewrite Et.
  unfold Part000.of_int.
  rewrite (JSFacts.ToInt32_round_int _ R2), (JSFacts.ToInt32_round_int _ G2),
    (JSFacts.ToInt32_round_int _ B2); try assumption; try reflexivity;
    cbn; rewrite Ht; ring.
Qed.

End VariantFacts.

(* ================================================================= *)
(** * Double arithmetic at the end of a transition *)
(* ================================================================= *)

(** Facts about [elapsed / 700] and [Math.min(_, 1)] in binary64, from
    the specification of the primitive operations ([SpecFloat],
    [FloatAxioms]): the quotient of a double that is at least 700 by 700
    is at least 1, so [rawT] is exactly 1. *)
Module DoubleFacts.

Import SpecFloat.

Local Open Scope Z_scope.

Abbreviation prec := FloatOps.prec.
Abbreviation emax := FloatOps.emax.

(** ** Number of binary digits *)

Lemma digits2_log2 (p : positive) :
  Zpos (digits2_pos p) = Z.log2 (Zpos p~0).
Proof.
  cbn [Z.log2]. f_equal.
Qed.

Lemma digits2_of_bounds (p : positive) (d : Z) :
  2 ^ (d - 1) <= Zpos p < 2 ^ d -> 1 <= d -> Zpos (digits2_pos p) = d.
Proof.
  intros Hp Hd. rewrite digits2_log2.
  apply Z.log2_unique; [lia |].
  change (Zpos p~0) with (2 * Zpos p).
  replace (d + 1) with (Z.succ d) by lia. rewrite Z.pow_succ_r by lia.
  replace d with (Z.succ (d - 1)) at 1 by lia.
  rewrite Z.pow_succ_r by lia. lia.
Qed.

Lemma bounds_of_digits2 (p : positive) (d : Z) :
  Zpos (digits2_pos p) = d -> 2 ^ (d - 1) <= Zpos p < 2 ^ d.
Proof.
  intros H. rewrite digits2_log2 in H.
  assert (Hd : 1 <= d) by (rewrite <- H; cbn; lia).
  pose proof (Z.log2_spec (Zpos p~0) ltac:(lia)) as Hs. rewrite H in Hs.
  change (Zpos p~0) with (2 * Zpos p) in Hs.
  replace (Z.succ d) with (Z.succ (Z.succ (d - 1))) in Hs by lia.
  replace d with (Z.succ (d - 1)) in Hs at 1 by lia.
  rewrite !Z.pow_succ_r in Hs by lia.
  replace d with (Z.succ (d - 1)) at 2 by lia.
  rewrite Z.pow_succ_r by lia. lia.
Qed.

(** ** Rounding a quotient of 53 or 54 digits *)

Lemma shr_record_m (m : Z) (l : location) :
  shr_m (shr_record_of_loc m l) = m.
Proof. destruct l as [| []]; reflexivity. Qed.

Lemma shr_1_half (mrs : shr_record) :
  2 <= shr_m mrs -> shr_m (shr_1 mrs) = shr_m mrs / 2.
Proof.
  destruct mrs as [m r s]. cbn [shr_m]. intros Hm.
  destruct m as [| [p | p |] | p]; try lia; cbn [shr_1 shr_m].
  - apply Z.div_unique with (r := 1); lia.
  - apply Z.div_unique with (r := 0); lia.
Qed.

Lemma round_nearest_even_bounds (m : Z) (l : location) :
  m <= round_nearest_even m l <= m + 1.
Proof.
  destruct l as [| []]; cbn; try lia. destruct (Z.even m); lia.
Qed.

Lemma shr_fexp_53 (m e : Z) (l : location) :
  2 ^ 52 <= m < 2 ^ 53 -> - 1074 <= e ->
  shr_fexp prec emax m e l = (shr_record_of_loc m l, e).
Proof.
  intros Hm He. unfold shr_fexp.
  destruct m as [| p | p]; try lia. cbn [Zdigits2].
  rewrite (digits2_of_bounds p 53) by (cbn; lia).
  replace (fexp prec emax (53 + e) - e) with 0; [reflexivity |].
  unfold fexp, emin, FloatOps.prec, FloatOps.emax. lia.
Qed.

Lemma shr_fexp_54 (m e : Z) (l : location) :
  2 ^ 53 <= m < 2 ^ 54 -> - 1075 <= e ->
  shr_fexp prec emax m e l = (shr_1 (shr_record_of_loc m l), e + 1).
Proof.
  intros Hm He. unfold shr_fexp.
  destruct m as [| p | p]; try lia. cbn [Zdigits2].
  rewrite (digits2_of_bounds p 54) by (cbn; lia).
  replace (fexp prec emax (54 + e) - e) with 1; [reflexivity |].
  unfold fexp, emin, FloatOps.prec, FloatOps.emax. lia.
Qed.

Lemma round_finish (m e : Z) :
  2 ^ 52 <= m <= 2 ^ 53 -> - 1074 <= e ->
  sf_at_least e
    (let '(mrs, e') := shr_fexp prec emax m e loc_Exact in
     match shr_m mrs with
     | Z0 => S754_zero false
     | Zpos p =>
         if e' <=? emax - prec then S754_finite false p e'
         else S754_infinity false
     | Zneg _ => S754_nan
     end).
Proof.
  intros Hm He.
  destruct (Z.eq_dec m (2 ^ 53)) as [-> | Hne].
  - rewrite shr_fexp_54 by lia. cbn [shr_record_of_loc shr_1 shr_m].
    change (2 ^ 53) with (Zpos (xO (Pos.pow 2 52))). cbn [shr_1 shr_m].
    destruct (e + 1 <=? emax - prec); [right | now left].
    eexists _, _. split; [reflexivity |]. split; [lia |]. reflexivity.
  - rewrite shr_fexp_53 by lia. cbn [shr_record_of_loc shr_m].
    destruct m as [| p | p]; try lia.
    destruct (e <=? emax - prec); [right | now left].
    exists p, e. split; [reflexivity |]. split; lia.
Qed.

Lemma sf_at_least_weaken (lo lo' : Z) (r : spec_float) :
  lo' <= lo -> sf_at_least lo r -> sf_at_least lo' r.
Proof.
  intros Hle [H | (m & e & H & He & Hm)]; [now left | right].
  exists m, e. split; [assumption |]. split; lia.
Qed.

Lemma binary_round_aux_53 (q e : Z) (l : location) :
  2 ^ 52 <= q < 2 ^ 53 -> - 1074 <= e ->
  sf_at_least e (binary_round_aux prec emax false q e l).
Proof.
  intros Hq He. unfold binary_round_aux. rewrite shr_fexp_53 by assumption.
  rewrite shr_record_m.
  pose proof (round_nearest_even_bounds q
                (loc_of_shr_record (shr_record_of_loc q l))) as Hr.
  apply round_finish; lia.
Qed.

Lemma binary_round_aux_54 (q e : Z) (l : location) :
  2 ^ 53 <= q < 2 ^ 54 -> - 1075 <= e ->
  sf_at_least (e + 1) (binary_round_aux prec emax false q e l).
Proof.
  intros Hq He. unfold binary_round_aux. rewrite shr_fexp_54 by assumption.
  set (mrs := shr_1 (shr_record_of_loc q l)).
  assert (Hh : shr_m mrs = q / 2)
    by (unfold mrs; rewrite shr_1_half; rewrite shr_record_m;
        [reflexivity | lia]).
  pose proof (round_nearest_even_bounds (shr_m mrs) (loc_of_shr_record mrs))
    as Hr.
  rewrite Hh in Hr.
  assert (2 ^ 52 <= q / 2 < 2 ^ 53).
  { split; [apply Z.div_le_lower_bound | apply Z.div_lt_upper_bound]; lia. }
  apply round_finish; rewrite ?Hh; lia.
Qed.

(** ** The quotient of a double that is at least 700 by 700 *)

Lemma normal_mantissa (m : positive) (e : Z) :
  bounded prec emax m e = true -> - 1074 < e ->
  Zpos (digits2_pos m) = 53.
Proof.
  unfold bounded, canonical_mantissa. intros H He.
  apply andb_prop in H. destruct H as [H _]. apply Z.eqb_eq in H.
  unfold fexp, emin, FloatOps.prec, FloatOps.emax in H. lia.
Qed.

Lemma SFdiv_core_700 (m : positive) (ex : Z) :
  Zpos (digits2_pos m) = 53 -> - 43 <= ex ->
  SFdiv_core_binary prec emax (Zpos m) ex 6157265115545600 (- 43)
  = ((Zpos m * 2 ^ 53) / 6157265115545600, ex - 10,
     new_location 6157265115545600
       ((Zpos m * 2 ^ 53) mod 6157265115545600)).
Proof.
  intros Hd He. unfold SFdiv_core_binary. cbv zeta. cbn [Zdigits2].
  rewrite Hd.
  replace (Zpos (digits2_pos 6157265115545600)) with 53 by reflexivity.
  replace (Z.min (fexp prec emax (53 + ex - (53 + - 43))) (ex - - 43))
    with (ex - 10)
    by (unfold fexp, emin, FloatOps.prec, FloatOps.emax; lia).
  replace (ex - - 43 - (ex - 10)) with 53 by lia.
  rewrite Z.shiftl_mul_pow2 by lia.
  unfold Z.div, Z.modulo.
  destruct (Z.div_eucl (Zpos m * 2 ^ 53) 6157265115545600); reflexivity.
Qed.

Lemma SFdiv_by_700 (m : positive) (ex : Z) :
  bounded prec emax m ex = true ->
  - 43 < ex \/ (ex = - 43 /\ 6157265115545600 <= Zpos m) ->
  sf_at_least (- 52)
    (SFdiv prec emax (S754_finite false m ex)
       (S754_finite false 6157265115545600 (- 43))).
Proof.
  intros Hb Hge.
  pose proof (normal_mantissa m ex Hb ltac:(lia)) as Hd.
  pose proof (bounds_of_digits2 m 53 Hd) as Hm.
  change (2 ^ (53 - 1)) with 4503599627370496 in Hm.
  change (2 ^ 53) with 9007199254740992 in Hm.
  unfold SFdiv. rewrite (SFdiv_core_700 m ex Hd) by lia. cbn [xorb].
  change (2 ^ 53) with 9007199254740992.
  set (q := (Zpos m * 9007199254740992) / 6157265115545600).
  pose proof (Z.div_mod (Zpos m * 9007199254740992) 6157265115545600
                ltac:(lia)) as Heq.
  pose proof (Z.mod_pos_bound (Zpos m * 9007199254740992) 6157265115545600
                ltac:(lia)) as Hr.
  fold q in Heq.
  set (r := (Zpos m * 9007199254740992) mod 6157265115545600) in *.
  assert (Hq : 4503599627370496 <= q < 18014398509481984) by lia.
  destruct (Z.lt_ge_cases q 9007199254740992) as [Hlo | Hhi].
  - assert (- 43 < ex) by lia.
    apply (sf_at_least_weaken (ex - 10)); [lia |].
    apply binary_round_aux_53; [| lia].
    change (2 ^ 52) with 4503599627370496.
    change (2 ^ 53) with 9007199254740992. lia.
  - apply (sf_at_least_weaken (ex - 10 + 1)); [lia |].
    apply binary_round_aux_54; [| lia].
    change (2 ^ 53) with 9007199254740992.
    change (2 ^ 54) with 18014398509481984. lia.
Qed.

(** ** Doubles *)

Lemma Prim2SF_700 :
  FloatOps.Prim2SF (lit 700)
  = S754_finite false 6157265115545600 (- 43).
Proof. vm_compute. reflexivity. Qed.

Lemma Prim2SF_1 :
  FloatOps.Prim2SF (lit 1) = S754_finite false 4503599627370496 (- 52).
Proof. vm_compute. reflexivity. Qed.

Lemma quotient_at_least_1 (e : PrimFloat.float) :
  PrimFloat.leb (lit 700) e = true ->
  sf_at_least (- 52) (FloatOps.Prim2SF (e / lit 700)%js).
Proof.
  intros H. rewrite FloatAxioms.leb_spec, Prim2SF_700 in H.
  change (e / lit 700)%js with (PrimFloat.div e (lit 700)).
  rewrite FloatAxioms.div_spec, Prim2SF_700.
  pose proof (FloatAxioms.Prim2SF_valid e) as Hv.
  destruct (FloatOps.Prim2SF e) as [s | s | | s m ex].
  - discriminate H.
  - destruct s; [discriminate H |]. left. reflexivity.
  - discriminate H.
  - destruct s; [discriminate H |].
    unfold FloatAxioms.SF64div. apply SFdiv_by_700; [exact Hv |].
    unfold SFleb, SFcompare in H.
    destruct (Z.compare_spec (- 43) ex) as [Heq | Hlt | Hgt].
    + right. split; [lia |].
      destruct (Pos.compare_cont Eq 6157265115545600 m) eqn:Hc;
        try discriminate H.
      * apply Pos.compare_eq in Hc. subst m. lia.
      * assert (Hlt : 6157265115545600 < Zpos m) by exact Hc. lia.
    + left. exact Hlt.
    + discriminate H.
Qed.

Lemma positive_double (q : PrimFloat.float) (lo : Z) :
  sf_at_least lo (FloatOps.Prim2SF q) ->
  PrimFloat.is_nan q = false /\ PrimFloat.get_sign q = false.
Proof.
  unfold FloatOps.Prim2SF.
  destruct (PrimFloat.is_nan q);
    [intros [H | (m & e & H & _)]; discriminate H |].
  destruct (PrimFloat.is_zero q);
    [intros [H | (m & e & H & _)]; discriminate H |].
  destruct (PrimFloat.is_infinity q).
  - intros [H | (m & e & H & _)]; [| discriminate H].
    injection H as H. auto.
  - destruct (FloatOps.Z.frexp q) as [r ex].
    destruct (shr_fexp _ _ _ _ _) as [mrs e'].
    destruct (shr_m mrs);
      intros [H | (m & e & H & _)]; try discriminate H.
    injection H as H _ _. auto.
Qed.

Lemma not_below_1 (q : PrimFloat.float) :
  sf_at_least (- 52) (FloatOps.Prim2SF q) -> PrimFloat.ltb q (lit 1) = false.
Proof.
  intros H. rewrite FloatAxioms.ltb_spec, Prim2SF_1.
  destruct H as [-> | (m & e & -> & He & Hm)]; [reflexivity |].
  unfold SFltb, SFcompare.
  destruct (Z.compare_spec e (- 52)) as [Heq | Hlt | Hgt];
    [| lia | reflexivity].
  destruct (Pos.compare_cont Eq m 4503599627370496) eqn:Hc; try reflexivity.
  assert (Hlt : Zpos m < 4503599627370496) by exact Hc.
  change (2 ^ 52) with 4503599627370496 in Hm. lia.
Qed.

(** [Math.min(q, 1)] for a [q] that is at least 1. *)
Lemma min_at_least_1 (q : PrimFloat.float) :
  sf_at_least (- 52) (FloatOps.Prim2SF q) -> Math_min q (lit 1) = lit 1.
Proof.
  intros H. destruct (positive_double q _ H) as (Hnan & Hsign).
  pose proof (not_below_1 q H) as Hlt.
  change (Math_min q (lit 1)) with (F64.min q (lit 1)). unfold F64.min.
  rewrite Hnan, Hlt, Hsign.
  change (PrimFloat.is_nan (lit 1)) with false. cbn [orb].
  destruct (PrimFloat.ltb (lit 1) q); reflexivity.
Qed.

(** Once the elapsed time, as [step] computes it, has reached 700, [rawT]
    is exactly 1 and the test [rawT < 1] fails. *)
Lemma rawT_clamped (perfNow now : PrimFloat.float) :
  PrimFloat.leb (lit 700) (now - perfNow)%js = true ->
  Math_min ((now - perfNow) / lit 700)%js (lit 1) = lit 1 /\
  Loop.running (lit 700) perfNow now = false.
Proof.
  intros H.
  pose proof (min_at_least_1 _ (quotient_at_least_1 _ H)) as Hmin.
  split; [exact Hmin |]. unfold Loop.running. rewrite Hmin.
  vm_compute. reflexivity.
Qed.

(** At [rawT = 1] the eased progress is exactly 1. *)
Lemma eased_one :
  GradientBackground.easeOutCubic (lit 1 : PrimFloat.float) = lit 1.
Proof. vm_compute. reflexivity. Qed.

End DoubleFacts.

(* ================================================================= *)
(** * Properties of the specification, C1 to C10 *)
(* ================================================================= *)

(** C1. At every frame of a transition (the earlier frames having come
    before its end), each numeric parameter passed to the renderer is
    [from + (target - from) * easeOutCubic(min(e / 700, 1))], where [e] is
    the frame's timestamp minus the start time, [from] the parameters
    current when the zone changed and [target] the selected zone's row.
    The numeric parameters are the thirteen keys of [GradientBackground.tsx]
    and [positionY] of [part_000]; the number type is arbitrary. *)
Theorem C1_rendered_parameters :
  forall (num : Type) (NUM : Number num)
         (h0 : N) (evs : list (Loop.Event num))
         (zoneIndex perfNow : num) (frames : list num) (now : num),
    (forall (config : GradientBackground.ZoneConfig num)
            (key : GradientBackground.NumericKey),
        let st := GradientBackground.run evs (GradientBackground.mount h0) in
        let from := Loop.currentRef _ st in
        Loop.listening _ st = true ->
        Loop.config_at _ GradientBackground.ZONE_CONFIGS zoneIndex
          = Some config ->
        Forall (fun f => Loop.running GradientBackground.TRANSITION_DURATION
                           perfNow f = true) frames ->
        GradientBackground.rendered key
          (GradientBackground.render
             (GradientBackground.run
                (Loop.transition zoneIndex perfNow frames now) st))
        = (GradientBackground.get key from
           + (GradientBackground.get key config
              - GradientBackground.get key from)
             * eased_progress (now - perfNow))%js)
    /\
    (forall (config : Part000.SectionConfig num),
        let st := Part000.run evs (Part000.mount h0) in
        let from := Loop.currentRef _ st in
        Loop.listening _ st = true ->
        Loop.config_at _ Part000.SECTION_CONFIGS zoneIndex = Some config ->
        Forall (fun f => Loop.running Part000.TRANSITION_DURATION
                           perfNow f = true) frames ->
        ShaderGradient.positionY
          (Part000.render
             (Part000.run (Loop.transition zoneIndex perfNow frames now) st))
        = (Part000.positionY from
           + (Part000.positionY config - Part000.positionY from)
             * eased_progress (now - perfNow))%js).
Proof.
  intros num NUM h0 evs zoneIndex perfNow frames now. split.
  - intros config key st from Hlis Hcfg Hrun.
    destruct (VariantFacts.zone_transition st zoneIndex perfNow config frames
                now (VariantFacts.zone_inv h0 evs) Hlis Hcfg Hrun)
      as (Hgp & _).
    rewrite VariantFacts.rendered_get.
    unfold GradientBackground.run. rewrite Hgp.
    unfold Loop.props_of. cbn [Loop.from Loop.target].
    rewrite VariantFacts.get_newProps. reflexivity.
  - intros config st from Hlis Hcfg Hrun.
    destruct (VariantFacts.section_transition st zoneIndex perfNow config
                frames now (VariantFacts.section_inv h0 evs) Hlis Hcfg Hrun)
      as (Hgp & _).
    unfold Part000.render. cbn [ShaderGradient.positionY].
    unfold Part000.run. rewrite Hgp. reflexivity.
Qed.

(** Zone 4 selected at time 0, frames at 16 ms and 350 ms, then the frame
    at 500 ms, in exact arithmetic, for both files. *)
Lemma C1_rendered_parameters_witness :
  GradientBackground.rendered GradientBackground.k_cameraZoom
    (GradientBackground.render
       (GradientBackground.run (num := Q)
          (Loop.transition 4 0 [16; 350] 500)%Q
          (GradientBackground.mount 0)))
  = (5.0 + (1 - 5.0) * eased_progress (500 - 0))%Q
  /\
  ShaderGradient.positionY
    (Part000.render
       (Part000.run (num := Q) (Loop.transition 4 0 [16; 350] 500)%Q
          (Part000.mount 0)))
  = (-1.8 + (1.8 - -1.8) * eased_progress (500 - 0))%Q.
Proof.
  split.
  - refine (proj1 (C1_rendered_parameters Q _ 0%N [] 4%Q 0%Q [16; 350]%Q
                     500%Q)
              (nth 4 GradientBackground.ZONE_CONFIGS
                   GradientBackground.initialProps)
              GradientBackground.k_cameraZoom _ _ _).
    + reflexivity.
    + reflexivity.
    + repeat constructor.
  - refine (proj2 (C1_rendered_parameters Q _ 0%N [] 4%Q 0%Q [16; 350]%Q
                     500%Q)
              (nth 4 Part000.SECTION_CONFIGS Part000.initialProps) _ _ _).
    + reflexivity.
    + reflexivity.
    + repeat constructor.
Defined.

(** C2, as stated, fails for [GradientBackground.tsx]: when zone 4 is
    selected the numeric parameters move (the camera zoom from 5 to 1)
    while the three colours passed to the renderer keep the same constant
    values before, during and after the transition. *)
Lemma C2_counterexample :
  let colours (p : ShaderGradient.Props Q) :=
    (ShaderGradient.color1 p, ShaderGradient.color2 p,
     ShaderGradient.color3 p) in
  let shown evs :=
    GradientBackground.render
      (GradientBackground.run evs (GradientBackground.mount 0)) in
  let change := Loop.GradientTransition 4%Q 0%Q in
  colours (shown []) = ("#7b2cbf", "#d17db8", "#e6d0de")%string /\
  colours (shown [change; Loop.AnimationFrame 350%Q])
    = colours (shown []) /\
  colours (shown [change; Loop.AnimationFrame 350%Q;
                  Loop.AnimationFrame 700%Q])
    = colours (shown []) /\
  (ShaderGradient.cameraZoom (shown []) == 5)%Q /\
  (ShaderGradient.cameraZoom (shown [change; Loop.AnimationFrame 350%Q])
     == 3 # 2)%Q /\
  (ShaderGradient.cameraZoom
     (shown [change; Loop.AnimationFrame 350%Q; Loop.AnimationFrame 700%Q])
     == 1)%Q.
Proof. repeat split; vm_compute; reflexivity. Qed.

(** C2, amended.  What [step] renders, for any number type, with
    [t = easeOutCubic(rawT)]:
    - [GradientBackground.tsx] interpolates its thirteen numeric
      parameters from the closure's [from] to its [target], switches
      [type] to the target's, and passes three constant colours and a
      constant [positionY];
    - [part_000] interpolates the three colours and [positionY], and
      passes constants for the camera angles, distance, zoom, [positionX],
      the rotations, [type] and the shader parameters. *)
Theorem C2_what_is_interpolated :
  forall (num : Type) (NUM : Number num),
    (forall (cl : GradientBackground.Closure num) (now : num)
            (st : GradientBackground.State num),
        let t := GradientBackground.easeOutCubic
                   (Loop.rawT_of _ GradientBackground.TRANSITION_DURATION
                      cl now) in
        let shown := GradientBackground.render
                       (GradientBackground.step cl now st) in
        (forall key,
            GradientBackground.rendered key shown
            = GradientBackground.lerp
                (GradientBackground.get key (Loop.from _ cl))
                (GradientBackground.get key (Loop.target _ cl)) t) /\
        ShaderGradient.type shown
          = GradientBackground.type (Loop.target _ cl) /\
        ShaderGradient.color1 shown = "#7b2cbf"%string /\
        ShaderGradient.color2 shown = "#d17db8"%string /\
        ShaderGradient.color3 shown = "#e6d0de"%string /\
        ShaderGradient.positionY shown = lit 0)
    /\
    (forall st : GradientBackground.State num,
        ShaderGradient.color1 (GradientBackground.render st)
          = "#7b2cbf"%string /\
        ShaderGradient.color2 (GradientBackground.render st)
          = "#d17db8"%string /\
        ShaderGradient.color3 (GradientBackground.render st)
          = "#e6d0de"%string)
    /\
    (forall (cl : Part000.Closure num) (now : num) (st : Part000.State num),
        let t := Part000.easeOutCubic
                   (Loop.rawT_of _ Part000.TRANSITION_DURATION cl now) in
        let from := Loop.from _ cl in
        let target := Loop.target _ cl in
        let shown := Part000.render (Part000.step cl now st) in
        ShaderGradient.color1 shown
          = Part000.lerpColor (Part000.color1 from) (Part000.color1 target) t /\
        ShaderGradient.color2 shown
          = Part000.lerpColor (Part000.color2 from) (Part000.color2 target) t /\
        ShaderGradient.color3 shown
          = Part000.lerpColor (Part000.color3 from) (Part000.color3 target) t /\
        ShaderGradient.positionY shown
          = Part000.lerp (Part000.positionY from)
              (Part000.positionY target) t /\
        ShaderGradient.cAzimuthAngle shown = lit 180 /\
        ShaderGradient.cPolarAngle shown = lit 90 /\
        ShaderGradient.cDistance shown = lit 3.6 /\
        ShaderGradient.cameraZoom shown = lit 2.3 /\
        ShaderGradient.positionX shown = lit (-2.9) /\
        ShaderGradient.rotationX shown = lit 0 /\
        ShaderGradient.rotationY shown = lit 10 /\
        ShaderGradient.rotationZ shown = lit 50 /\
        ShaderGradient.fov shown = lit 45 /\
        ShaderGradient.pixelDensity shown = lit 1.3 /\
        ShaderGradient.uDensity shown = lit 3 /\
        ShaderGradient.uSpeed shown = lit 0.1 /\
        ShaderGradient.uStrength shown = lit 3.8 /\
        ShaderGradient.type shown = ShaderGradient.sphere).
Proof.
  intros num NUM. split; [| split].
  - intros cl now st t shown.
    destruct (LoopFacts.step_props _ GradientBackground.TRANSITION_DURATION
                GradientBackground.easeOutCubic GradientBackground.newProps
                cl now st) as (Hgp & _).
    split; [| split].
    + intros key. unfold shown. rewrite VariantFacts.rendered_get.
      unfold GradientBackground.step. rewrite Hgp.
      apply VariantFacts.get_newProps.
    + unfold shown, GradientBackground.render, GradientBackground.step.
      cbn [ShaderGradient.type]. rewrite Hgp. reflexivity.
    + repeat split.
  - intros st. repeat split.
  - intros cl now st t from target shown.
    destruct (LoopFacts.step_props _ Part000.TRANSITION_DURATION
                Part000.easeOutCubic Part000.newProps cl now st)
      as (Hgp & _).
    unfold shown, Part000.render, Part000.step.
    cbn [ShaderGradient.color1 ShaderGradient.color2 ShaderGradient.color3
         ShaderGradient.positionY ShaderGradient.cAzimuthAngle
         ShaderGradient.cPolarAngle ShaderGradient.cDistance
         ShaderGradient.cameraZoom ShaderGradient.positionX
         ShaderGradient.rotationX ShaderGradient.rotationY
         ShaderGradient.rotationZ ShaderGradient.fov
         ShaderGradient.pixelDensity ShaderGradient.uDensity
         ShaderGradient.uSpeed ShaderGradient.uStrength ShaderGradient.type].
    rewrite Hgp. repeat split.
Qed.

(** C3, as stated, fails in double arithmetic.  [GradientBackground.tsx]
    shows zone 4, zone 0 is selected at 1000 ms and a frame arrives at
    1700 ms: the elapsed time is 700, [rawT < 1] is false, no frame is
    scheduled and [animFrameRef] is 0, but [uSpeed] ends at
    0x1.9999999999998p-4 (0.09999999999999998), not at the target
    0.1 = 0x1.999999999999ap-4. *)
Lemma C3_counterexample :
  let zone n := nth n (GradientBackground.ZONE_CONFIGS
                         (num := PrimFloat.float))
                      GradientBackground.initialProps in
  let at_zone4 :=
    GradientBackground.run (Loop.transition (lit 4) (lit 0) [] (lit 700))
      (GradientBackground.mount 0) in
  let done :=
    GradientBackground.run (Loop.transition (lit 0) (lit 1000) [] (lit 1700))
      at_zone4 in
  Loop.currentRef _ at_zone4 = zone 4%nat /\
  Loop.config_at _ GradientBackground.ZONE_CONFIGS
    (lit 0 : PrimFloat.float) = Some (zone 0%nat) /\
  PrimFloat.leb (lit 700) (lit 1700 - lit 1000)%js = true /\
  Loop.running GradientBackground.TRANSITION_DURATION
    (lit 1000 : PrimFloat.float) (lit 1700) = false /\
  Loop.callbacks _ done = [] /\
  Loop.animFrameRef _ done = 0%N /\
  GradientBackground.uSpeed (zone 0%nat) = Doubles.a_tenth /\
  GradientBackground.uSpeed (Loop.currentRef _ done)
    = Doubles.below_a_tenth /\
  PrimFloat.eqb (GradientBackground.uSpeed (Loop.currentRef _ done))
                (GradientBackground.uSpeed (zone 0%nat)) = false /\
  GradientBackground.uSpeed (Loop.currentRef _ done)
    <> GradientBackground.uSpeed (zone 0%nat).
Proof.
  repeat split; try (vm_compute; reflexivity).
  intros H.
  assert (E : PrimFloat.eqb
                (GradientBackground.uSpeed
                   (nth 0 (GradientBackground.ZONE_CONFIGS
                             (num := PrimFloat.float))
                        GradientBackground.initialProps))
                (GradientBackground.uSpeed
                   (nth 0 (GradientBackground.ZONE_CONFIGS
                             (num := PrimFloat.float))
                        GradientBackground.initialProps)) = false).
  { rewrite <- H at 1. vm_compute. reflexivity. }
  vm_compute in E. discriminate E.
Qed.

(** C3, amended.  A transition completes in 700 ms.  In the double
    arithmetic the code runs: once the elapsed time [now - startTime] that
    [step] computes is at least 700, [rawT] is exactly 1, the test
    [rawT < 1] fails, [step] schedules no further frame, [animFrameRef] is
    0, later frames change nothing, every interpolated colour is exactly
    the target's, and every interpolated number is
    [from + (target - from) * 1] as doubles evaluate it.  In exact
    arithmetic the same holds from an elapsed time of 700 on, and every
    parameter equals its target.  For any number type: when the frame at
    [now] finds [rawT < 1] false, [step] schedules no further frame,
    [animFrameRef] is 0, later frames change nothing, and every
    interpolated parameter is [lerp(from, target, easeOutCubic(rawT))]
    (colours likewise through [lerpColor]). *)
Theorem C3_completion :
  (forall (num : Type) (NUM : Number num)
          (h0 : N) (evs : list (Loop.Event num))
          (zoneIndex perfNow : num) (frames : list num) (now : num),
      (forall config : GradientBackground.ZoneConfig num,
          let st := GradientBackground.run evs (GradientBackground.mount h0) in
          let cl := Loop.mkClosure (Loop.currentRef _ st) config perfNow in
          let t := GradientBackground.easeOutCubic
                     (Loop.rawT_of _ GradientBackground.TRANSITION_DURATION
                        cl now) in
          Loop.listening _ st = true ->
          Loop.config_at _ GradientBackground.ZONE_CONFIGS zoneIndex
            = Some config ->
          Forall (fun f => Loop.running GradientBackground.TRANSITION_DURATION
                             perfNow f = true) frames ->
          Loop.running GradientBackground.TRANSITION_DURATION perfNow now
            = false ->
          let st' := GradientBackground.run
                       (Loop.transition zoneIndex perfNow frames now) st in
          Loop.callbacks _ st' = [] /\
          Loop.animFrameRef _ st' = 0%N /\
          (forall now',
              GradientBackground.dispatch (Loop.AnimationFrame now') st'
              = st') /\
          (forall key,
              GradientBackground.get key (Loop.currentRef _ st')
              = GradientBackground.lerp
                  (GradientBackground.get key (Loop.currentRef _ st))
                  (GradientBackground.get key config) t))
      /\
      (forall config : Part000.SectionConfig num,
          let st := Part000.run evs (Part000.mount h0) in
          let cl := Loop.mkClosure (Loop.currentRef _ st) config perfNow in
          let t := Part000.easeOutCubic
                     (Loop.rawT_of _ Part000.TRANSITION_DURATION cl now) in
          Loop.listening _ st = true ->
          Loop.config_at _ Part000.SECTION_CONFIGS zoneIndex = Some config ->
          Forall (fun f => Loop.running Part000.TRANSITION_DURATION
                             perfNow f = true) frames ->
          Loop.running Part000.TRANSITION_DURATION perfNow now = false ->
          let st' := Part000.run
                       (Loop.transition zoneIndex perfNow frames now) st in
          Loop.callbacks _ st' = [] /\
          Loop.animFrameRef _ st' = 0%N /\
          (forall now',
              Part000.dispatch (Loop.AnimationFrame now') st' = st') /\
          Loop.currentRef _ st'
          = Part000.newProps (Loop.currentRef _ st) config t))
  /\
  (forall (h0 : N) (evs : list (Loop.Event Q))
          (zoneIndex perfNow : Q) (frames : list Q) (now : Q),
      (forall config : GradientBackground.ZoneConfig Q,
          let st := GradientBackground.run evs (GradientBackground.mount h0) in
          Loop.listening _ st = true ->
          Loop.config_at _ GradientBackground.ZONE_CONFIGS zoneIndex
            = Some config ->
          Forall (fun f => Loop.running GradientBackground.TRANSITION_DURATION
                             perfNow f = true) frames ->
          (700 <= now - perfNow)%Q ->
          let st' := GradientBackground.run
                       (Loop.transition zoneIndex perfNow frames now) st in
          (Loop.rawT_of _ GradientBackground.TRANSITION_DURATION
             (Loop.mkClosure (Loop.currentRef _ st) config perfNow) now
           == 1)%Q /\
          Loop.running GradientBackground.TRANSITION_DURATION perfNow now
            = false /\
          Loop.callbacks _ st' = [] /\
          Loop.animFrameRef _ st' = 0%N /\
          (forall key,
              (GradientBackground.get key (Loop.currentRef _ st')
               == GradientBackground.get key config)%Q))
      /\
      (forall config : Part000.SectionConfig Q,
          let st := Part000.run evs (Part000.mount h0) in
          Loop.listening _ st = true ->
          Loop.config_at _ Part000.SECTION_CONFIGS zoneIndex = Some config ->
          Forall (fun f => Loop.running Part000.TRANSITION_DURATION
                             perfNow f = true) frames ->
          (700 <= now - perfNow)%Q ->
          let st' := Part000.run
                       (Loop.transition zoneIndex perfNow frames now) st in
          (Loop.rawT_of _ Part000.TRANSITION_DURATION
             (Loop.mkClosure (Loop.currentRef _ st) config perfNow) now
           == 1)%Q /\
          Loop.running Part000.TRANSITION_DURATION perfNow now = false /\
          Loop.callbacks _ st' = [] /\
          Loop.animFrameRef _ st' = 0%N /\
          Part000.color1 (Loop.currentRef _ st') = Part000.color1 config /\
          Part000.color2 (Loop.currentRef _ st') = Part000.color2 config /\
          Part000.color3 (Loop.currentRef _ st') = Part000.color3 config /\
          (Part000.positionY (Loop.currentRef _ st')
           == Part000.positionY config)%Q))
  /\
  (forall (h0 : N) (evs : list (Loop.Event PrimFloat.float))
          (zoneIndex perfNow : PrimFloat.float)
          (frames : list PrimFloat.float) (now : PrimFloat.float),
      (forall config : GradientBackground.ZoneConfig PrimFloat.float,
          let st := GradientBackground.run evs (GradientBackground.mount h0) in
          Loop.listening _ st = true ->
          Loop.config_at _ GradientBackground.ZONE_CONFIGS zoneIndex
            = Some config ->
          Forall (fun f => Loop.running GradientBackground.TRANSITION_DURATION
                             perfNow f = true) frames ->
          PrimFloat.leb GradientBackground.TRANSITION_DURATION
            (now - perfNow)%js = true ->
          let st' := GradientBackground.run
                       (Loop.transition zoneIndex perfNow frames now) st in
          Loop.rawT_of _ GradientBackground.TRANSITION_DURATION
            (Loop.mkClosure (Loop.currentRef _ st) config perfNow) now
          = lit 1 /\
          Loop.running GradientBackground.TRANSITION_DURATION perfNow now
            = false /\
          Loop.callbacks _ st' = [] /\
          Loop.animFrameRef _ st' = 0%N /\
          (forall now',
              GradientBackground.dispatch (Loop.AnimationFrame now') st'
              = st') /\
          (forall key,
              GradientBackground.get key (Loop.currentRef _ st')
              = GradientBackground.lerp
                  (GradientBackground.get key (Loop.currentRef _ st))
                  (GradientBackground.get key config) (lit 1)))
      /\
      (forall config : Part000.SectionConfig PrimFloat.float,
          let st := Part000.run evs (Part000.mount h0) in
          Loop.listening _ st = true ->
          Loop.config_at _ Part000.SECTION_CONFIGS zoneIndex = Some config ->
          Forall (fun f => Loop.running Part000.TRANSITION_DURATION
                             perfNow f = true) frames ->
          PrimFloat.leb Part000.TRANSITION_DURATION (now - perfNow)%js
            = true ->
          let st' := Part000.run
                       (Loop.transition zoneIndex perfNow frames now) st in
          Loop.rawT_of _ Part000.TRANSITION_DURATION
            (Loop.mkClosure (Loop.currentRef _ st) config perfNow) now
          = lit 1 /\
          Loop.running Part000.TRANSITION_DURATION perfNow now = false /\
          Loop.callbacks _ st' = [] /\
          Loop.animFrameRef _ st' = 0%N /\
          (forall now',
              Part000.dispatch (Loop.AnimationFrame now') st' = st') /\
          Part000.color1 (Loop.currentRef _ st') = Part000.color1 config /\
          Part000.color2 (Loop.currentRef _ st') = Part000.color2 config /\
          Part000.color3 (Loop.currentRef _ st') = Part000.color3 config /\
          Part000.positionY (Loop.currentRef _ st')
          = Part000.lerp (Part000.positionY (Loop.currentRef _ st))
              (Part000.positionY config) (lit 1))).
Proof.
  split; [| split].
  - intros num NUM h0 evs zoneIndex perfNow frames now. split.
    + intros config st cl t Hlis Hcfg Hrun Hend st'.
      destruct (VariantFacts.zone_transition st zoneIndex perfNow config
                  frames now (VariantFacts.zone_inv h0 evs) Hlis Hcfg Hrun)
        as (_ & Hcur & _ & Hdone).
      destruct (Hdone Hend) as (Hcb & Href & Hidle).
      repeat split; try assumption.
      intros key. unfold st', GradientBackground.run. rewrite Hcur.
      apply VariantFacts.get_newProps.
    + intros config st cl t Hlis Hcfg Hrun Hend st'.
      destruct (VariantFacts.section_transition st zoneIndex perfNow config
                  frames now (VariantFacts.section_inv h0 evs) Hlis Hcfg Hrun)
        as (_ & Hcur & _ & Hdone).
      destruct (Hdone Hend) as (Hcb & Href & Hidle).
      repeat split; assumption.
  - intros h0 evs zoneIndex perfNow frames now.
    assert (Hend : (700 <= now - perfNow)%Q ->
                   Loop.running (lit 700) perfNow now = false).
    { intros Hge. destruct (Loop.running (lit 700) perfNow now) eqn:E;
        [| reflexivity].
      apply ExactFacts.running_iff in E. lra. }
    split.
    + intros config st Hlis Hcfg Hrun Hge st'.
      specialize (Hend Hge).
      destruct (VariantFacts.zone_transition st zoneIndex perfNow config
                  frames now (VariantFacts.zone_inv h0 evs) Hlis Hcfg Hrun)
        as (_ & Hcur & _ & Hdone).
      destruct (Hdone Hend) as (Hcb & Href & _).
      split; [exact (ExactFacts.rawT_done _ Hge) |].
      repeat split; try assumption.
      intros key. unfold st', GradientBackground.run. rewrite Hcur.
      unfold Loop.props_of. cbn [Loop.from Loop.target].
      rewrite VariantFacts.get_newProps.
      apply ExactFacts.lerp_one, ExactFacts.easeOutCubic_one.
      apply (ExactFacts.rawT_done _ Hge).
    + intros config st Hlis Hcfg Hrun Hge st'.
      specialize (Hend Hge).
      destruct (VariantFacts.section_transition st zoneIndex perfNow config
                  frames now (VariantFacts.section_inv h0 evs) Hlis Hcfg Hrun)
        as (_ & Hcur & _ & Hdone).
      destruct (Hdone Hend) as (Hcb & Href & _).
      destruct (VariantFacts.SECTION_CONFIGS_wellFormed config
                  (LoopFacts.config_at_In _ _ _ _ Hcfg)) as (W1 & W2 & W3).
      assert (Ht : (GradientBackground.easeOutCubic
                      (Qmin ((now - perfNow) / 700) 1) == 1)%Q)
        by (apply ExactFacts.easeOutCubic_one, (ExactFacts.rawT_done _ Hge)).
      split; [exact (ExactFacts.rawT_done _ Hge) |].
      repeat split; try assumption;
        unfold st', Part000.run; rewrite Hcur;
        unfold Loop.props_of, Part000.newProps;
        cbn [Loop.from Loop.target Part000.color1 Part000.color2
             Part000.color3 Part000.positionY].
      * now apply VariantFacts.lerpColor_end.
      * now apply VariantFacts.lerpColor_end.
      * now apply VariantFacts.lerpColor_end.
      * now apply ExactFacts.lerp_one.
  - intros h0 evs zoneIndex perfNow frames now. split.
    + intros config st Hlis Hcfg Hrun Hge st'.
      destruct (DoubleFacts.rawT_clamped perfNow now Hge) as (HrawT & Hend).
      destruct (VariantFacts.zone_transition st zoneIndex perfNow config
                  frames now (VariantFacts.zone_inv h0 evs) Hlis Hcfg Hrun)
        as (_ & Hcur & _ & Hdone).
      destruct (Hdone Hend) as (Hcb & Href & Hidle).
      split; [exact HrawT |].
      repeat split; try assumption.
      intros key. unfold st', GradientBackground.run. rewrite Hcur.
      unfold Loop.props_of. cbn [Loop.from Loop.target].
      rewrite VariantFacts.get_newProps.
      unfold Loop.rawT_of. cbn [Loop.startTime].
      change GradientBackground.TRANSITION_DURATION with (lit 700).
      rewrite HrawT, DoubleFacts.eased_one. reflexivity.
    + intros config st Hlis Hcfg Hrun Hge st'.
      destruct (DoubleFacts.rawT_clamped perfNow now Hge) as (HrawT & Hend).
      destruct (VariantFacts.section_transition st zoneIndex perfNow config
                  frames now (VariantFacts.section_inv h0 evs) Hlis Hcfg Hrun)
        as (_ & Hcur & _ & Hdone).
      destruct (Hdone Hend) as (Hcb & Href & Hidle).
      destruct (VariantFacts.SECTION_CONFIGS_wellFormed config
                  (LoopFacts.config_at_In _ _ _ _ Hcfg)) as (W1 & W2 & W3).
      split; [exact HrawT |].
      repeat split; try assumption;
        unfold st', Part000.run; rewrite Hcur;
        unfold Loop.props_of, Part000.newProps, Loop.rawT_of;
        cbn [Loop.from Loop.target Loop.startTime Part000.color1
             Part000.color2 Part000.color3 Part000.positionY];
        change Part000.TRANSITION_DURATION with (lit 700);
        rewrite HrawT, VariantFacts.easeOutCubic_same, DoubleFacts.eased_one.
      * now apply (JSFacts.lerpColor_1 JSFacts.byte_exact_F64).
      * now apply (JSFacts.lerpColor_1 JSFacts.byte_exact_F64).
      * now apply (JSFacts.lerpColor_1 JSFacts.byte_exact_F64).
      * reflexivity.
Qed.

(** Zone 4 selected at time 0 in exact arithmetic, frames at 16 ms and
    350 ms, then the frame at 700 ms, for both files; and the same
    selection in doubles at 1000 ms, frames at 1016 ms and 1350 ms, then
    the frame at 1700 ms. *)
Lemma C3_completion_witness :
  (let st' := GradientBackground.run (num := Q)
                (Loop.transition 4 0 [16; 350] 700)%Q
                (GradientBackground.mount 0) in
   Loop.callbacks _ st' = [] /\
   Loop.animFrameRef _ st' = 0%N /\
   forall key,
     (GradientBackground.get key (Loop.currentRef _ st')
      == GradientBackground.get key
           (nth 4 GradientBackground.ZONE_CONFIGS
                GradientBackground.initialProps))%Q)
  /\
  (let st' := Part000.run (num := Q) (Loop.transition 4 0 [16; 350] 700)%Q
                (Part000.mount 0) in
   Loop.callbacks _ st' = [] /\
   Part000.color1 (Loop.currentRef _ st') = "#7b2cbf"%string /\
   (Part000.positionY (Loop.currentRef _ st') == 1.8)%Q)
  /\
  (let st' := GradientBackground.run (num := PrimFloat.float)
                (Loop.transition (lit 4) (lit 1000)
                   [lit 1016; lit 1350] (lit 1700))
                (GradientBackground.mount 0) in
   Loop.callbacks _ st' = [] /\
   Loop.animFrameRef _ st' = 0%N /\
   forall now',
     GradientBackground.dispatch (Loop.AnimationFrame now') st' = st')
  /\
  (let st' := Part000.run (num := PrimFloat.float)
                (Loop.transition (lit 4) (lit 1000)
                   [lit 1016; lit 1350] (lit 1700))
                (Part000.mount 0) in
   Loop.callbacks _ st' = [] /\
   Part000.color1 (Loop.currentRef _ st') = "#7b2cbf"%string /\
   Part000.color2 (Loop.currentRef _ st') = "#d17db8"%string /\
   Part000.color3 (Loop.currentRef _ st') = "#e6d0de"%string).
Proof.
  split; [| split; [| split]].
  - destruct (proj1 (proj1 (proj2 C3_completion)
                       0%N [] 4%Q 0%Q [16; 350]%Q 700%Q)
                (nth 4 GradientBackground.ZONE_CONFIGS
                     GradientBackground.initialProps))
      as (_ & _ & Hcb & Href & Hkeys).
    + reflexivity.
    + reflexivity.
    + repeat constructor.
    + unfold Qle. cbn. lia.
    + split; [exact Hcb |]. split; [exact Href | exact Hkeys].
  - destruct (proj2 (proj1 (proj2 C3_completion)
                       0%N [] 4%Q 0%Q [16; 350]%Q 700%Q)
                (nth 4 Part000.SECTION_CONFIGS Part000.initialProps))
      as (_ & _ & Hcb & _ & Hc1 & _ & _ & Hy).
    + reflexivity.
    + reflexivity.
    + repeat constructor.
    + unfold Qle. cbn. lia.
    + split; [exact Hcb |]. split; [exact Hc1 | exact Hy].
  - destruct (proj1 (proj2 (proj2 C3_completion)
                       0%N [] (lit 4) (lit 1000)
                       [lit 1016; lit 1350] (lit 1700))
                (nth 4 GradientBackground.ZONE_CONFIGS
                     GradientBackground.initialProps))
      as (_ & _ & Hcb & Href & Hidle & _).
    + reflexivity.
    + reflexivity.
    + repeat constructor.
    + reflexivity.
    + split; [exact Hcb |]. split; [exact Href | exact Hidle].
  - destruct (proj2 (proj2 (proj2 C3_completion)
                       0%N [] (lit 4) (lit 1000)
                       [lit 1016; lit 1350] (lit 1700))
                (nth 4 Part000.SECTION_CONFIGS Part000.initialProps))
      as (_ & _ & Hcb & _ & _ & Hc1 & Hc2 & Hc3 & _).
    + reflexivity.
    + reflexivity.
    + repeat constructor.
    + reflexivity.
    + split; [exact Hcb |]. split; [exact Hc1 |].
      split; [exact Hc2 | exact Hc3].
Defined.

(** C4. In every state the component can reach, in either file and for
    any number type: at most one frame callback is pending; [animateTo]
    schedules from a state in which the pending callback has been
    cancelled, so that afterwards exactly the new one is pending; and the
    effect's cleanup (what [Unmount] runs) leaves none pending. *)
Theorem C4_single_animation :
  forall (num : Type) (NUM : Number num)
         (h0 : N) (evs : list (Loop.Event num)),
    (let st := GradientBackground.run evs (GradientBackground.mount h0) in
     (length (Loop.callbacks _ st) <= 1)%nat /\
     (forall target perfNow,
         let idle := Loop.cancelled _ st in
         let cl := Loop.mkClosure (Loop.currentRef _ idle) target perfNow in
         Loop.callbacks _ idle = [] /\
         GradientBackground.animateTo target perfNow st
         = Loop.set_animFrameRef _
             (fst (Loop.requestAnimationFrame _ cl idle))
             (snd (Loop.requestAnimationFrame _ cl idle)) /\
         length (Loop.callbacks _
                   (GradientBackground.animateTo target perfNow st)) = 1%nat) /\
     Loop.callbacks _ (Loop.cleanup _ st) = [] /\
     Loop.callbacks _ (GradientBackground.dispatch Loop.Unmount st) = [])
    /\
    (let st := Part000.run evs (Part000.mount h0) in
     (length (Loop.callbacks _ st) <= 1)%nat /\
     (forall target perfNow,
         let idle := Loop.cancelled _ st in
         let cl := Loop.mkClosure (Loop.currentRef _ idle) target perfNow in
         Loop.callbacks _ idle = [] /\
         Part000.animateTo target perfNow st
         = Loop.set_animFrameRef _
             (fst (Loop.requestAnimationFrame _ cl idle))
             (snd (Loop.requestAnimationFrame _ cl idle)) /\
         length (Loop.callbacks _ (Part000.animateTo target perfNow st))
         = 1%nat) /\
     Loop.callbacks _ (Loop.cleanup _ st) = [] /\
     Loop.callbacks _ (Part000.dispatch Loop.Unmount st) = []).
Proof.
  intros num NUM h0 evs. split.
  - intros st. pose proof (VariantFacts.zone_inv h0 evs) as Hinv.
    fold st in Hinv.
    repeat split.
    + destruct (Loop.inv_pending _ _ st Hinv) as [-> | (cl & -> & _)];
        cbn; lia.
    + now apply (LoopFacts.cancelled_callbacks _
                   GradientBackground.ZONE_CONFIGS).
    + destruct (LoopFacts.animateTo_spec _ _ target perfNow st Hinv)
        as (Hcb & _).
      unfold GradientBackground.animateTo. rewrite Hcb. reflexivity.
    + apply (LoopFacts.cleanup_spec _ _ st Hinv).
    + cbn. destruct (Loop.listening _ st) eqn:Hlis.
      * apply (LoopFacts.cleanup_spec _ _ st Hinv).
      * apply (Loop.inv_unmounted _ _ st Hinv Hlis).
  - intros st. pose proof (VariantFacts.section_inv h0 evs) as Hinv.
    fold st in Hinv.
    repeat split.
    + destruct (Loop.inv_pending _ _ st Hinv) as [-> | (cl & -> & _)];
        cbn; lia.
    + now apply (LoopFacts.cancelled_callbacks _ Part000.SECTION_CONFIGS).
    + destruct (LoopFacts.animateTo_spec _ _ target perfNow st Hinv)
        as (Hcb & _).
      unfold Part000.animateTo. rewrite Hcb. reflexivity.
    + apply (LoopFacts.cleanup_spec _ _ st Hinv).
    + cbn. destruct (Loop.listening _ st) eqn:Hlis.
      * apply (LoopFacts.cleanup_spec _ _ st Hinv).
      * apply (Loop.inv_unmounted _ _ st Hinv Hlis).
Qed.

(** C5. A "gradient-transition" event whose [zoneIndex] is not one of the
    numbers 0, 1, 2, 3, 4 leaves the whole state unchanged, in both files;
    an event whose [zoneIndex] is the integer [i] in that range, received
    while the listener is registered, runs [animateTo] on row [i], which
    leaves a frame callback pending.  Stated for the rationals, and for
    doubles through their exact value ([NaN] and the infinities have
    none, so they are ignored). *)
Theorem C5_out_of_range_ignored :
  (forall (zoneIndex perfNow : Q),
      (forall st : GradientBackground.State Q,
          (~ indexes_a_zone zoneIndex ->
           GradientBackground.dispatch
             (Loop.GradientTransition zoneIndex perfNow) st = st) /\
          (forall i : nat,
              (i < 5)%nat -> zoneIndex == inject_Z (Z.of_nat i) ->
              Loop.listening _ st = true ->
              let row := nth i GradientBackground.ZONE_CONFIGS
                             GradientBackground.initialProps in
              GradientBackground.dispatch
                (Loop.GradientTransition zoneIndex perfNow) st
              = GradientBackground.animateTo row perfNow st /\
              Loop.callbacks _ (GradientBackground.animateTo row perfNow st)
              <> []))
      /\
      (forall st : Part000.State Q,
          (~ indexes_a_zone zoneIndex ->
           Part000.dispatch (Loop.GradientTransition zoneIndex perfNow) st
           = st) /\
          (forall i : nat,
              (i < 5)%nat -> zoneIndex == inject_Z (Z.of_nat i) ->
              Loop.listening _ st = true ->
              let row := nth i Part000.SECTION_CONFIGS Part000.initialProps in
              Part000.dispatch (Loop.GradientTransition zoneIndex perfNow) st
              = Part000.animateTo row perfNow st /\
              Loop.callbacks _ (Part000.animateTo row perfNow st) <> [])))
  /\
  (forall (zoneIndex perfNow : PrimFloat.float),
      ((forall q : Q, F64.to_Q zoneIndex = Some q -> ~ indexes_a_zone q) ->
       (forall st : GradientBackground.State PrimFloat.float,
           GradientBackground.dispatch
             (Loop.GradientTransition zoneIndex perfNow) st = st) /\
       (forall st : Part000.State PrimFloat.float,
           Part000.dispatch (Loop.GradientTransition zoneIndex perfNow) st
           = st))
      /\
      (forall (q : Q) (i : nat),
          F64.to_Q zoneIndex = Some q ->
          (i < 5)%nat -> q == inject_Z (Z.of_nat i) ->
          (forall st : GradientBackground.State PrimFloat.float,
              Loop.listening _ st = true ->
              GradientBackground.dispatch
                (Loop.GradientTransition zoneIndex perfNow) st
              = GradientBackground.animateTo
                  (nth i GradientBackground.ZONE_CONFIGS
                       GradientBackground.initialProps) perfNow st) /\
          (forall st : Part000.State PrimFloat.float,
              Loop.listening _ st = true ->
              Part000.dispatch (Loop.GradientTransition zoneIndex perfNow) st
              = Part000.animateTo
                  (nth i Part000.SECTION_CONFIGS Part000.initialProps)
                  perfNow st))).
Proof.
  assert (Hnone : forall (Config : Type) (CONFIGS : list Config) (q : Q),
             length CONFIGS = 5%nat -> ~ indexes_a_zone q ->
             match Qindex q with
             | Some i => nth_error CONFIGS i
             | None => None
             end = None).
  { intros Config CONFIGS q Hlen Hno.
    destruct (Qindex q) as [n |] eqn:E; [| reflexivity].
    apply nth_error_None. rewrite Hlen.
    destruct (Nat.lt_ge_cases n 5) as [Hlt | Hge]; [| exact Hge].
    exfalso. apply Hno. exists (Z.of_nat n). split; [lia |].
    now apply ExactFacts.Qindex_Some. }
  assert (Hsome : forall (Config : Type) (CONFIGS : list Config) d (q : Q) i,
             length CONFIGS = 5%nat -> (i < 5)%nat ->
             q == inject_Z (Z.of_nat i) ->
             match Qindex q with
             | Some i => nth_error CONFIGS i
             | None => None
             end = Some (nth i CONFIGS d)).
  { intros Config CONFIGS d q i Hlen Hi Hz.
    rewrite (ExactFacts.Qindex_of_int q (Z.of_nat i) Hz) by lia.
    rewrite Nat2Z.id. apply nth_error_nth'. lia. }
  split.
  - intros zoneIndex perfNow.
    assert (Hpending : forall (Config : Type) (tgt : Config)
                              (st : Loop.State Q Config),
               Loop.callbacks _ (Loop.animateTo Config tgt perfNow st) <> []).
    { intros Config tgt st. unfold Loop.animateTo.
      destruct (Loop.requestAnimationFrame _ _ _) as [h st2] eqn:E.
      unfold Loop.requestAnimationFrame in E. injection E as <- <-.
      cbn. intros H. apply app_eq_nil in H. destruct H as [_ H].
      discriminate. }
    split; intros st; split.
    + intros Hno. cbn. destruct (Loop.listening _ st); [| reflexivity].
      unfold Loop.handleTransition, Loop.config_at.
      change (ToIndex zoneIndex) with (Qindex zoneIndex).
      now rewrite (Hnone _ _ _ VariantFacts.ZONE_CONFIGS_length Hno).
    + intros i Hi Hz Hlis row. split; [| apply Hpending].
      cbn. rewrite Hlis. unfold Loop.handleTransition, Loop.config_at.
      change (ToIndex zoneIndex) with (Qindex zoneIndex).
      now rewrite (Hsome _ _ GradientBackground.initialProps _ i
                     VariantFacts.ZONE_CONFIGS_length Hi Hz).
    + intros Hno. cbn. destruct (Loop.listening _ st); [| reflexivity].
      unfold Loop.handleTransition, Loop.config_at.
      change (ToIndex zoneIndex) with (Qindex zoneIndex).
      now rewrite (Hnone _ _ _ VariantFacts.SECTION_CONFIGS_length Hno).
    + intros i Hi Hz Hlis row. split; [| apply Hpending].
      cbn. rewrite Hlis. unfold Loop.handleTransition, Loop.config_at.
      change (ToIndex zoneIndex) with (Qindex zoneIndex).
      now rewrite (Hsome _ _ Part000.initialProps _ i
                     VariantFacts.SECTION_CONFIGS_length Hi Hz).
  - intros zoneIndex perfNow. split.
    + intros Hno.
      assert (Hidx : forall (Config : Type) (CONFIGS : list Config),
                 length CONFIGS = 5%nat ->
                 Loop.config_at Config CONFIGS zoneIndex = None).
      { intros Config CONFIGS Hlen. unfold Loop.config_at.
        change (ToIndex zoneIndex) with (F64.index zoneIndex).
        unfold F64.index.
        destruct (F64.to_Q zoneIndex) as [q |] eqn:E; [| reflexivity].
        apply (Hnone _ _ _ Hlen (Hno q eq_refl)). }
      split; intros st; cbn; destruct (Loop.listening _ st);
        try reflexivity; unfold Loop.handleTransition.
      * now rewrite (Hidx _ _ VariantFacts.ZONE_CONFIGS_length).
      * now rewrite (Hidx _ _ VariantFacts.SECTION_CONFIGS_length).
    + intros q i Hq Hi Hz.
      assert (Hidx : forall (Config : Type) (CONFIGS : list Config) d,
                 length CONFIGS = 5%nat ->
                 Loop.config_at Config CONFIGS zoneIndex
                 = Some (nth i CONFIGS d)).
      { intros Config CONFIGS d Hlen. unfold Loop.config_at.
        change (ToIndex zoneIndex) with (F64.index zoneIndex).
        unfold F64.index. rewrite Hq.
        apply (Hsome _ _ d _ i Hlen Hi Hz). }
      split; intros st Hlis; cbn; rewrite Hlis;
        unfold Loop.handleTransition.
      * now rewrite (Hidx _ _ GradientBackground.initialProps
                       VariantFacts.ZONE_CONFIGS_length).
      * now rewrite (Hidx _ _ Part000.initialProps
                       VariantFacts.SECTION_CONFIGS_length).
Qed.

(** [zoneIndex] 5, -1 and 1.5 are ignored and 2 starts a transition, in
    exact arithmetic; so is [NaN] ignored, as a double. *)
Lemma C5_out_of_range_ignored_witness :
  (let st := GradientBackground.mount (num := Q) 0 in
   GradientBackground.dispatch (Loop.GradientTransition 5 0) st = st /\
   GradientBackground.dispatch (Loop.GradientTransition (-1) 0) st = st /\
   GradientBackground.dispatch (Loop.GradientTransition 1.5 0) st = st /\
   GradientBackground.dispatch (Loop.GradientTransition 2 0) st
   = GradientBackground.animateTo
       (nth 2 GradientBackground.ZONE_CONFIGS GradientBackground.initialProps)
       0 st)
  /\
  (let st := Part000.mount (num := PrimFloat.float) 0 in
   Part000.dispatch (Loop.GradientTransition PrimFloat.nan (lit 0)) st = st).
Proof.
  assert (Hno : forall q : Q,
             (forall i : Z, (0 <= i <= 4)%Z ->
                            (Qnum q * 1 <> i * Z.pos (Qden q))%Z) ->
             ~ indexes_a_zone q).
  { intros q H [i [Hi Hq]]. exact (H i Hi Hq). }
  split.
  - intros st. split; [| split; [| split]].
    + apply (proj1 (proj1 (proj1 C5_out_of_range_ignored 5 0) st)).
      apply Hno. cbn. intros i Hi. lia.
    + apply (proj1 (proj1 (proj1 C5_out_of_range_ignored (-1) 0) st)).
      apply Hno. cbn. intros i Hi. lia.
    + apply (proj1 (proj1 (proj1 C5_out_of_range_ignored 1.5 0) st)).
      apply Hno. cbn. intros i Hi. lia.
    + apply (proj2 (proj1 (proj1 C5_out_of_range_ignored 2 0) st) 2%nat).
      * lia.
      * reflexivity.
      * reflexivity.
  - intros st.
    apply (proj2 (proj1 (proj2 C5_out_of_range_ignored PrimFloat.nan (lit 0))
                    ltac:(intros q Hq; vm_compute in Hq; discriminate Hq))).
Defined.

(** C6. In every reachable state [currentRef] equals the state last
    rendered; [animateTo] copies it as the closure's [from]; every [step]
    stores the props it renders in [currentRef]; hence a zone change
    arriving after the frame at [now] of a running transition starts from
    the values interpolated at [now]. *)
Theorem C6_from_is_current :
  forall (num : Type) (NUM : Number num)
         (h0 : N) (evs : list (Loop.Event num)),
    (let st := GradientBackground.run evs (GradientBackground.mount h0) in
     Loop.currentRef _ st = Loop.gradientProps _ st /\
     (forall target perfNow,
         map snd (Loop.callbacks _
                    (GradientBackground.animateTo target perfNow st))
         = [Loop.mkClosure (Loop.currentRef _ st) target perfNow]) /\
     (forall cl now s,
         Loop.currentRef _ (GradientBackground.step cl now s)
         = Loop.gradientProps _ (GradientBackground.step cl now s)) /\
     (forall zoneIndex perfNow config frames now target' perfNow',
         Loop.listening _ st = true ->
         Loop.config_at _ GradientBackground.ZONE_CONFIGS zoneIndex
           = Some config ->
         Forall (fun f => Loop.running GradientBackground.TRANSITION_DURATION
                            perfNow f = true) frames ->
         let cl := Loop.mkClosure (Loop.currentRef _ st) config perfNow in
         let mid := GradientBackground.run
                      (Loop.transition zoneIndex perfNow frames now) st in
         map snd (Loop.callbacks _
                    (GradientBackground.animateTo target' perfNow' mid))
         = [Loop.mkClosure
              (GradientBackground.newProps (Loop.currentRef _ st) config
                 (GradientBackground.easeOutCubic
                    (Loop.rawT_of _ GradientBackground.TRANSITION_DURATION
                       cl now)))
              target' perfNow']))
    /\
    (let st := Part000.run evs (Part000.mount h0) in
     Loop.currentRef _ st = Loop.gradientProps _ st /\
     (forall target perfNow,
         map snd (Loop.callbacks _ (Part000.animateTo target perfNow st))
         = [Loop.mkClosure (Loop.currentRef _ st) target perfNow]) /\
     (forall cl now s,
         Loop.currentRef _ (Part000.step cl now s)
         = Loop.gradientProps _ (Part000.step cl now s)) /\
     (forall zoneIndex perfNow config frames now target' perfNow',
         Loop.listening _ st = true ->
         Loop.config_at _ Part000.SECTION_CONFIGS zoneIndex = Some config ->
         Forall (fun f => Loop.running Part000.TRANSITION_DURATION
                            perfNow f = true) frames ->
         let cl := Loop.mkClosure (Loop.currentRef _ st) config perfNow in
         let mid := Part000.run
                      (Loop.transition zoneIndex perfNow frames now) st in
         map snd (Loop.callbacks _ (Part000.animateTo target' perfNow' mid))
         = [Loop.mkClosure
              (Part000.newProps (Loop.currentRef _ st) config
                 (Part000.easeOutCubic
                    (Loop.rawT_of _ Part000.TRANSITION_DURATION cl now)))
              target' perfNow'])).
Proof.
  intros num NUM h0 evs. split.
  - intros st. pose proof (VariantFacts.zone_inv h0 evs) as Hinv.
    fold st in Hinv.
    repeat split.
    + apply (Loop.inv_mirror _ _ st Hinv).
    + intros target perfNow.
      destruct (LoopFacts.animateTo_spec _ _ target perfNow st Hinv)
        as (Hcb & _).
      unfold GradientBackground.animateTo. rewrite Hcb. reflexivity.
    + intros cl now s.
      destruct (LoopFacts.step_props _ GradientBackground.TRANSITION_DURATION
                  GradientBackground.easeOutCubic GradientBackground.newProps
                  cl now s) as (Hgp & Hcur).
      unfold GradientBackground.step. now rewrite Hgp, Hcur.
    + intros zoneIndex perfNow config frames now target' perfNow'
             Hlis Hcfg Hrun cl mid.
      destruct (VariantFacts.zone_transition st zoneIndex perfNow config
                  frames now Hinv Hlis Hcfg Hrun) as (_ & Hcur & _).
      assert (Hmid : Loop.inv _ GradientBackground.ZONE_CONFIGS mid).
      { unfold mid, st, GradientBackground.run.
        rewrite <- LoopFacts.run_app. apply VariantFacts.zone_inv. }
      destruct (LoopFacts.animateTo_spec _ _ target' perfNow' mid Hmid)
        as (Hcb & _).
      unfold GradientBackground.animateTo. rewrite Hcb. cbn [map snd].
      unfold mid, GradientBackground.run. rewrite Hcur. reflexivity.
  - intros st. pose proof (VariantFacts.section_inv h0 evs) as Hinv.
    fold st in Hinv.
    repeat split.
    + apply (Loop.inv_mirror _ _ st Hinv).
    + intros target perfNow.
      destruct (LoopFacts.animateTo_spec _ _ target perfNow st Hinv)
        as (Hcb & _).
      unfold Part000.animateTo. rewrite Hcb. reflexivity.
    + intros cl now s.
      destruct (LoopFacts.step_props _ Part000.TRANSITION_DURATION
                  Part000.easeOutCubic Part000.newProps cl now s)
        as (Hgp & Hcur).
      unfold Part000.step. now rewrite Hgp, Hcur.
    + intros zoneIndex perfNow config frames now target' perfNow'
             Hlis Hcfg Hrun cl mid.
      destruct (VariantFacts.section_transition st zoneIndex perfNow config
                  frames now Hinv Hlis Hcfg Hrun) as (_ & Hcur & _).
      assert (Hmid : Loop.inv _ Part000.SECTION_CONFIGS mid).
      { unfold mid, st, Part000.run.
        rewrite <- LoopFacts.run_app. apply VariantFacts.section_inv. }
      destruct (LoopFacts.animateTo_spec _ _ target' perfNow' mid Hmid)
        as (Hcb & _).
      unfold Part000.animateTo. rewrite Hcb. cbn [map snd].
      unfold mid, Part000.run. rewrite Hcur. reflexivity.
Qed.

(** Zone 1 is selected, a frame arrives 300 ms later, then zone 3 is
    selected: the second transition starts from the values shown at
    300 ms.  Exact arithmetic, both files. *)
Lemma C6_from_is_current_witness :
  (let zone n := nth n (GradientBackground.ZONE_CONFIGS (num := Q))
                       GradientBackground.initialProps in
   let mid := GradientBackground.run (Loop.transition 1 0 [16] 300)%Q
                (GradientBackground.mount 0) in
   map snd (Loop.callbacks _
              (GradientBackground.animateTo (zone 3%nat) 300%Q mid))
   = [Loop.mkClosure
        (GradientBackground.newProps (zone 0%nat) (zone 1%nat)
           (GradientBackground.easeOutCubic
              (Loop.rawT_of _ GradientBackground.TRANSITION_DURATION
                 (Loop.mkClosure (zone 0%nat) (zone 1%nat) 0%Q) 300%Q)))
        (zone 3%nat) 300%Q])
  /\
  (let zone n := nth n (Part000.SECTION_CONFIGS (num := Q))
                       Part000.initialProps in
   let mid := Part000.run (Loop.transition 2 0 [16] 300)%Q
                (Part000.mount 0) in
   map snd (Loop.callbacks _ (Part000.animateTo (zone 3%nat) 300%Q mid))
   = [Loop.mkClosure
        (Part000.newProps (zone 0%nat) (zone 2%nat)
           (Part000.easeOutCubic
              (Loop.rawT_of _ Part000.TRANSITION_DURATION
                 (Loop.mkClosure (zone 0%nat) (zone 2%nat) 0%Q) 300%Q)))
        (zone 3%nat) 300%Q]).
Proof.
  split.
  - intros zone mid.
    refine (proj2 (proj2 (proj2 (proj1
              (C6_from_is_current Q _ 0%N []))))
              1%Q 0%Q (zone 1%nat) [16%Q] 300%Q (zone 3%nat) 300%Q _ _ _).
    + reflexivity.
    + reflexivity.
    + repeat constructor.
  - intros zone mid.
    refine (proj2 (proj2 (proj2 (proj2
              (C6_from_is_current Q _ 0%N []))))
              2%Q 0%Q (zone 2%nat) [16%Q] 300%Q (zone 3%nat) 300%Q _ _ _).
    + reflexivity.
    + reflexivity.
    + repeat constructor.
Defined.

(** C7. The two files define the same [lerp], the same [easeOutCubic] and
    the same [TRANSITION_DURATION] of 700, whatever the number type; over
    the rationals they are [a + (b - a) t] and [1 - (1 - t)^3]. *)
Theorem C7_same_helpers :
  forall (num : Type) (NUM : Number num),
    (forall a b t : num,
        GradientBackground.lerp a b t = Part000.lerp a b t) /\
    (forall t : num,
        GradientBackground.easeOutCubic t = Part000.easeOutCubic t) /\
    GradientBackground.TRANSITION_DURATION = lit (num := num) 700 /\
    Part000.TRANSITION_DURATION = lit (num := num) 700 /\
    (forall a b t : Q,
        (Part000.lerp a b t == a + (b - a) * t)%Q /\
        (Part000.easeOutCubic t == 1 - (1 - t) ^ 3)%Q).
Proof.
  intros num NUM. repeat split; reflexivity.
Qed.

(** C8. For a well-formed lowercase colour [h] = "#rrggbb", [rgbToHex] of
    the channels of [hexToRgb h] is [h]; hence [lerpColor h other 0 = h]
    and [lerpColor other h 1 = h], whatever the other colour.  Proved for
    exact rationals and for doubles. *)
Theorem C8_hex_round_trip :
  forall h : string,
    Part000.wellFormedHex h = true ->
    (let '(r, g, b) := Part000.hexToRgb (num := Q) h in
     Part000.rgbToHex r g b = h) /\
    (let '(r, g, b) := Part000.hexToRgb (num := PrimFloat.float) h in
     Part000.rgbToHex r g b = h) /\
    (forall other : string,
        Part000.lerpColor h other (lit 0 : Q) = h /\
        Part000.lerpColor other h (lit 1 : Q) = h /\
        Part000.lerpColor h other (lit 0 : PrimFloat.float) = h /\
        Part000.lerpColor other h (lit 1 : PrimFloat.float) = h).
Proof.
  intros h Hwf. split; [| split].
  - apply (JSFacts.hexToRgb_roundtrip JSFacts.byte_exact_Q h Hwf).
  - apply (JSFacts.hexToRgb_roundtrip JSFacts.byte_exact_F64 h Hwf).
  - intros other. repeat split.
    + apply (JSFacts.lerpColor_0 JSFacts.byte_exact_Q h other Hwf).
    + apply (JSFacts.lerpColor_1 JSFacts.byte_exact_Q other h Hwf).
    + apply (JSFacts.lerpColor_0 JSFacts.byte_exact_F64 h other Hwf).
    + apply (JSFacts.lerpColor_1 JSFacts.byte_exact_F64 other h Hwf).
Qed.

(** The colours of zones 0 and 2. *)
Lemma C8_hex_round_trip_witness :
  (let '(r, g, b) := Part000.hexToRgb (num := Q) "#ff5005" in
   Part000.rgbToHex r g b = "#ff5005"%string) /\
  Part000.lerpColor "#ff5005" "#0466c8" (lit 0 : Q) = "#ff5005"%string /\
  Part000.lerpColor "#0466c8" "#ff5005" (lit 1 : PrimFloat.float)
    = "#ff5005"%string.
Proof.
  pose proof (C8_hex_round_trip "#ff5005" eq_refl) as (HQ & _ & Hlerp).
  destruct (Hlerp "#0466c8"%string) as (H0 & _ & _ & H1).
  split; [exact HQ |]. split; [exact H0 | exact H1].
Defined.

(** C9. When the three channel values round to integers between 0 and
    255, the integer [rgbToHex] converts is 2^24 plus the packed channels,
    a 7-digit hexadecimal number with leading digit 1, and the result is
    '#' followed by the two lowercase hex digits of each channel, 7
    characters in all.  For any number type, the rounded value being read
    through [ToInt32] as [<<] and [|] do (for a rational in 0..255 that is
    the rounded value itself, [JSFacts.ToInt32_round_byte]). *)
Theorem C9_rgbToHex_shape :
  forall (num : Type) (NUM : Number num) (r g b : num),
    let R := ToInt32 (Math_round r) in
    let G := ToInt32 (Math_round g) in
    let B := ToInt32 (Math_round b) in
    (0 <= R <= 255)%Z -> (0 <= G <= 255)%Z -> (0 <= B <= 255)%Z ->
    let packed := bitor (bitor (bitor (shl 1 24) (shl R 16)) (shl G 8)) B in
    packed = (16777216 + R * 65536 + G * 256 + B)%Z /\
    toString packed 16
      = String "1" (digitsString (hex2 R ++ hex2 G ++ hex2 B)) /\
    Part000.rgbToHex r g b
      = String "#" (digitsString (hex2 R ++ hex2 G ++ hex2 B)) /\
    String.length (Part000.rgbToHex r g b) = 7%nat /\
    Part000.wellFormedHex (Part000.rgbToHex r g b) = true.
Proof.
  intros num NUM r g b R G B HR HG HB packed.
  pose proof (JSFacts.rgbToHex_channels r g b HR HG HB) as Hhex.
  fold R G B in Hhex.
  assert (Hpacked : packed = (16777216 + R * 65536 + G * 256 + B)%Z)
    by (apply JSFacts.packed_channels; assumption).
  split; [exact Hpacked |]. split; [| split; [exact Hhex |]].
  - rewrite Hpacked.
    pose proof (JSFacts.hex2_valid R HR) as VR.
    pose proof (JSFacts.hex2_valid G HG) as VG.
    pose proof (JSFacts.hex2_valid B HB) as VB.
    replace (16777216 + R * 65536 + G * 256 + B)%Z
      with (digitsValue 16 (1 :: hex2 R ++ hex2 G ++ hex2 B))%Z.
    + rewrite JSFacts.toString_digits;
        [reflexivity | lia | discriminate | | cbn; lia].
      constructor; [lia |]. repeat (apply Forall_app; split); assumption.
    + unfold digitsValue, hex2. cbn [fold_left app].
      pose proof (Z.div_mod R 16 ltac:(lia)).
      pose proof (Z.div_mod G 16 ltac:(lia)).
      pose proof (Z.div_mod B 16 ltac:(lia)). lia.
  - rewrite Hhex. split; [reflexivity |].
    unfold hex2.
    cbn [app digitsString fold_right Part000.wellFormedHex forallb].
    assert (Hd : forall c, (0 <= c <= 255)%Z ->
                           isHexDigit (digitChar (c / 16)) = true /\
                           isHexDigit (digitChar (c mod 16)) = true).
    { intros c Hc. split; apply JSFacts.isHexDigit_digitChar.
      - split; [apply Z.div_pos; lia | apply Z.div_lt_upper_bound; lia].
      - apply Z.mod_pos_bound. lia. }
    destruct (Hd R HR) as (-> & ->). destruct (Hd G HG) as (-> & ->).
    destruct (Hd B HB) as (-> & ->). reflexivity.
Qed.

(** Channels 4.6, 0 and 255.4 (rounding to 5, 0 and 255) give "#0500ff". *)
Lemma C9_rgbToHex_shape_witness :
  Part000.rgbToHex (4.6 : Q) 0 255.4 = "#0500ff"%string /\
  String.length (Part000.rgbToHex (4.6 : Q) 0 255.4) = 7%nat.
Proof.
  destruct (C9_rgbToHex_shape Q _ 4.6 0 255.4) as (_ & _ & Hhex & Hlen & _).
  - vm_compute. split; discriminate.
  - vm_compute. split; discriminate.
  - vm_compute. split; discriminate.
  - split; [exact Hhex | exact Hlen].
Defined.

(** C10, as stated, fails in double arithmetic.  [part_000] starts at
    zone 0 ([positionY] -1.8), zone 2 ([positionY] -0.6) is selected and a
    frame arrives 700 ms later: the elapsed time is non-negative, [rawT]
    and [easeOutCubic(rawT)] are 1, and the [positionY] that [lerp]
    produces is -0x1.3333333333332p-1 (-0.5999999999999999), above both
    end points -1.8 and -0.6 = -0x1.3333333333333p-1. *)
Lemma C10_counterexample :
  let zone n := nth n (Part000.SECTION_CONFIGS (num := PrimFloat.float))
                      Part000.initialProps in
  let st0 := Part000.mount (num := PrimFloat.float) 0 in
  let cl := Loop.mkClosure (Loop.currentRef _ st0) (zone 2%nat) (lit 0) in
  let rawT := Loop.rawT_of _ Part000.TRANSITION_DURATION cl (lit 700) in
  let st := Part000.run (Loop.transition (lit 2) (lit 0) [] (lit 700)) st0 in
  Loop.currentRef _ st0 = zone 0%nat /\
  Loop.config_at _ Part000.SECTION_CONFIGS (lit 2 : PrimFloat.float)
    = Some (zone 2%nat) /\
  PrimFloat.leb (lit 0) (lit 700 - lit 0)%js = true /\
  PrimFloat.eqb rawT (lit 1) = true /\
  PrimFloat.eqb (Part000.easeOutCubic rawT) (lit 1) = true /\
  Part000.positionY (Loop.currentRef _ st)
    = Part000.lerp (Part000.positionY (zone 0%nat))
        (Part000.positionY (zone 2%nat)) (Part000.easeOutCubic rawT) /\
  Part000.positionY (zone 2%nat) = Doubles.minus_six_tenths /\
  Part000.positionY (Loop.currentRef _ st) = Doubles.above_minus_six_tenths /\
  PrimFloat.ltb (Part000.positionY (zone 0%nat))
                (Part000.positionY (Loop.currentRef _ st)) = true /\
  PrimFloat.ltb (Part000.positionY (zone 2%nat))
                (Part000.positionY (Loop.currentRef _ st)) = true.
Proof. repeat split; vm_compute; reflexivity. Qed.

(** C10, amended: in exact arithmetic.  [easeOutCubic] is monotone, maps 0
    to 0, 1 to 1 and [0, 1] into [0, 1]; at a step with non-negative
    elapsed time [rawT] lies in [0, 1], and every value [step] produces
    with [lerp] lies between the closure's [from] and [target] values. *)
Theorem C10_no_overshoot_exact :
  (forall x y : Q,
      x <= y ->
      GradientBackground.easeOutCubic x <= GradientBackground.easeOutCubic y)
  /\
  GradientBackground.easeOutCubic 0 == 0 /\
  GradientBackground.easeOutCubic 1 == 1 /\
  (forall t : Q, 0 <= t <= 1 -> 0 <= GradientBackground.easeOutCubic t <= 1)
  /\
  (forall (cl : GradientBackground.Closure Q) (now : Q)
          (st : GradientBackground.State Q)
          (key : GradientBackground.NumericKey),
      0 <= now - Loop.startTime _ cl ->
      let rawT := Loop.rawT_of _ GradientBackground.TRANSITION_DURATION
                    cl now in
      let a := GradientBackground.get key (Loop.from _ cl) in
      let b := GradientBackground.get key (Loop.target _ cl) in
      let v := GradientBackground.get key
                 (Loop.currentRef _ (GradientBackground.step cl now st)) in
      0 <= rawT <= 1 /\
      v = GradientBackground.lerp a b (GradientBackground.easeOutCubic rawT) /\
      Qmin a b <= v <= Qmax a b)
  /\
  (forall (cl : Part000.Closure Q) (now : Q) (st : Part000.State Q),
      0 <= now - Loop.startTime _ cl ->
      let rawT := Loop.rawT_of _ Part000.TRANSITION_DURATION cl now in
      let a := Part000.positionY (Loop.from _ cl) in
      let b := Part000.positionY (Loop.target _ cl) in
      let v := Part000.positionY
                 (Loop.currentRef _ (Part000.step cl now st)) in
      0 <= rawT <= 1 /\
      v = Part000.lerp a b (Part000.easeOutCubic rawT) /\
      Qmin a b <= v <= Qmax a b).
Proof.
  split; [exact ExactFacts.easeOutCubic_mono |].
  split; [rewrite ExactFacts.easeOutCubic_cube; ring |].
  split; [rewrite ExactFacts.easeOutCubic_cube; ring |].
  split; [exact ExactFacts.easeOutCubic_range |].
  split.
  - intros cl now st key He rawT a b v.
    pose proof (ExactFacts.rawT_range _ He) as HrawT.
    destruct (LoopFacts.step_props _ GradientBackground.TRANSITION_DURATION
                GradientBackground.easeOutCubic GradientBackground.newProps
                cl now st) as (_ & Hcur).
    assert (Hv : v = GradientBackground.lerp a b
                       (GradientBackground.easeOutCubic rawT)).
    { unfold v, GradientBackground.step. rewrite Hcur.
      apply VariantFacts.get_newProps. }
    split; [exact HrawT |]. split; [exact Hv |]. rewrite Hv.
    apply ExactFacts.lerp_between, ExactFacts.easeOutCubic_range, HrawT.
  - intros cl now st He rawT a b v.
    pose proof (ExactFacts.rawT_range _ He) as HrawT.
    destruct (LoopFacts.step_props _ Part000.TRANSITION_DURATION
                Part000.easeOutCubic Part000.newProps cl now st)
      as (_ & Hcur).
    assert (Hv : v = Part000.lerp a b (Part000.easeOutCubic rawT)).
    { unfold v, Part000.step. rewrite Hcur. reflexivity. }
    split; [exact HrawT |]. split; [exact Hv |]. rewrite Hv.
    apply ExactFacts.lerp_between, ExactFacts.easeOutCubic_range, HrawT.
Qed.

(** The step 350 ms into a transition from zone 0 to zone 4, in both
    files. *)
Lemma C10_no_overshoot_exact_witness :
  (let zone n := nth n (GradientBackground.ZONE_CONFIGS (num := Q))
                       GradientBackground.initialProps in
   let v := GradientBackground.cameraZoom
              (Loop.currentRef _
                 (GradientBackground.step
                    (Loop.mkClosure (zone 0%nat) (zone 4%nat) 0) 350
                    (GradientBackground.mount 0))) in
   Qmin 5.0 1 <= v <= Qmax 5.0 1)
  /\
  (let zone n := nth n (Part000.SECTION_CONFIGS (num := Q))
                       Part000.initialProps in
   let v := Part000.positionY
              (Loop.currentRef _
                 (Part000.step (Loop.mkClosure (zone 0%nat) (zone 4%nat) 0)
                    350 (Part000.mount 0))) in
   Qmin (-1.8) 1.8 <= v <= Qmax (-1.8) 1.8).
Proof.
  split.
  - refine (proj2 (proj2
              (proj1 (proj2 (proj2 (proj2 (proj2 C10_no_overshoot_exact))))
                 (Loop.mkClosure
                    (nth 0 GradientBackground.ZONE_CONFIGS
                         GradientBackground.initialProps)
                    (nth 4 GradientBackground.ZONE_CONFIGS
                         GradientBackground.initialProps) 0)
                 350 (GradientBackground.mount 0)
                 GradientBackground.k_cameraZoom _))).
    unfold Qle. cbn. lia.
  - refine (proj2 (proj2
              (proj2 (proj2 (proj2 (proj2 (proj2 C10_no_overshoot_exact))))
                 (Loop.mkClosure
                    (nth 0 Part000.SECTION_CONFIGS Part000.initialProps)
                    (nth 4 Part000.SECTION_CONFIGS Part000.initialProps) 0)
                 350 (Part000.mount 0) _))).
    unfold Qle. cbn. lia.
Defined.

(* ================================================================= *)
(** * Further facts: colours as strings *)
(* ================================================================= *)

Module HexFacts.

Local Open Scope Z_scope.

Import Part000.

(** ** int32 operators on arbitrary integers *)

Lemma wrap32_congruent (z : Z) : exists k, wrap32 z = z + k * 4294967296.
Proof.
  exists (- ((z + 2147483648) / 4294967296)). unfold wrap32.
  pose proof (Z.div_mod (z + 2147483648) 4294967296 ltac:(lia)). lia.
Qed.

Lemma bitand_255_mod (x : Z) : bitand x 255 = x mod 256.
Proof.
  unfold bitand. change (wrap32 255) with (Z.ones 8).
  rewrite Z.land_ones by lia. change (2 ^ 8) with 256.
  destruct (wrap32_congruent x) as [k ->].
  replace (x + k * 4294967296) with (x + (k * 16777216) * 256) by lia.
  apply Z.mod_add. lia.
Qed.

Lemma sar_byte (x k : Z) :
  k = 8 \/ k = 16 -> (sar x k) mod 256 = (x / 2 ^ k) mod 256.
Proof.
  intros Hk. unfold sar.
  replace (k mod 32) with k by (destruct Hk; subst; reflexivity).
  rewrite Z.shiftr_div_pow2 by lia.
  destruct (wrap32_congruent x) as [j ->].
  replace (x + j * 4294967296)
    with (x + (j * (4294967296 / 2 ^ k)) * 2 ^ k)
    by (destruct Hk; subst; cbn; lia).
  rewrite Z.div_add by (destruct Hk; subst; cbn; lia).
  replace (j * (4294967296 / 2 ^ k))
    with ((j * (4294967296 / 2 ^ k / 256)) * 256)
    by (destruct Hk; subst; cbn; lia).
  apply Z.mod_add. lia.
Qed.

(** The channels [hexToRgb] takes from the parsed number. *)
Lemma channels_of_parsed (z : Z) :
  let n := ToInt32_parsed (Some z) in
  (bitand (sar n 16) 255, bitand (sar n 8) 255, bitand n 255) = channelsOf z.
Proof.
  cbn [ToInt32_parsed]. unfold channelsOf.
  rewrite !bitand_255_mod, (sar_byte _ 16), (sar_byte _ 8) by auto.
  change (2 ^ 16) with 65536. change (2 ^ 8) with 256.
  destruct (wrap32_congruent z) as [k ->].
  f_equal; [f_equal |].
  - replace (z + k * 4294967296) with (z + (k * 65536) * 65536) by lia.
    rewrite Z.div_add by lia.
    replace (z / 65536 + k * 65536) with (z / 65536 + (k * 256) * 256) by lia.
    apply Z.mod_add. lia.
  - replace (z + k * 4294967296) with (z + (k * 16777216) * 256) by lia.
    rewrite Z.div_add by lia.
    replace (z / 256 + k * 16777216) with (z / 256 + (k * 65536) * 256) by lia.
    apply Z.mod_add. lia.
  - replace (z + k * 4294967296) with (z + (k * 16777216) * 256) by lia.
    apply Z.mod_add. lia.
Qed.

(** ** Reading hexadecimal digits of either case *)

Lemma hexchar_plain (c : ascii) (d : Z) (r : string) :
  digitValue c = Some d -> 0 <= d < 16 ->
  trimStart (String c r) = String c r /\
  splitSign (String c r) = (1, String c r).
Proof.
  intros H Hd.
  destruct c as [[] [] [] [] [] [] [] []];
    cbv in H; try discriminate H; injection H as <-; try lia;
    split; reflexivity.
Qed.

Lemma hexchar_not_x (c : ascii) (d : Z) :
  digitValue c = Some d -> 0 <= d < 16 -> c <> "x"%char /\ c <> "X"%char.
Proof.
  intros H Hd. split; intros ->; cbv in H; injection H as <-; lia.
Qed.

Lemma stripHexPrefix_hexchars (cs : list ascii) (ds : list Z) :
  hexDigits cs ds -> stripHexPrefix (string_of_list_ascii cs) = None.
Proof.
  intros H. destruct H as [| c d cs ds _ H']; [reflexivity |].
  destruct H' as [| c2 d2 cs ds [H2 Hd2] _].
  - cbn. destruct c as [[] [] [] [] [] [] [] []]; reflexivity.
  - destruct (hexchar_not_x c2 d2 H2 Hd2) as [Hx HX].
    cbn [string_of_list_ascii].
    destruct c as [[] [] [] [] [] [] [] []]; try reflexivity.
    destruct c2 as [[] [] [] [] [] [] [] []]; try reflexivity; congruence.
Qed.

Lemma parseDigits_hexchars (cs : list ascii) (ds : list Z) (acc : Z) :
  hexDigits cs ds ->
  parseDigits 16 (string_of_list_ascii cs) (Some acc)
  = Some (fold_left (fun a d => a * 16 + d) ds acc).
Proof.
  intros H. revert acc.
  induction H as [| c d cs ds [Hc Hd] _ IH]; intros acc; cbn.
  - reflexivity.
  - rewrite Hc. destruct (Z.ltb_spec d 16); [| lia]. apply IH.
Qed.

Lemma parseInt_hexchars (cs : list ascii) (ds : list Z) :
  cs <> [] -> hexDigits cs ds ->
  parseInt (string_of_list_ascii cs) 16
  = Some (nearestDouble (digitsValue 16 ds)).
Proof.
  intros Hne H. pose proof (stripHexPrefix_hexchars cs ds H) as Hstrip.
  destruct H as [| c d cs ds [Hc Hd] H']; [congruence |].
  cbn [string_of_list_ascii] in *.
  destruct (hexchar_plain c d (string_of_list_ascii cs) Hc Hd) as [Ht Hs].
  unfold parseInt. rewrite Ht, Hs, Hstrip.
  change (wrap32 16) with 16.
  cbn [Z.eqb Pos.eqb Z.ltb Z.compare Pos.compare Pos.compare_cont
       negb andb orb].
  cbn [parseDigits]. rewrite Hc. destruct (Z.ltb_spec d 16); [| lia].
  rewrite (parseDigits_hexchars cs ds d H').
  unfold digitsValue. cbn [fold_left]. rewrite Z.mul_0_l, Z.add_0_l.
  rewrite Z.mul_1_l. reflexivity.
Qed.

Lemma hexDigits_length (cs : list ascii) (ds : list Z) :
  hexDigits cs ds -> length cs = length ds.
Proof. induction 1; cbn; congruence. Qed.

Lemma hexDigits_valid (cs : list ascii) (ds : list Z) :
  hexDigits cs ds -> validDigits 16 ds.
Proof. induction 1 as [| c d cs ds [_ Hd] _ IH]; constructor; assumption. Qed.

Lemma digitsValue_range (ds : list Z) :
  validDigits 16 ds -> 0 <= digitsValue 16 ds < 16 ^ Z.of_nat (length ds).
Proof.
  induction ds as [| d ds IH] using rev_ind; intros Hv.
  - cbn. lia.
  - apply Forall_app in Hv. destruct Hv as [Hv Hd].
    inversion Hd as [| ? ? Hd' _]; subst.
    rewrite JSFacts.digitsValue_snoc, length_app. cbn [length].
    rewrite Nat2Z.inj_add, Z.pow_add_r by lia.
    change (16 ^ Z.of_nat 1) with 16. specialize (IH Hv). nia.
Qed.

Lemma nearestDouble_exact (n : Z) : 0 <= n < 2 ^ 53 -> nearestDouble n = n.
Proof.
  intros Hn. unfold nearestDouble.
  destruct (Z.leb_spec (Z.log2 n - 52) 0) as [_ | Hk]; [reflexivity |].
  destruct (Z.eq_dec n 0) as [-> | Hnz]; [discriminate Hk |].
  assert (Z.log2 n < 53) by (apply Z.log2_lt_pow2; lia). lia.
Qed.

(** [hexToRgb] on a string whose text after the first character consists
    of hexadecimal digits. *)
Lemma hexToRgb_int_hexchars (c0 : ascii) (cs : list ascii) (ds : list Z) :
  hexDigits cs ds -> (1 <= length cs <= 13)%nat ->
  hexToRgb_int (String c0 (string_of_list_ascii cs))
  = channelsOf (digitsValue 16 ds).
Proof.
  intros H Hlen. unfold hexToRgb_int. cbn [slice].
  assert (Hne : cs <> []) by (destruct cs; [cbn in Hlen; lia | discriminate]).
  rewrite (parseInt_hexchars cs ds Hne H).
  pose proof (digitsValue_range ds (hexDigits_valid cs ds H)) as Hr.
  rewrite <- (hexDigits_length cs ds H) in Hr.
  assert (16 ^ Z.of_nat (length cs) <= 16 ^ 13)
    by (apply Z.pow_le_mono_r; lia).
  rewrite nearestDouble_exact
    by (change (2 ^ 53) with (2 * 16 ^ 13); lia).
  apply channels_of_parsed.
Qed.

(** The lowercase digit characters of a digit list. *)
Lemma hexDigits_digitChar (ds : list Z) :
  validDigits 16 ds -> hexDigits (map digitChar ds) ds.
Proof.
  induction 1 as [| d ds Hd _ IH]; constructor; [| assumption].
  split; [now apply JSFacts.digitValue_digitChar | assumption].
Qed.

Lemma digitsString_chars (ds : list Z) :
  digitsString ds = string_of_list_ascii (map digitChar ds).
Proof. induction ds as [| d ds IH]; cbn; [| rewrite <- IH]; reflexivity. Qed.

Lemma wellFormedHex_digits (d1 d2 d3 d4 d5 d6 : Z) :
  validDigits 16 [d1; d2; d3; d4; d5; d6] ->
  wellFormedHex (String "#" (digitsString [d1; d2; d3; d4; d5; d6])) = true.
Proof.
  intros Hv.
  assert (Hall : forall d, In d [d1; d2; d3; d4; d5; d6] -> 0 <= d < 16)
    by (apply Forall_forall; exact Hv).
  cbn [wellFormedHex digitsString fold_right forallb].
  rewrite !JSFacts.isHexDigit_digitChar by (apply Hall; cbn; auto 7).
  reflexivity.
Qed.

Lemma wellFormedHex_channels (R G B : Z) :
  0 <= R <= 255 -> 0 <= G <= 255 -> 0 <= B <= 255 ->
  wellFormedHex (String "#" (digitsString (hex2 R ++ hex2 G ++ hex2 B)))
  = true.
Proof.
  intros HR HG HB. apply wellFormedHex_digits.
  change [R / 16; R mod 16; G / 16; G mod 16; B / 16; B mod 16]
    with (hex2 R ++ hex2 G ++ hex2 B)%list.
  repeat (apply Forall_app; split); now apply JSFacts.hex2_valid.
Qed.

(** Decoding what [rgbToHex] wrote. *)
Lemma hexToRgb_int_channels (R G B : Z) :
  0 <= R <= 255 -> 0 <= G <= 255 -> 0 <= B <= 255 ->
  hexToRgb_int (String "#" (digitsString (hex2 R ++ hex2 G ++ hex2 B)))
  = (R, G, B).
Proof.
  intros HR HG HB.
  change (hex2 R ++ hex2 G ++ hex2 B)%list
    with [R / 16; R mod 16; G / 16; G mod 16; B / 16; B mod 16].
  rewrite JSFacts.hexToRgb_int_digits.
  - pose proof (Z.div_mod R 16 ltac:(lia)).
    pose proof (Z.div_mod G 16 ltac:(lia)).
    pose proof (Z.div_mod B 16 ltac:(lia)).
    f_equal; [f_equal |]; lia.
  - change [R / 16; R mod 16; G / 16; G mod 16; B / 16; B mod 16]
      with (hex2 R ++ hex2 G ++ hex2 B)%list.
    repeat (apply Forall_app; split); now apply JSFacts.hex2_valid.
Qed.

End HexFacts.

(** Proves [hexDigits cs ds] for given characters and digits. *)
Ltac hex_digits :=
  repeat first
    [ apply Forall2_nil
    | apply Forall2_cons; [split; [reflexivity | lia] |] ].

(* ================================================================= *)
(** * Further facts: tweening in exact arithmetic *)
(* ================================================================= *)

Module TweenFacts.

Local Open Scope Q_scope.

Import Part000.

(** ** Progress *)

Lemma rawT_mono (e1 e2 : Q) :
  e1 <= e2 -> Qmin (e1 / 700) 1 <= Qmin (e2 / 700) 1.
Proof.
  intros H. apply Q.min_glb; [| apply Q.le_min_r].
  apply Qle_trans with (e1 / 700); [apply Q.le_min_l |].
  unfold Qdiv. apply Qmult_le_compat_r; [assumption | discriminate].
Qed.

Lemma rawT_early (e : Q) : e < 0 -> Qmin (e / 700) 1 < 0.
Proof.
  intros H. apply Qle_lt_trans with (e / 700); [apply Q.le_min_l |].
  apply Qlt_shift_div_r; lra.
Qed.

Lemma easeOutCubic_early (t : Q) :
  t < 0 -> GradientBackground.easeOutCubic t < 0.
Proof.
  intros H. rewrite ExactFacts.easeOutCubic_cube.
  assert (1 < (1 - t) * (1 - t)) by nra.
  assert (1 < (1 - t) * (1 - t) * (1 - t)) by nra.
  lra.
Qed.

Lemma lerp_early (a b t : Q) :
  t < 0 ->
  (a < b -> GradientBackground.lerp a b t < a) /\
  (b < a -> a < GradientBackground.lerp a b t) /\
  (a == b -> GradientBackground.lerp a b t == a).
Proof.
  intros Ht. unfold GradientBackground.lerp. cbn.
  repeat split; intros H; [nra | nra |]. rewrite H. ring.
Qed.

(** Between two values of the progress, the later is nearer the
    target. *)
Lemma lerp_approaches (a b t1 t2 : Q) :
  0 <= t1 -> t1 <= t2 -> t2 <= 1 ->
  let v1 := GradientBackground.lerp a b t1 in
  let v2 := GradientBackground.lerp a b t2 in
  Qmin v1 b <= v2 <= Qmax v1 b.
Proof.
  intros H0 H12 H1 v1 v2. subst v1 v2. unfold GradientBackground.lerp. cbn.
  destruct (Qlt_le_dec a b).
  - rewrite Q.min_l, Q.max_r by nra. split; nra.
  - rewrite Q.min_r, Q.max_l by nra. split; nra.
Qed.

Lemma eased_range (e : Q) :
  0 <= e -> 0 <= GradientBackground.easeOutCubic (Qmin (e / 700) 1) <= 1.
Proof.
  intros H. apply ExactFacts.easeOutCubic_range, ExactFacts.rawT_range, H.
Qed.

Lemma eased_mono (e1 e2 : Q) :
  e1 <= e2 ->
  GradientBackground.easeOutCubic (Qmin (e1 / 700) 1)
  <= GradientBackground.easeOutCubic (Qmin (e2 / 700) 1).
Proof. intros H. apply ExactFacts.easeOutCubic_mono, rawT_mono, H. Qed.

(** ** Rounding *)

Lemma Qround_half_up_mono (x y : Q) :
  x <= y -> (Qround_half_up x <= Qround_half_up y)%Z.
Proof.
  intros H. unfold Qround_half_up. apply Qfloor_resp_le. lra.
Qed.

Lemma Qround_half_up_Z (a : Z) : Qround_half_up (inject_Z a) = a.
Proof. apply JSFacts.Qround_half_up_int. reflexivity. Qed.

Lemma Qround_half_up_between (a b : Z) (q : Q) :
  Qmin (inject_Z a) (inject_Z b) <= q <= Qmax (inject_Z a) (inject_Z b) ->
  (Z.min a b <= Qround_half_up q <= Z.max a b)%Z.
Proof.
  intros [Hlo Hhi].
  destruct (Z.le_ge_cases a b) as [Hab | Hab].
  - assert (inject_Z a <= inject_Z b) by (rewrite <- Zle_Qle; exact Hab).
    rewrite Q.min_l in Hlo by assumption.
    rewrite Q.max_r in Hhi by assumption.
    rewrite Z.min_l, Z.max_r by assumption.
    pose proof (Qround_half_up_mono _ _ Hlo) as Hl.
    pose proof (Qround_half_up_mono _ _ Hhi) as Hh.
    rewrite Qround_half_up_Z in Hl, Hh. lia.
  - assert (inject_Z b <= inject_Z a) by (rewrite <- Zle_Qle; exact Hab).
    rewrite Q.min_r in Hlo by assumption.
    rewrite Q.max_l in Hhi by assumption.
    rewrite Z.min_r, Z.max_l by assumption.
    pose proof (Qround_half_up_mono _ _ Hlo) as Hl.
    pose proof (Qround_half_up_mono _ _ Hhi) as Hh.
    rewrite Qround_half_up_Z in Hl, Hh. lia.
Qed.

(** ** Channels of an interpolated colour *)

Lemma mixChannel_between (a b : Z) (t : Q) :
  0 <= t <= 1 -> (Z.min a b <= mixChannel a b t <= Z.max a b)%Z.
Proof.
  intros Ht. apply Qround_half_up_between.
  apply (ExactFacts.lerp_between (inject_Z a) (inject_Z b) t Ht).
Qed.

Lemma mixChannel_approaches (a b : Z) (t1 t2 : Q) :
  0 <= t1 -> t1 <= t2 -> t2 <= 1 ->
  (Z.min (mixChannel a b t1) b <= mixChannel a b t2
   <= Z.max (mixChannel a b t1) b)%Z.
Proof.
  intros H0 H12 H1.
  pose proof (lerp_approaches (inject_Z a) (inject_Z b) t1 t2 H0 H12 H1)
    as [Hlo Hhi].
  unfold GradientBackground.lerp in Hlo, Hhi. cbn in Hlo, Hhi.
  unfold mixChannel.
  set (q1 := inject_Z a + (inject_Z b - inject_Z a) * t1) in *.
  set (q2 := inject_Z a + (inject_Z b - inject_Z a) * t2) in *.
  destruct (Qlt_le_dec q1 (inject_Z b)) as [Hlt | Hge].
  - rewrite Q.min_l in Hlo by lra. rewrite Q.max_r in Hhi by lra.
    pose proof (Qround_half_up_mono q1 q2 Hlo).
    pose proof (Qround_half_up_mono q2 (inject_Z b) Hhi) as Hb.
    rewrite Qround_half_up_Z in Hb. lia.
  - rewrite Q.min_r in Hlo by lra. rewrite Q.max_l in Hhi by lra.
    pose proof (Qround_half_up_mono q2 q1 Hhi).
    pose proof (Qround_half_up_mono (inject_Z b) q2 Hlo) as Hb.
    rewrite Qround_half_up_Z in Hb. lia.
Qed.

(** What [lerpColor] returns when its progress is in [0, 1]: the
    encoding of the three mixed channels. *)
Lemma lerpColor_channels (from to : string) (t : Q) (R1 G1 B1 R2 G2 B2 : Z) :
  0 <= t <= 1 ->
  hexToRgb_int from = (R1, G1, B1) -> hexToRgb_int to = (R2, G2, B2) ->
  lerpColor from to t
  = String "#" (digitsString (hex2 (mixChannel R1 R2 t)
                              ++ hex2 (mixChannel G1 G2 t)
                              ++ hex2 (mixChannel B1 B2 t))) /\
  (0 <= mixChannel R1 R2 t <= 255)%Z /\
  (0 <= mixChannel G1 G2 t <= 255)%Z /\
  (0 <= mixChannel B1 B2 t <= 255)%Z.
Proof.
  intros Ht Hf Hto.
  pose proof (JSFacts.hexToRgb_int_range from) as Hrf. rewrite Hf in Hrf.
  pose proof (JSFacts.hexToRgb_int_range to) as Hrt. rewrite Hto in Hrt.
  pose proof (mixChannel_between R1 R2 t Ht).
  pose proof (mixChannel_between G1 G2 t Ht).
  pose proof (mixChannel_between B1 B2 t Ht).
  assert (HR : (0 <= mixChannel R1 R2 t <= 255)%Z) by lia.
  assert (HG : (0 <= mixChannel G1 G2 t <= 255)%Z) by lia.
  assert (HB : (0 <= mixChannel B1 B2 t <= 255)%Z) by lia.
  split; [| auto].
  unfold lerpColor, hexToRgb. rewrite Hf, Hto. unfold of_int.
  rewrite JSFacts.rgbToHex_channels;
    rewrite ?JSFacts.ToInt32_round_byte; try assumption.
  reflexivity.
Qed.

Lemma lerpColor_wellFormed (from to : string) (t : Q) :
  0 <= t <= 1 -> wellFormedHex (lerpColor from to t) = true.
Proof.
  intros Ht.
  destruct (hexToRgb_int from) as [[R1 G1] B1] eqn:Hf.
  destruct (hexToRgb_int to) as [[R2 G2] B2] eqn:Hto.
  destruct (lerpColor_channels from to t _ _ _ _ _ _ Ht Hf Hto)
    as (-> & HR & HG & HB).
  now apply HexFacts.wellFormedHex_channels.
Qed.

Lemma lerpColor_decoded (from to : string) (t : Q) (R1 G1 B1 R2 G2 B2 : Z) :
  0 <= t <= 1 ->
  hexToRgb_int from = (R1, G1, B1) -> hexToRgb_int to = (R2, G2, B2) ->
  hexToRgb_int (lerpColor from to t)
  = (mixChannel R1 R2 t, mixChannel G1 G2 t, mixChannel B1 B2 t).
Proof.
  intros Ht Hf Hto.
  destruct (lerpColor_channels from to t _ _ _ _ _ _ Ht Hf Hto)
    as (-> & HR & HG & HB).
  now apply HexFacts.hexToRgb_int_channels.
Qed.

(** At progress 0 the starting colour comes back. *)
Lemma lerpColor_begin (from to : string) (t : Q) :
  t == 0 -> wellFormedHex from = true -> lerpColor from to t = from.
Proof.
  intros Ht Hwf. unfold lerpColor, hexToRgb.
  pose proof (JSFacts.hexToRgb_int_range from) as Hr.
  destruct (hexToRgb_int from) as [[R1 G1] B1] eqn:Ef.
  destruct (hexToRgb_int to) as [[R2 G2] B2].
  destruct Hr as (HR & HG & HB).
  apply JSFacts.rgbToHex_of_channels; [assumption |]. rewrite Ef.
  unfold of_int.
  rewrite (JSFacts.ToInt32_round_int _ R1), (JSFacts.ToInt32_round_int _ G1),
    (JSFacts.ToInt32_round_int _ B1); try assumption; try reflexivity;
    cbn; rewrite Ht; ring.
Qed.

Lemma eased_at_start (s : Q) :
  GradientBackground.easeOutCubic (Qmin ((s - s) / 700) 1) == 0.
Proof.
  assert (H : Qmin ((s - s) / 700) 1 == 0).
  { rewrite Q.min_l.
    - unfold Qdiv. ring.
    - setoid_replace ((s - s) / 700) with 0 by (unfold Qdiv; ring). lra. }
  rewrite ExactFacts.easeOutCubic_cube, H. ring.
Qed.

(** A colour interpolated toward itself. *)
Lemma lerpColor_same (h : string) (t : Q) :
  wellFormedHex h = true -> lerpColor h h t = h.
Proof.
  intros Hwf. unfold lerpColor, hexToRgb.
  pose proof (JSFacts.hexToRgb_int_range h) as Hr.
  destruct (hexToRgb_int h) as [[R G] B] eqn:E.
  destruct Hr as (HR & HG & HB).
  apply JSFacts.rgbToHex_of_channels; [assumption |]. rewrite E.
  unfold of_int.
  rewrite (JSFacts.ToInt32_round_int _ R), (JSFacts.ToInt32_round_int _ G),
    (JSFacts.ToInt32_round_int _ B); try assumption; try reflexivity;
    cbn; ring.
Qed.

End TweenFacts.

(* ================================================================= *)
(** * Further facts: one step, in exact arithmetic *)
(* ================================================================= *)

Module StepFacts.

Local Open Scope Q_scope.

(** The eased progress [step] computes at the frame timestamp [now]. *)
Abbreviation eased cl now :=
  (GradientBackground.easeOutCubic
     (Qmin ((now - Loop.startTime _ cl) / 700) 1)).

Lemma zone_step_value (cl : GradientBackground.Closure Q) (now : Q)
    (st : GradientBackground.State Q) (key : GradientBackground.NumericKey) :
  GradientBackground.get key
    (Loop.currentRef _ (GradientBackground.step cl now st))
  = GradientBackground.lerp
      (GradientBackground.get key (Loop.from _ cl))
      (GradientBackground.get key (Loop.target _ cl)) (eased cl now).
Proof.
  destruct (LoopFacts.step_props _ GradientBackground.TRANSITION_DURATION
              GradientBackground.easeOutCubic GradientBackground.newProps
              cl now st) as (_ & Hcur).
  unfold GradientBackground.step. rewrite Hcur.
  apply VariantFacts.get_newProps.
Qed.

Lemma section_step_props (cl : Part000.Closure Q) (now : Q)
    (st : Part000.State Q) :
  Loop.currentRef _ (Part000.step cl now st)
  = Part000.newProps (Loop.from _ cl) (Loop.target _ cl) (eased cl now) /\
  Loop.gradientProps _ (Part000.step cl now st)
  = Part000.newProps (Loop.from _ cl) (Loop.target _ cl) (eased cl now).
Proof.
  destruct (LoopFacts.step_props _ Part000.TRANSITION_DURATION
              Part000.easeOutCubic Part000.newProps cl now st)
    as (Hgp & Hcur).
  unfold Part000.step. rewrite Hcur, Hgp. split; reflexivity.
Qed.

End StepFacts.

(* ================================================================= *)
(** * Further facts about the loop, for any number type *)
(* ================================================================= *)

Module LoopMore.
Section LoopMore.

Import Loop.

Context {num : Type} {NUM : Number num}.
Variable Config : Type.
Variable CONFIGS : list Config.
Variable initialProps : Config.
Variable TRANSITION_DURATION : num.
Variable easeOutCubic : num -> num.
Variable newProps : Config -> Config -> num -> Config.

Abbreviation State := (Loop.State num Config).
Abbreviation Closure := (Loop.Closure num Config).
Abbreviation step :=
  (Loop.step Config TRANSITION_DURATION easeOutCubic newProps).
Abbreviation dispatch :=
  (Loop.dispatch Config CONFIGS TRANSITION_DURATION easeOutCubic newProps).
Abbreviation run :=
  (Loop.run Config CONFIGS TRANSITION_DURATION easeOutCubic newProps).
Abbreviation mount := (@Loop.mount num Config initialProps).
Abbreviation inv := (@Loop.inv num Config CONFIGS).
Abbreviation rawT_of := (Loop.rawT_of Config TRANSITION_DURATION).

(** ** Handles *)

Lemma animateTo_lastHandle (tgt : Config) (perfNow : num) (st : State) :
  lastHandle _ (animateTo _ tgt perfNow st) = N.succ (lastHandle _ st).
Proof.
  unfold Loop.animateTo. fold (cancelled _ st).
  destruct (LoopFacts.cancelled_fields Config st) as (_ & _ & Hlast & _).
  cbn. now rewrite Hlast.
Qed.

Lemma step_running_lastHandle (cl : Closure) (now : num) (st : State) :
  (rawT_of cl now <? lit 1)%js = true ->
  lastHandle _ (step cl now st) = N.succ (lastHandle _ st).
Proof.
  intros Hlt. unfold Loop.step. fold (rawT_of cl now). rewrite Hlt.
  reflexivity.
Qed.

Lemma cleanup_handles (st : State) :
  animFrameRef _ (cleanup _ st) = animFrameRef _ st /\
  lastHandle _ (cleanup _ st) = lastHandle _ st.
Proof. unfold cleanup. cbn. destruct (negb _); split; reflexivity. Qed.

(** While the listener is registered [animFrameRef] is 0 whenever no
    callback is pending, and it never exceeds the window's counter. *)
Lemma tracked_dispatch (ev : Event num) (st : State) :
  inv st ->
  (listening _ st = true -> callbacks _ st = [] -> animFrameRef _ st = 0%N) ->
  (animFrameRef _ st <= lastHandle _ st)%N ->
  let st' := dispatch ev st in
  (listening _ st' = true -> callbacks _ st' = [] ->
   animFrameRef _ st' = 0%N) /\
  (animFrameRef _ st' <= lastHandle _ st')%N.
Proof.
  intros Hinv Hidle Hle st'. subst st'.
  assert (Hsame : (listening _ st = true -> callbacks _ st = [] ->
                   animFrameRef _ st = 0%N) /\
                  (animFrameRef _ st <= lastHandle _ st)%N) by auto.
  destruct ev as [zoneIndex perfNow | now | | ]; cbn [Loop.dispatch].
  - destruct (Bool.bool_dec (listening _ st) true) as [Hlis | Hlis];
      [rewrite Hlis
      | apply Bool.not_true_is_false in Hlis; rewrite Hlis; exact Hsame].
    unfold handleTransition.
    destruct (config_at _ _ zoneIndex) as [config |]; [| exact Hsame].
    destruct (LoopFacts.animateTo_spec Config CONFIGS config perfNow st Hinv)
      as (Hcb & Href & _).
    rewrite animateTo_lastHandle. split.
    + intros _ Hnil. rewrite Hnil in Hcb. discriminate.
    + rewrite Href. lia.
  - destruct (inv_pending _ _ st Hinv) as [Hnil | (cl & Hcb & _)].
    + rewrite LoopFacts.frame_idle by assumption. exact Hsame.
    + rewrite (LoopFacts.frame_runs_step _ _ _ _ st cl now Hcb).
      destruct (rawT_of cl now <? lit 1)%js eqn:Hlt.
      * destruct (LoopFacts.step_running _ _ easeOutCubic newProps cl now
                    (set_callbacks _ [] st) Hlt) as (Hcb' & Href).
        rewrite (step_running_lastHandle cl now _ Hlt). split.
        -- intros _ Hnil. rewrite Hnil in Hcb'. discriminate.
        -- rewrite Href. cbn. lia.
      * destruct (LoopFacts.step_finished _ _ easeOutCubic newProps cl now
                    (set_callbacks _ [] st) Hlt) as (_ & Href & _).
        rewrite Href. split; [auto | lia].
  - cbn. split; [assumption | lia].
  - destruct (Bool.bool_dec (listening _ st) true) as [Hlis | Hlis];
      [rewrite Hlis
      | apply Bool.not_true_is_false in Hlis; rewrite Hlis; exact Hsame].
    destruct (LoopFacts.cleanup_spec Config CONFIGS st Hinv)
      as (_ & Hl & _).
    destruct (cleanup_handles st) as (Href & Hlast).
    rewrite Hl, Href, Hlast. split; [discriminate | assumption].
Qed.

Lemma tracked_run (evs : list (Event num)) (st : State) :
  inv st ->
  (listening _ st = true -> callbacks _ st = [] -> animFrameRef _ st = 0%N) ->
  (animFrameRef _ st <= lastHandle _ st)%N ->
  let st' := run evs st in
  (listening _ st' = true -> callbacks _ st' = [] ->
   animFrameRef _ st' = 0%N) /\
  (animFrameRef _ st' <= lastHandle _ st')%N.
Proof.
  revert st. induction evs as [| ev evs IH]; intros st Hinv Hidle Hle; cbn.
  - auto.
  - destruct (tracked_dispatch ev st Hinv Hidle Hle) as (Hidle' & Hle').
    apply IH; [| assumption | assumption].
    now apply LoopFacts.inv_dispatch.
Qed.

(** In a reachable state with the listener registered, [animFrameRef]
    is 0 exactly when no callback is pending. *)
Lemma ref_tracks_pending (h0 : N) (evs : list (Event num)) :
  let st := run evs (mount h0) in
  (listening _ st = true ->
   (animFrameRef _ st = 0%N <-> callbacks _ st = [])) /\
  (animFrameRef _ st <= lastHandle _ st)%N.
Proof.
  intros st.
  pose proof (LoopFacts.inv_run Config CONFIGS initialProps
                TRANSITION_DURATION easeOutCubic newProps h0 evs) as Hinv.
  destruct (tracked_run evs (mount h0)
              (LoopFacts.inv_mount Config CONFIGS initialProps h0)
              ltac:(reflexivity) ltac:(cbn; lia)) as (Hidle & Hle).
  fold st in Hinv, Hidle, Hle. split; [| exact Hle].
  intros Hlis. split.
  - now apply LoopFacts.idle_no_callback with (CONFIGS := CONFIGS).
  - now apply Hidle.
Qed.

(** ** After the cleanup *)

Lemma unmounted_dispatch (ev : Event num) (st : State) :
  listening _ st = false -> callbacks _ st = [] ->
  let st' := dispatch ev st in
  listening _ st' = false /\ callbacks _ st' = [] /\
  gradientProps _ st' = gradientProps _ st /\
  currentRef _ st' = currentRef _ st.
Proof.
  intros Hlis Hcb st'. subst st'.
  destruct ev as [zoneIndex perfNow | now | | ]; cbn [Loop.dispatch].
  - rewrite Hlis. auto.
  - rewrite LoopFacts.frame_idle by assumption. auto.
  - cbn. auto.
  - rewrite Hlis. auto.
Qed.

Lemma unmounted_run (evs : list (Event num)) (st : State) :
  listening _ st = false -> callbacks _ st = [] ->
  let st' := run evs st in
  listening _ st' = false /\ callbacks _ st' = [] /\
  gradientProps _ st' = gradientProps _ st /\
  currentRef _ st' = currentRef _ st.
Proof.
  revert st. induction evs as [| ev evs IH]; intros st Hlis Hcb.
  - cbn. auto.
  - destruct (unmounted_dispatch ev st Hlis Hcb) as (Hl & Hc & Hgp & Hcur).
    destruct (IH _ Hl Hc) as (Hl' & Hc' & Hgp' & Hcur').
    cbn zeta. change (run (ev :: evs) st) with (run evs (dispatch ev st)).
    rewrite Hgp', Hcur', Hgp, Hcur. auto.
Qed.

Lemma unmount_run (h0 : N) (evs evs' : list (Event num)) :
  let st := run evs (mount h0) in
  let st' := run (Unmount :: evs') st in
  listening _ st' = false /\ callbacks _ st' = [] /\
  gradientProps _ st' = gradientProps _ st /\
  currentRef _ st' = currentRef _ st.
Proof.
  intros st st'. subst st'.
  pose proof (LoopFacts.inv_run Config CONFIGS initialProps
                TRANSITION_DURATION easeOutCubic newProps h0 evs) as Hinv.
  fold st in Hinv.
  change (run (Unmount :: evs') st) with (run evs' (dispatch Unmount st)).
  assert (H : listening _ (dispatch Unmount st) = false /\
              callbacks _ (dispatch Unmount st) = [] /\
              gradientProps _ (dispatch Unmount st) = gradientProps _ st /\
              currentRef _ (dispatch Unmount st) = currentRef _ st).
  { cbn [Loop.dispatch]. destruct (listening _ st) eqn:Hlis.
    - destruct (LoopFacts.cleanup_spec Config CONFIGS st Hinv)
        as (Hcb & Hl & Hcur & Hgp). auto.
    - pose proof (inv_unmounted _ _ st Hinv Hlis). auto. }
  destruct H as (Hl & Hc & Hgp & Hcur).
  destruct (unmounted_run evs' _ Hl Hc) as (Hl' & Hc' & Hgp' & Hcur').
  rewrite Hgp', Hcur', Hgp, Hcur. auto.
Qed.

End LoopMore.
End LoopMore.

(* ================================================================= *)
(** * Further facts: the colours of [part_000] along a run *)
(* ================================================================= *)

Module SectionFacts.

Local Open Scope Q_scope.

Import Loop.

Abbreviation wellFormedColours p :=
  (Part000.wellFormedHex (Part000.color1 p) = true /\
   Part000.wellFormedHex (Part000.color2 p) = true /\
   Part000.wellFormedHex (Part000.color3 p) = true).

Lemma step_colours (cl : Part000.Closure Q) (now : Q) (st : Part000.State Q) :
  startTime _ cl <= now ->
  wellFormedColours (gradientProps _ (Part000.step cl now st)).
Proof.
  intros Hnow.
  rewrite (proj2 (StepFacts.section_step_props cl now st)).
  pose proof (TweenFacts.eased_range (now - startTime _ cl) ltac:(lra)) as Ht.
  cbn [Part000.newProps Part000.color1 Part000.color2 Part000.color3].
  split; [| split]; now apply TweenFacts.lerpColor_wellFormed.
Qed.

Lemma colours_dispatch (ev : Event Q) (st : Part000.State Q) :
  inv _ Part000.SECTION_CONFIGS st ->
  wellFormedColours (gradientProps _ st) ->
  match ev with
  | AnimationFrame now =>
      Forall (fun e => startTime _ (snd e) <= now) (callbacks _ st)
  | _ => True
  end ->
  wellFormedColours (gradientProps _ (Part000.dispatch ev st)).
Proof.
  intros Hinv Hwf Htime. unfold Part000.dispatch.
  destruct ev as [zoneIndex perfNow | now | | ]; cbn [Loop.dispatch].
  - destruct (listening _ st); [| exact Hwf].
    unfold handleTransition.
    destruct (config_at _ _ zoneIndex) as [config |]; [| exact Hwf].
    destruct (LoopFacts.animateTo_spec _ _ config perfNow st Hinv)
      as (_ & _ & _ & Hgp & _).
    rewrite Hgp. exact Hwf.
  - destruct (inv_pending _ _ st Hinv) as [Hnil | (cl & Hcb & _)].
    + rewrite LoopFacts.frame_idle by assumption. exact Hwf.
    + rewrite (LoopFacts.frame_runs_step _ _ _ _ st cl now Hcb).
      rewrite Hcb in Htime. inversion Htime as [| ? ? Hnow _]; subst.
      apply (step_colours cl now _ Hnow).
  - exact Hwf.
  - destruct (listening _ st); [| exact Hwf].
    destruct (LoopFacts.cleanup_spec _ _ st Hinv) as (_ & _ & _ & Hgp).
    rewrite Hgp. exact Hwf.
Qed.

Lemma colours_run (evs : list (Event Q)) (st : Part000.State Q) :
  inv _ Part000.SECTION_CONFIGS st ->
  wellFormedColours (gradientProps _ st) ->
  timely evs st ->
  wellFormedColours (gradientProps _ (Part000.run evs st)).
Proof.
  revert st. induction evs as [| ev evs IH]; intros st Hinv Hwf Ht.
  - exact Hwf.
  - destruct Ht as [Hev Hrest].
    change (Part000.run (ev :: evs) st)
      with (Part000.run evs (Part000.dispatch ev st)).
    apply IH; [| | exact Hrest].
    + now apply LoopFacts.inv_dispatch.
    + now apply colours_dispatch.
Qed.

End SectionFacts.

(* ================================================================= *)
(** * Further facts: packing channels that overflow *)
(* ================================================================= *)

Module PackFacts.

Local Open Scope Z_scope.

Import Part000.

(** The seven hexadecimal digits of [2^24] plus three packed bytes. *)
Lemma toString_packed (R G B : Z) :
  0 <= R <= 255 -> 0 <= G <= 255 -> 0 <= B <= 255 ->
  toString (16777216 + R * 65536 + G * 256 + B) 16
  = String "1" (digitsString (hex2 R ++ hex2 G ++ hex2 B)).
Proof.
  intros HR HG HB.
  pose proof (JSFacts.hex2_valid R HR) as VR.
  pose proof (JSFacts.hex2_valid G HG) as VG.
  pose proof (JSFacts.hex2_valid B HB) as VB.
  replace (16777216 + R * 65536 + G * 256 + B)
    with (digitsValue 16 (1 :: hex2 R ++ hex2 G ++ hex2 B)).
  - rewrite JSFacts.toString_digits;
      [reflexivity | lia | discriminate | | cbn; lia].
    constructor; [lia |]. repeat (apply Forall_app; split); assumption.
  - unfold digitsValue, hex2. cbn [fold_left app].
    pose proof (Z.div_mod R 16 ltac:(lia)).
    pose proof (Z.div_mod G 16 ltac:(lia)).
    pose proof (Z.div_mod B 16 ltac:(lia)). lia.
Qed.

Lemma lor_1_byte (x : Z) : 0 <= x <= 255 -> 0 <= Z.lor x 1 <= 255.
Proof.
  intros Hx. split.
  - apply Z.lor_nonneg. lia.
  - assert (H : Z.lor x 1 < 2 ^ 8); [| lia].
    destruct (Z.eq_dec (Z.lor x 1) 0) as [-> | Hnz]; [lia |].
    apply Z.log2_lt_pow2; [pose proof (Z.lor_nonneg x 1); lia |].
    rewrite Z.log2_lor by lia.
    apply Z.max_lub_lt; [| cbn; lia].
    destruct (Z.eq_dec x 0) as [-> | Hx0]; [cbn; lia |].
    apply Z.log2_lt_pow2; lia.
Qed.

(** [a * 2^k | 2^k] sets the lowest bit of [a]. *)
Lemma lor_carry (a k : Z) :
  0 <= k -> Z.lor (a * 2 ^ k) (2 ^ k) = Z.lor a 1 * 2 ^ k.
Proof.
  intros Hk. rewrite <- !Z.shiftl_mul_pow2 by assumption.
  rewrite <- (Z.shiftl_1_l k), <- Z.shiftl_lor. reflexivity.
Qed.

Lemma bitor_nonneg_small (x y : Z) :
  0 <= x < 2 ^ 31 -> 0 <= y < 2 ^ 31 -> bitor x y = Z.lor x y.
Proof.
  intros Hx Hy. unfold bitor. now rewrite !JSFacts.wrap32_small by lia.
Qed.

(** The integer [rgbToHex] converts when one channel is in 256..511. *)
Lemma packed_red_overflow (R G B : Z) :
  256 <= R <= 511 -> 0 <= G <= 255 -> 0 <= B <= 255 ->
  bitor (bitor (bitor (shl 1 24) (shl R 16)) (shl G 8)) B
  = 16777216 + (R - 256) * 65536 + G * 256 + B.
Proof.
  intros HR HG HB.
  rewrite (JSFacts.shl_small 1 24), (JSFacts.shl_small R 16),
    (JSFacts.shl_small G 8) by lia.
  rewrite (bitor_nonneg_small (1 * 2 ^ 24)) by lia.
  replace (R * 2 ^ 16) with (1 * 2 ^ 24 + (R - 256) * 2 ^ 16) by lia.
  rewrite <- (JSFacts.lor_disjoint 1 ((R - 256) * 2 ^ 16) 24) by lia.
  rewrite Z.lor_assoc, Z.lor_diag.
  rewrite (JSFacts.lor_disjoint 1 ((R - 256) * 2 ^ 16) 24) by lia.
  replace (1 * 2 ^ 24 + (R - 256) * 2 ^ 16)
    with ((256 + (R - 256)) * 2 ^ 16) by lia.
  rewrite (JSFacts.bitor_small (256 + (R - 256)) (G * 2 ^ 8) 16) by lia.
  replace ((256 + (R - 256)) * 2 ^ 16 + G * 2 ^ 8)
    with ((65536 + (R - 256) * 256 + G) * 2 ^ 8) by lia.
  rewrite (JSFacts.bitor_small (65536 + (R - 256) * 256 + G) B 8) by lia.
  lia.
Qed.

Lemma packed_green_overflow (R G B : Z) :
  0 <= R <= 255 -> 256 <= G <= 511 -> 0 <= B <= 255 ->
  bitor (bitor (bitor (shl 1 24) (shl R 16)) (shl G 8)) B
  = 16777216 + Z.lor R 1 * 65536 + (G - 256) * 256 + B.
Proof.
  intros HR HG HB. pose proof (lor_1_byte R HR) as HR1.
  rewrite (JSFacts.shl_small 1 24), (JSFacts.shl_small R 16),
    (JSFacts.shl_small G 8) by lia.
  rewrite (JSFacts.bitor_small 1 (R * 2 ^ 16) 24) by lia.
  replace (1 * 2 ^ 24 + R * 2 ^ 16) with ((256 + R) * 2 ^ 16) by lia.
  rewrite (bitor_nonneg_small ((256 + R) * 2 ^ 16)) by lia.
  replace (G * 2 ^ 8) with (1 * 2 ^ 16 + (G - 256) * 2 ^ 8) by lia.
  rewrite <- (JSFacts.lor_disjoint 1 ((G - 256) * 2 ^ 8) 16) by lia.
  rewrite Z.lor_assoc, Z.mul_1_l, lor_carry by lia.
  assert (Hc : Z.lor (256 + R) 1 = 256 + Z.lor R 1).
  { replace (256 + R) with (1 * 2 ^ 8 + R) by lia.
    rewrite <- (JSFacts.lor_disjoint 1 R 8) by lia.
    rewrite <- Z.lor_assoc.
    rewrite (JSFacts.lor_disjoint 1 (Z.lor R 1) 8) by lia. lia. }
  rewrite Hc.
  rewrite (JSFacts.lor_disjoint (256 + Z.lor R 1) ((G - 256) * 2 ^ 8) 16)
    by lia.
  replace ((256 + Z.lor R 1) * 2 ^ 16 + (G - 256) * 2 ^ 8)
    with ((65536 + Z.lor R 1 * 256 + (G - 256)) * 2 ^ 8) by lia.
  rewrite (JSFacts.bitor_small (65536 + Z.lor R 1 * 256 + (G - 256)) B 8)
    by lia.
  lia.
Qed.

Lemma packed_blue_overflow (R G B : Z) :
  0 <= R <= 255 -> 0 <= G <= 255 -> 256 <= B <= 511 ->
  bitor (bitor (bitor (shl 1 24) (shl R 16)) (shl G 8)) B
  = 16777216 + R * 65536 + Z.lor G 1 * 256 + (B - 256).
Proof.
  intros HR HG HB. pose proof (lor_1_byte G HG) as HG1.
  rewrite (JSFacts.shl_small 1 24), (JSFacts.shl_small R 16),
    (JSFacts.shl_small G 8) by lia.
  rewrite (JSFacts.bitor_small 1 (R * 2 ^ 16) 24) by lia.
  replace (1 * 2 ^ 24 + R * 2 ^ 16) with ((256 + R) * 2 ^ 16) by lia.
  rewrite (JSFacts.bitor_small (256 + R) (G * 2 ^ 8) 16) by lia.
  replace ((256 + R) * 2 ^ 16 + G * 2 ^ 8)
    with ((65536 + R * 256 + G) * 2 ^ 8) by lia.
  rewrite (bitor_nonneg_small ((65536 + R * 256 + G) * 2 ^ 8)) by lia.
  replace B with (1 * 2 ^ 8 + (B - 256)) at 1 by lia.
  rewrite <- (JSFacts.lor_disjoint 1 (B - 256) 8) by lia.
  rewrite Z.lor_assoc, Z.mul_1_l, lor_carry by lia.
  assert (Hc : Z.lor (65536 + R * 256 + G) 1 = 65536 + R * 256 + Z.lor G 1).
  { replace (65536 + R * 256 + G) with ((256 + R) * 2 ^ 8 + G) by lia.
    rewrite <- (JSFacts.lor_disjoint (256 + R) G 8) by lia.
    rewrite <- Z.lor_assoc.
    rewrite (JSFacts.lor_disjoint (256 + R) (Z.lor G 1) 8) by lia. lia. }
  rewrite Hc.
  rewrite (JSFacts.lor_disjoint (65536 + R * 256 + Z.lor G 1) (B - 256) 8)
    by lia.
  lia.
Qed.

(** A negative red channel makes the whole packed integer negative. *)
Lemma shl_negative (x n : Z) :
  0 <= n < 32 -> x < 0 -> - 2 ^ 31 <= x * 2 ^ n -> shl x n = x * 2 ^ n.
Proof.
  intros Hn Hx Hlo. unfold shl.
  assert (- 2 ^ 31 <= x) by (pose proof (Z.pow_pos_nonneg 2 n); nia).
  rewrite (JSFacts.wrap32_small x) by lia.
  rewrite Z.mod_small by lia. rewrite Z.shiftl_mul_pow2 by lia.
  apply JSFacts.wrap32_small. pose proof (Z.pow_pos_nonneg 2 n). nia.
Qed.

Lemma packed_red_negative (R G B : Z) :
  - 255 <= R <= - 1 -> 0 <= G <= 255 -> 0 <= B <= 255 ->
  bitor (bitor (bitor (shl 1 24) (shl R 16)) (shl G 8)) B
  = R * 65536 + G * 256 + B.
Proof.
  intros HR HG HB.
  rewrite (JSFacts.shl_small 1 24), (shl_negative R 16),
    (JSFacts.shl_small G 8) by lia.
  assert (E1 : bitor (1 * 2 ^ 24) (R * 2 ^ 16) = R * 2 ^ 16).
  { unfold bitor. rewrite !JSFacts.wrap32_small by lia.
    replace (R * 2 ^ 16) with ((- 1) * 2 ^ 24 + (R + 256) * 2 ^ 16) at 1
      by lia.
    rewrite <- (JSFacts.lor_disjoint (- 1) ((R + 256) * 2 ^ 16) 24) by lia.
    rewrite Z.lor_assoc.
    change (Z.lor (1 * 2 ^ 24) (- 1 * 2 ^ 24)) with (- 1 * 2 ^ 24).
    rewrite (JSFacts.lor_disjoint (- 1) ((R + 256) * 2 ^ 16) 24) by lia.
    lia. }
  assert (E2 : bitor (R * 2 ^ 16) (G * 2 ^ 8) = (R * 256 + G) * 2 ^ 8).
  { unfold bitor. rewrite !JSFacts.wrap32_small by lia.
    rewrite (JSFacts.lor_disjoint R (G * 2 ^ 8) 16) by lia. lia. }
  assert (E3 : bitor ((R * 256 + G) * 2 ^ 8) B = (R * 256 + G) * 2 ^ 8 + B).
  { unfold bitor. rewrite !JSFacts.wrap32_small by lia.
    apply JSFacts.lor_disjoint; lia. }
  rewrite E1, E2, E3. lia.
Qed.

(** [slice(1)] drops the minus sign that [toString] writes. *)
Lemma toString_negative (n : Z) :
  n < 0 -> slice (toString n 16) 1 = toString (- n) 16.
Proof.
  intros Hn. unfold toString at 1.
  destruct (Z.ltb_spec n 0); [| lia]. cbn [slice].
  unfold toString. destruct (Z.ltb_spec (- n) 0); [lia | reflexivity].
Qed.

End PackFacts.

(* ================================================================= *)
(** * Further facts: the loop does not depend on handle values *)
(* ================================================================= *)

Module HandleFacts.
Section HandleFacts.

Import Loop.

Context {num : Type} {NUM : Number num}.
Variable Config : Type.
Variable CONFIGS : list Config.
Variable initialProps : Config.
Variable TRANSITION_DURATION : num.
Variable easeOutCubic : num -> num.
Variable newProps : Config -> Config -> num -> Config.

Abbreviation State := (Loop.State num Config).
Abbreviation step :=
  (Loop.step Config TRANSITION_DURATION easeOutCubic newProps).
Abbreviation dispatch :=
  (Loop.dispatch Config CONFIGS TRANSITION_DURATION easeOutCubic newProps).
Abbreviation run :=
  (Loop.run Config CONFIGS TRANSITION_DURATION easeOutCubic newProps).
Abbreviation mount := (@Loop.mount num Config initialProps).
Abbreviation inv := (@Loop.inv num Config CONFIGS).
Abbreviation rawT_of := (Loop.rawT_of Config TRANSITION_DURATION).

(** Two states that agree on everything but handles. *)
Abbreviation alike s1 s2 :=
  (gradientProps _ s1 = gradientProps _ s2 /\
   currentRef _ s1 = currentRef _ s2 /\
   listening _ s1 = listening _ s2 /\
   map snd (callbacks _ s1) = map snd (callbacks _ s2)).

Lemma alike_step (cl : Closure num Config) (now : num) (s1 s2 : State) :
  callbacks _ s1 = [] -> callbacks _ s2 = [] ->
  listening _ s1 = listening _ s2 ->
  alike (step cl now s1) (step cl now s2).
Proof.
  intros Hc1 Hc2 Hlis.
  destruct (LoopFacts.step_props _ TRANSITION_DURATION easeOutCubic newProps
              cl now s1) as (Hgp1 & Hcur1).
  destruct (LoopFacts.step_props _ TRANSITION_DURATION easeOutCubic newProps
              cl now s2) as (Hgp2 & Hcur2).
  rewrite Hgp1, Hgp2, Hcur1, Hcur2, !LoopFacts.step_listening.
  repeat split; try assumption.
  destruct (rawT_of cl now <? lit 1)%js eqn:Hlt.
  - destruct (LoopFacts.step_running _ _ easeOutCubic newProps cl now s1 Hlt)
      as (-> & _).
    destruct (LoopFacts.step_running _ _ easeOutCubic newProps cl now s2 Hlt)
      as (-> & _).
    rewrite Hc1, Hc2. reflexivity.
  - destruct (LoopFacts.step_finished _ _ easeOutCubic newProps cl now s1 Hlt)
      as (-> & _).
    destruct (LoopFacts.step_finished _ _ easeOutCubic newProps cl now s2 Hlt)
      as (-> & _).
    rewrite Hc1, Hc2. reflexivity.
Qed.

Lemma alike_dispatch (ev : Event num) (s1 s2 : State) :
  inv s1 -> inv s2 -> alike s1 s2 ->
  alike (dispatch ev s1) (if isForeign ev then s2 else dispatch ev s2).
Proof.
  intros Hinv1 Hinv2 (Hgp & Hcur & Hlis & Hcb).
  destruct ev as [zoneIndex perfNow | now | | ];
    cbn [isForeign Loop.dispatch].
  - rewrite <- Hlis.
    destruct (listening _ s1) eqn:Hl1;
      [| cbv beta iota; repeat split; congruence].
    unfold handleTransition.
    destruct (config_at _ _ zoneIndex) as [config |];
      [| cbv beta iota; repeat split; congruence].
    destruct (LoopFacts.animateTo_spec Config CONFIGS config perfNow s1 Hinv1)
      as (Hcb1 & _ & Hcur1 & Hgp1 & Hlis1).
    destruct (LoopFacts.animateTo_spec Config CONFIGS config perfNow s2 Hinv2)
      as (Hcb2 & _ & Hcur2 & Hgp2 & Hlis2).
    rewrite Hcb1, Hcb2, Hcur1, Hcur2, Hgp1, Hgp2, Hlis1, Hlis2, Hcur.
    repeat split; try assumption. congruence.
  - destruct (inv_pending _ _ s1 Hinv1) as [Hn1 | (cl1 & Hc1 & _)];
      destruct (inv_pending _ _ s2 Hinv2) as [Hn2 | (cl2 & Hc2 & _)].
    + rewrite !LoopFacts.frame_idle by assumption.
      repeat split; assumption.
    + rewrite Hn1, Hc2 in Hcb. discriminate.
    + rewrite Hc1, Hn2 in Hcb. discriminate.
    + rewrite Hc1, Hc2 in Hcb. injection Hcb as <-.
      rewrite (LoopFacts.frame_runs_step _ _ _ _ s1 cl1 now Hc1).
      rewrite (LoopFacts.frame_runs_step _ _ _ _ s2 cl1 now Hc2).
      apply alike_step; [reflexivity | reflexivity | exact Hlis].
  - cbn. repeat split; assumption.
  - rewrite <- Hlis.
    destruct (listening _ s1) eqn:Hl1;
      [| cbv beta iota; repeat split; congruence].
    destruct (LoopFacts.cleanup_spec Config CONFIGS s1 Hinv1)
      as (Hcb1 & Hlis1 & Hcur1 & Hgp1).
    destruct (LoopFacts.cleanup_spec Config CONFIGS s2 Hinv2)
      as (Hcb2 & Hlis2 & Hcur2 & Hgp2).
    rewrite Hcb1, Hcb2, Hcur1, Hcur2, Hgp1, Hgp2, Hlis1, Hlis2.
    repeat split; assumption.
Qed.

Lemma alike_run (evs : list (Event num)) (s1 s2 : State) :
  inv s1 -> inv s2 -> alike s1 s2 ->
  alike (run evs s1) (run (withoutForeign evs) s2).
Proof.
  revert s1 s2.
  induction evs as [| ev evs IH]; intros s1 s2 Hinv1 Hinv2 Halike.
  - exact Halike.
  - pose proof (alike_dispatch ev s1 s2 Hinv1 Hinv2 Halike) as Hstep.
    change (run (ev :: evs) s1) with (run evs (dispatch ev s1)).
    unfold withoutForeign. cbn [filter]. fold (withoutForeign evs).
    destruct (isForeign ev); cbn [negb].
    + apply IH; [now apply LoopFacts.inv_dispatch | assumption | exact Hstep].
    + change (run (ev :: withoutForeign evs) s2)
        with (run (withoutForeign evs) (dispatch ev s2)).
      apply IH; [now apply LoopFacts.inv_dispatch
                | now apply LoopFacts.inv_dispatch | exact Hstep].
Qed.

Lemma alike_mounts (h0 h0' : N) (evs : list (Event num)) :
  alike (run evs (mount h0)) (run (withoutForeign evs) (mount h0')).
Proof.
  apply alike_run; try apply LoopFacts.inv_mount.
  repeat split.
Qed.

End HandleFacts.
End HandleFacts.

(* ================================================================= *)
(** * Further properties of the code, X1 to X17 *)
(* ================================================================= *)

(** X1. [hexToRgb] returns three integers between 0 and 255 for every
    string whatsoever: it never throws and never yields [NaN], a fraction
    or a negative channel, because each channel is masked with [& 255]. *)
Theorem X1_hexToRgb_channels_are_bytes :
  forall (num : Type) (NUM : Number num) (hex : string),
    exists R G B : Z,
      (0 <= R <= 255)%Z /\ (0 <= G <= 255)%Z /\ (0 <= B <= 255)%Z /\
      Part000.hexToRgb_int hex = (R, G, B) /\
      Part000.hexToRgb (num := num) hex
      = (lit (inject_Z R), lit (inject_Z G), lit (inject_Z B)).
Proof.
  intros num NUM hex.
  pose proof (JSFacts.hexToRgb_int_range hex) as Hr.
  unfold Part000.hexToRgb.
  destruct (Part000.hexToRgb_int hex) as [[R G] B].
  exists R, G, B. tauto.
Qed.

(** X2. A string with nothing to parse decodes to black: the empty
    string, a string of one character, and every string whose second
    character is neither white space, a sign nor a hexadecimal digit give
    the channels (0, 0, 0), since [parseInt] returns [NaN] and the bit
    operators read [NaN] as 0.  [lerpColor] therefore treats such a string
    as it treats "#000000". *)
Theorem X2_hexToRgb_unparseable_is_black :
  Part000.hexToRgb_int "" = (0, 0, 0)%Z /\
  (forall c0 : ascii, Part000.hexToRgb_int (String c0 "") = (0, 0, 0)%Z) /\
  (forall (c0 c : ascii) (rest : string),
      isWhiteSpace c = false -> c <> "+"%char -> c <> "-"%char ->
      (forall d, digitValue c = Some d -> (16 <= d)%Z) ->
      Part000.hexToRgb_int (String c0 (String c rest)) = (0, 0, 0)%Z) /\
  (forall (num : Type) (NUM : Number num) (junk other : string) (t : num),
      Part000.hexToRgb_int junk = (0, 0, 0)%Z ->
      Part000.lerpColor junk other t = Part000.lerpColor "#000000" other t /\
      Part000.lerpColor other junk t = Part000.lerpColor other "#000000" t).
Proof.
  split; [reflexivity |]. split; [reflexivity |]. split.
  - intros c0 c rest Hws Hplus Hminus Hdig.
    unfold Part000.hexToRgb_int. cbn [slice].
    assert (Hnan : parseInt (String c rest) 16 = None).
    { destruct c as [[] [] [] [] [] [] [] []];
        try discriminate Hws; try congruence;
        try solve [exfalso;
                   match type of Hdig with
                   | forall d, digitValue ?c = _ -> _ =>
                       generalize (Hdig (match digitValue c with
                                         | Some d => d
                                         | None => 0%Z
                                         end) eq_refl)
                   end;
                   cbv; intuition congruence];
        reflexivity. }
    rewrite Hnan. reflexivity.
  - intros num NUM junk other t Hjunk.
    unfold Part000.lerpColor, Part000.hexToRgb. rewrite Hjunk.
    change (Part000.hexToRgb_int "#000000") with (0, 0, 0)%Z.
    split; reflexivity.
Qed.

(** "#ggg" and "#rgb(1,2,3)" decode to black. *)
Lemma X2_hexToRgb_unparseable_is_black_witness :
  Part000.hexToRgb_int "#ggg" = (0, 0, 0)%Z /\
  Part000.hexToRgb_int "#rgb(1,2,3)" = (0, 0, 0)%Z.
Proof.
  split.
  - refine (proj1 (proj2 (proj2 X2_hexToRgb_unparseable_is_black))
              "#"%char "g"%char "gg"%string _ _ _ _);
      [reflexivity | discriminate | discriminate |].
    intros d H. cbv in H. injection H as <-. lia.
  - refine (proj1 (proj2 (proj2 X2_hexToRgb_unparseable_is_black))
              "#"%char "r"%char "gb(1,2,3)"%string _ _ _ _);
      [reflexivity | discriminate | discriminate |].
    intros d H. cbv in H. injection H as <-. lia.
Defined.

(** X3. When the text after the first character is 1 to 13 hexadecimal
    digits of either case, with value [n], the channels are the bytes
    [(n / 65536) mod 256], [(n / 256) mod 256] and [n mod 256].  The first
    character is not looked at; fewer than six digits are read as a small
    number (no CSS shorthand expansion), and of more than six digits only
    the last six count. *)
Theorem X3_hexToRgb_reads_low_bytes :
  forall (c0 : ascii) (cs : list ascii) (ds : list Z),
    hexDigits cs ds -> (1 <= length cs <= 13)%nat ->
    Part000.hexToRgb_int (String c0 (string_of_list_ascii cs))
    = channelsOf (digitsValue 16 ds).
Proof. exact HexFacts.hexToRgb_int_hexchars. Qed.

(** "#fff" is read as 0x000fff, "#FF5005" as "#ff5005", and of
    "#80ff5005" the leading byte is dropped. *)
Lemma X3_hexToRgb_reads_low_bytes_witness :
  Part000.hexToRgb_int "#fff" = (0, 15, 255)%Z /\
  Part000.hexToRgb_int "#FF5005" = (255, 80, 5)%Z /\
  Part000.hexToRgb_int "#80ff5005" = (255, 80, 5)%Z.
Proof.
  split; [| split].
  - refine (X3_hexToRgb_reads_low_bytes "#"%char
              ["f"; "f"; "f"]%char [15; 15; 15]%Z _ _);
      [hex_digits | cbn; lia].
  - refine (X3_hexToRgb_reads_low_bytes "#"%char
              ["F"; "F"; "5"; "0"; "0"; "5"]%char [15; 15; 5; 0; 0; 5]%Z _ _);
      [hex_digits | cbn; lia].
  - refine (X3_hexToRgb_reads_low_bytes "#"%char
              ["8"; "0"; "f"; "f"; "5"; "0"; "0"; "5"]%char
              [8; 0; 15; 15; 5; 0; 0; 5]%Z _ _);
      [hex_digits | cbn; lia].
Defined.

(** X4. Decoding and encoding again puts a colour in canonical form: for
    six hexadecimal digits of either case behind any first character,
    [rgbToHex(...hexToRgb(h))] is '#' followed by the same digits in
    lowercase.  In exact arithmetic and in doubles. *)
Theorem X4_round_trip_is_canonical :
  forall (c0 : ascii) (cs : list ascii) (ds : list Z),
    hexDigits cs ds -> length cs = 6%nat ->
    let h := String c0 (string_of_list_ascii cs) in
    let canonical := String "#" (digitsString ds) in
    Part000.wellFormedHex canonical = true /\
    (let '(r, g, b) := Part000.hexToRgb (num := Q) h in
     Part000.rgbToHex r g b = canonical) /\
    (let '(r, g, b) := Part000.hexToRgb (num := PrimFloat.float) h in
     Part000.rgbToHex r g b = canonical).
Proof.
  intros c0 cs ds H Hlen h canonical.
  pose proof (HexFacts.hexDigits_valid cs ds H) as Hv.
  pose proof (HexFacts.hexDigits_length cs ds H) as Hl.
  rewrite Hlen in Hl.
  destruct ds as [| d1 [| d2 [| d3 [| d4 [| d5 [| d6 [| d7 ds]]]]]]];
    try discriminate Hl.
  assert (Hwf : Part000.wellFormedHex canonical = true)
    by (apply HexFacts.wellFormedHex_digits; exact Hv).
  assert (Hsame : Part000.hexToRgb_int h = Part000.hexToRgb_int canonical).
  { subst h canonical.
    rewrite (HexFacts.hexToRgb_int_hexchars c0 cs _ H) by lia.
    rewrite HexFacts.digitsString_chars.
    rewrite (HexFacts.hexToRgb_int_hexchars "#"%char _ _
               (HexFacts.hexDigits_digitChar _ Hv)) by (cbn; lia).
    reflexivity. }
  split; [exact Hwf |]. unfold Part000.hexToRgb. rewrite Hsame. split.
  - apply (JSFacts.hexToRgb_roundtrip JSFacts.byte_exact_Q canonical Hwf).
  - apply (JSFacts.hexToRgb_roundtrip JSFacts.byte_exact_F64 canonical Hwf).
Qed.

(** "#FF5005" and "xFf5005" come back as "#ff5005". *)
Lemma X4_round_trip_is_canonical_witness :
  (let '(r, g, b) := Part000.hexToRgb (num := Q) "#FF5005" in
   Part000.rgbToHex r g b = "#ff5005"%string) /\
  (let '(r, g, b) := Part000.hexToRgb (num := PrimFloat.float) "xFf5005" in
   Part000.rgbToHex r g b = "#ff5005"%string).
Proof.
  split.
  - refine (proj1 (proj2 (X4_round_trip_is_canonical "#"%char
              ["F"; "F"; "5"; "0"; "0"; "5"]%char [15; 15; 5; 0; 0; 5]%Z
              _ _)));
      [hex_digits | reflexivity].
  - refine (proj2 (proj2 (X4_round_trip_is_canonical "x"%char
              ["F"; "f"; "5"; "0"; "0"; "5"]%char [15; 15; 5; 0; 0; 5]%Z
              _ _)));
      [hex_digits | reflexivity].
Defined.

(** X5. [hexToRgb] undoes [rgbToHex]: when the three channel values round
    to integers between 0 and 255, decoding the string [rgbToHex] returns
    gives exactly those rounded integers.  For any number type. *)
Theorem X5_hexToRgb_undoes_rgbToHex :
  forall (num : Type) (NUM : Number num) (r g b : num),
    let R := ToInt32 (Math_round r) in
    let G := ToInt32 (Math_round g) in
    let B := ToInt32 (Math_round b) in
    (0 <= R <= 255)%Z -> (0 <= G <= 255)%Z -> (0 <= B <= 255)%Z ->
    Part000.hexToRgb_int (Part000.rgbToHex r g b) = (R, G, B) /\
    Part000.hexToRgb (num := num) (Part000.rgbToHex r g b)
    = (lit (inject_Z R), lit (inject_Z G), lit (inject_Z B)).
Proof.
  intros num NUM r g b R G B HR HG HB.
  assert (H : Part000.hexToRgb_int (Part000.rgbToHex r g b) = (R, G, B)).
  { rewrite JSFacts.rgbToHex_channels by assumption.
    now apply HexFacts.hexToRgb_int_channels. }
  split; [exact H |]. unfold Part000.hexToRgb. rewrite H. reflexivity.
Qed.

(** Channels 4.6, 0 and 255.4 are written as "#0500ff" and read back as
    5, 0 and 255. *)
Lemma X5_hexToRgb_undoes_rgbToHex_witness :
  Part000.hexToRgb_int (Part000.rgbToHex (4.6 : Q) 0 255.4) = (5, 0, 255)%Z.
Proof.
  refine (proj1 (X5_hexToRgb_undoes_rgbToHex Q _ 4.6 0 255.4 _ _ _));
    vm_compute; split; discriminate.
Defined.

(** X6. In exact arithmetic and for a progress [t] between 0 and 1,
    [lerpColor] returns a well-formed "#rrggbb" colour for any two
    strings; each of its channels is [Math.round(a + (b - a) * t)] for the
    channels [a] and [b] that [hexToRgb] reads from the two strings, and
    lies between [a] and [b]. *)
Theorem X6_lerpColor_stays_in_gamut :
  forall (from to : string) (t : Q) (R1 G1 B1 R2 G2 B2 : Z),
    (0 <= t <= 1)%Q ->
    Part000.hexToRgb_int from = (R1, G1, B1) ->
    Part000.hexToRgb_int to = (R2, G2, B2) ->
    let c := Part000.lerpColor from to t in
    Part000.wellFormedHex c = true /\
    Part000.hexToRgb_int c
    = (mixChannel R1 R2 t, mixChannel G1 G2 t, mixChannel B1 B2 t) /\
    betweenRgb (R1, G1, B1) (R2, G2, B2) (Part000.hexToRgb_int c).
Proof.
  intros from to t R1 G1 B1 R2 G2 B2 Ht Hf Hto c. subst c.
  split; [now apply TweenFacts.lerpColor_wellFormed |].
  rewrite (TweenFacts.lerpColor_decoded from to t _ _ _ _ _ _ Ht Hf Hto).
  split; [reflexivity |].
  repeat split; now apply TweenFacts.mixChannel_between.
Qed.

(** Half way from "#ff5005" to "#0466c8" is "#825b67". *)
Lemma X6_lerpColor_stays_in_gamut_witness :
  Part000.wellFormedHex (Part000.lerpColor "#ff5005" "#0466c8" (1 # 2)%Q)
  = true /\
  Part000.hexToRgb_int (Part000.lerpColor "#ff5005" "#0466c8" (1 # 2)%Q)
  = (130, 91, 103)%Z.
Proof.
  pose proof (X6_lerpColor_stays_in_gamut "#ff5005" "#0466c8" (1 # 2)%Q
                255 80 5 4 102 200 ltac:(split; discriminate)
                eq_refl eq_refl) as (Hwf & Hch & _).
  split; [exact Hwf | exact Hch].
Defined.

(** X7. The colours [part_000] passes to the renderer are always
    well-formed "#rrggbb" strings.  In exact arithmetic, after any
    sequence of zone changes, frames, foreign frame requests and unmount
    in which no frame callback runs with a timestamp earlier than its
    [startTime], [color1], [color2] and [color3] of the rendered element
    are '#' followed by six lowercase hexadecimal digits. *)
Theorem X7_colours_stay_well_formed :
  forall (h0 : N) (evs : list (Loop.Event Q)),
    timely evs (Part000.mount h0) ->
    let shown := Part000.render (Part000.run evs (Part000.mount h0)) in
    Part000.wellFormedHex (ShaderGradient.color1 shown) = true /\
    Part000.wellFormedHex (ShaderGradient.color2 shown) = true /\
    Part000.wellFormedHex (ShaderGradient.color3 shown) = true.
Proof.
  intros h0 evs Ht shown. subst shown.
  apply (SectionFacts.colours_run evs (Part000.mount h0)).
  - apply LoopFacts.inv_mount.
  - repeat split; reflexivity.
  - exact Ht.
Qed.

(** Zone 2 is selected at 0 ms, frames follow at 16 and 350 ms, zone 4 is
    selected at 350 ms and a frame follows at 400 ms. *)
Lemma X7_colours_stay_well_formed_witness :
  let evs := [Loop.GradientTransition 2 0; Loop.AnimationFrame 16;
              Loop.AnimationFrame 350; Loop.GradientTransition 4 350;
              Loop.AnimationFrame 400]%Q in
  let shown := Part000.render (Part000.run evs (Part000.mount 0)) in
  Part000.wellFormedHex (ShaderGradient.color1 shown) = true /\
  Part000.wellFormedHex (ShaderGradient.color2 shown) = true /\
  Part000.wellFormedHex (ShaderGradient.color3 shown) = true.
Proof.
  refine (X7_colours_stay_well_formed 0
            [Loop.GradientTransition 2 0; Loop.AnimationFrame 16;
             Loop.AnimationFrame 350; Loop.GradientTransition 4 350;
             Loop.AnimationFrame 400]%Q _).
  vm_compute. repeat split; repeat constructor; discriminate.
Defined.

(** X8. [Math.min] clamps the progress only from above.  In exact
    arithmetic, a frame whose timestamp is earlier than the closure's
    [startTime] has a negative [rawT] and a negative eased progress, so
    [step] renders every numeric parameter on the far side of its starting
    value: below [from] when the target is above it, above [from] when the
    target is below. *)
Theorem X8_frame_before_start_extrapolates :
  (forall (cl : GradientBackground.Closure Q) (now : Q)
          (st : GradientBackground.State Q)
          (key : GradientBackground.NumericKey),
      now < Loop.startTime _ cl ->
      let rawT := Loop.rawT_of _ GradientBackground.TRANSITION_DURATION
                    cl now in
      let a := GradientBackground.get key (Loop.from _ cl) in
      let b := GradientBackground.get key (Loop.target _ cl) in
      let v := GradientBackground.get key
                 (Loop.currentRef _ (GradientBackground.step cl now st)) in
      rawT < 0 /\ GradientBackground.easeOutCubic rawT < 0 /\
      (a < b -> v < a) /\ (b < a -> a < v))
  /\
  (forall (cl : Part000.Closure Q) (now : Q) (st : Part000.State Q),
      now < Loop.startTime _ cl ->
      let rawT := Loop.rawT_of _ Part000.TRANSITION_DURATION cl now in
      let a := Part000.positionY (Loop.from _ cl) in
      let b := Part000.positionY (Loop.target _ cl) in
      let v := Part000.positionY
                 (Loop.currentRef _ (Part000.step cl now st)) in
      rawT < 0 /\ Part000.easeOutCubic rawT < 0 /\
      (a < b -> v < a) /\ (b < a -> a < v)).
Proof.
  split.
  - intros cl now st key Hnow rawT a b v.
    assert (HrawT : rawT < 0)
      by (apply (TweenFacts.rawT_early (now - Loop.startTime _ cl)); lra).
    pose proof (TweenFacts.easeOutCubic_early rawT HrawT) as Ht.
    split; [exact HrawT |]. split; [exact Ht |].
    unfold v. rewrite StepFacts.zone_step_value. fold a b.
    destruct (TweenFacts.lerp_early a b _ Ht) as (Hup & Hdown & _).
    split; assumption.
  - intros cl now st Hnow rawT a b v.
    assert (HrawT : rawT < 0)
      by (apply (TweenFacts.rawT_early (now - Loop.startTime _ cl)); lra).
    pose proof (TweenFacts.easeOutCubic_early rawT HrawT) as Ht.
    split; [exact HrawT |]. split; [exact Ht |].
    unfold v. rewrite (proj1 (StepFacts.section_step_props cl now st)).
    destruct (TweenFacts.lerp_early a b _ Ht) as (Hup & Hdown & _).
    split; assumption.
Qed.

(** Going from zone 0 to zone 4, a frame stamped 70 ms before the start
    renders a [cameraZoom] above 5 (the target is 1) and a [positionY]
    below -1.8 (the target is 1.8). *)
Lemma X8_frame_before_start_extrapolates_witness :
  (let zone n := nth n (GradientBackground.ZONE_CONFIGS (num := Q))
                       GradientBackground.initialProps in
   5.0 < GradientBackground.cameraZoom
           (Loop.currentRef _
              (GradientBackground.step
                 (Loop.mkClosure (zone 0%nat) (zone 4%nat) 1000) 930
                 (GradientBackground.mount 0))))
  /\
  (let zone n := nth n (Part000.SECTION_CONFIGS (num := Q))
                       Part000.initialProps in
   Part000.positionY
     (Loop.currentRef _
        (Part000.step (Loop.mkClosure (zone 0%nat) (zone 4%nat) 1000) 930
           (Part000.mount 0)))
   < -1.8).
Proof.
  split.
  - refine (proj2 (proj2 (proj2
              (proj1 X8_frame_before_start_extrapolates
                 (Loop.mkClosure
                    (nth 0 GradientBackground.ZONE_CONFIGS
                         GradientBackground.initialProps)
                    (nth 4 GradientBackground.ZONE_CONFIGS
                         GradientBackground.initialProps) 1000)
                 930 (GradientBackground.mount 0)
                 GradientBackground.k_cameraZoom _))) _);
      reflexivity.
  - refine (proj1 (proj2 (proj2
              (proj2 X8_frame_before_start_extrapolates
                 (Loop.mkClosure
                    (nth 0 Part000.SECTION_CONFIGS Part000.initialProps)
                    (nth 4 Part000.SECTION_CONFIGS Part000.initialProps) 1000)
                 930 (Part000.mount 0) _))) _);
      reflexivity.
Defined.

(** X9. Within one transition the animation only moves toward its
    target.  In exact arithmetic, for two frames of the same closure with
    [startTime <= now1 <= now2], every numeric parameter rendered at
    [now2] lies between the value rendered at [now1] and the target value;
    in [part_000] the same holds for [positionY] and, channel by channel,
    for the three colours. *)
Theorem X9_frames_approach_target :
  (forall (cl : GradientBackground.Closure Q) (now1 now2 : Q)
          (st1 st2 : GradientBackground.State Q)
          (key : GradientBackground.NumericKey),
      Loop.startTime _ cl <= now1 -> now1 <= now2 ->
      let b := GradientBackground.get key (Loop.target _ cl) in
      let v1 := GradientBackground.get key
                  (Loop.currentRef _ (GradientBackground.step cl now1 st1)) in
      let v2 := GradientBackground.get key
                  (Loop.currentRef _ (GradientBackground.step cl now2 st2)) in
      Qmin v1 b <= v2 <= Qmax v1 b)
  /\
  (forall (cl : Part000.Closure Q) (now1 now2 : Q)
          (st1 st2 : Part000.State Q),
      Loop.startTime _ cl <= now1 -> now1 <= now2 ->
      let tgt := Loop.target _ cl in
      let p1 := Loop.currentRef _ (Part000.step cl now1 st1) in
      let p2 := Loop.currentRef _ (Part000.step cl now2 st2) in
      Qmin (Part000.positionY p1) (Part000.positionY tgt)
        <= Part000.positionY p2
        <= Qmax (Part000.positionY p1) (Part000.positionY tgt) /\
      betweenRgb (Part000.hexToRgb_int (Part000.color1 p1))
                 (Part000.hexToRgb_int (Part000.color1 tgt))
                 (Part000.hexToRgb_int (Part000.color1 p2)) /\
      betweenRgb (Part000.hexToRgb_int (Part000.color2 p1))
                 (Part000.hexToRgb_int (Part000.color2 tgt))
                 (Part000.hexToRgb_int (Part000.color2 p2)) /\
      betweenRgb (Part000.hexToRgb_int (Part000.color3 p1))
                 (Part000.hexToRgb_int (Part000.color3 tgt))
                 (Part000.hexToRgb_int (Part000.color3 p2))).
Proof.
  assert (Hprog : forall s now1 now2 : Q,
             s <= now1 -> now1 <= now2 ->
             let t1 := GradientBackground.easeOutCubic
                         (Qmin ((now1 - s) / 700) 1) in
             let t2 := GradientBackground.easeOutCubic
                         (Qmin ((now2 - s) / 700) 1) in
             0 <= t1 /\ t1 <= t2 /\ t2 <= 1).
  { intros s now1 now2 H1 H2 t1 t2.
    pose proof (TweenFacts.eased_range (now1 - s) ltac:(lra)).
    pose proof (TweenFacts.eased_range (now2 - s) ltac:(lra)).
    pose proof (TweenFacts.eased_mono (now1 - s) (now2 - s) ltac:(lra)).
    subst t1 t2. tauto. }
  assert (Hcol : forall (f g : string) (t1 t2 : Q),
             0 <= t1 -> t1 <= t2 -> t2 <= 1 ->
             betweenRgb (Part000.hexToRgb_int (Part000.lerpColor f g t1))
                        (Part000.hexToRgb_int g)
                        (Part000.hexToRgb_int (Part000.lerpColor f g t2))).
  { intros f g t1 t2 H0 H12 H1.
    destruct (Part000.hexToRgb_int f) as [[R1 G1] B1] eqn:Hf.
    destruct (Part000.hexToRgb_int g) as [[R2 G2] B2] eqn:Hg.
    rewrite (TweenFacts.lerpColor_decoded f g t1 _ _ _ _ _ _
               ltac:(split; lra) Hf Hg).
    rewrite (TweenFacts.lerpColor_decoded f g t2 _ _ _ _ _ _
               ltac:(split; lra) Hf Hg).
    repeat split; now apply TweenFacts.mixChannel_approaches. }
  split.
  - intros cl now1 now2 st1 st2 key H1 H2 b v1 v2. subst v1 v2.
    rewrite !StepFacts.zone_step_value. fold b.
    destruct (Hprog _ _ _ H1 H2) as (H0 & H12 & Hle).
    now apply TweenFacts.lerp_approaches.
  - intros cl now1 now2 st1 st2 H1 H2 tgt p1 p2. subst p1 p2.
    rewrite (proj1 (StepFacts.section_step_props cl now1 st1)).
    rewrite (proj1 (StepFacts.section_step_props cl now2 st2)).
    destruct (Hprog _ _ _ H1 H2) as (H0 & H12 & Hle).
    cbn [Part000.newProps Part000.positionY Part000.color1 Part000.color2
         Part000.color3].
    split; [now apply TweenFacts.lerp_approaches |].
    split; [| split]; now apply Hcol.
Qed.

(** From zone 0 to zone 4: the [cameraZoom] rendered 400 ms after the
    start lies between the one rendered after 100 ms and the target. *)
Lemma X9_frames_approach_target_witness :
  let zone n := nth n (GradientBackground.ZONE_CONFIGS (num := Q))
                      GradientBackground.initialProps in
  let cl := Loop.mkClosure (zone 0%nat) (zone 4%nat) 0 in
  let shown now :=
    GradientBackground.cameraZoom
      (Loop.currentRef _
         (GradientBackground.step cl now (GradientBackground.mount 0))) in
  Qmin (shown 100) 1 <= shown 400 <= Qmax (shown 100) 1.
Proof.
  refine (proj1 X9_frames_approach_target
            (Loop.mkClosure
               (nth 0 GradientBackground.ZONE_CONFIGS
                    GradientBackground.initialProps)
               (nth 4 GradientBackground.ZONE_CONFIGS
                    GradientBackground.initialProps) 0)
            100 400 (GradientBackground.mount 0) (GradientBackground.mount 0)
            GradientBackground.k_cameraZoom _ _);
    unfold Qle; cbn; lia.
Defined.

(** X10. After the effect's cleanup has run, nothing is rendered any
    more: whatever events follow an unmount (zone changes, frames, foreign
    requests, a second unmount), no frame callback is pending, the
    listener stays removed, and [gradientProps], [currentRef] and the
    rendered element stay what they were at the unmount.  For any number
    type, in both files. *)
Theorem X10_nothing_changes_after_unmount :
  forall (num : Type) (NUM : Number num)
         (h0 : N) (evs evs' : list (Loop.Event num)),
    (let st := GradientBackground.run evs (GradientBackground.mount h0) in
     let st' := GradientBackground.run (Loop.Unmount :: evs') st in
     Loop.listening _ st' = false /\
     Loop.callbacks _ st' = [] /\
     Loop.gradientProps _ st' = Loop.gradientProps _ st /\
     Loop.currentRef _ st' = Loop.currentRef _ st /\
     GradientBackground.render st' = GradientBackground.render st)
    /\
    (let st := Part000.run evs (Part000.mount h0) in
     let st' := Part000.run (Loop.Unmount :: evs') st in
     Loop.listening _ st' = false /\
     Loop.callbacks _ st' = [] /\
     Loop.gradientProps _ st' = Loop.gradientProps _ st /\
     Loop.currentRef _ st' = Loop.currentRef _ st /\
     Part000.render st' = Part000.render st).
Proof.
  intros num NUM h0 evs evs'. split.
  - intros st st'.
    assert (H : Loop.listening _ st' = false /\
                Loop.callbacks _ st' = [] /\
                Loop.gradientProps _ st' = Loop.gradientProps _ st /\
                Loop.currentRef _ st' = Loop.currentRef _ st)
      by exact (LoopMore.unmount_run _ GradientBackground.ZONE_CONFIGS
                  GradientBackground.initialProps
                  GradientBackground.TRANSITION_DURATION
                  GradientBackground.easeOutCubic GradientBackground.newProps
                  h0 evs evs').
    destruct H as (Hl & Hc & Hgp & Hcur).
    repeat split; try assumption.
    unfold GradientBackground.render. now rewrite Hgp.
  - intros st st'.
    assert (H : Loop.listening _ st' = false /\
                Loop.callbacks _ st' = [] /\
                Loop.gradientProps _ st' = Loop.gradientProps _ st /\
                Loop.currentRef _ st' = Loop.currentRef _ st)
      by exact (LoopMore.unmount_run _ Part000.SECTION_CONFIGS
                  Part000.initialProps Part000.TRANSITION_DURATION
                  Part000.easeOutCubic Part000.newProps h0 evs evs').
    destruct H as (Hl & Hc & Hgp & Hcur).
    repeat split; try assumption.
    unfold Part000.render. now rewrite Hgp.
Qed.

(** X11. While the listener is registered, [animFrameRef.current] is 0
    exactly when no frame callback of the component is pending, so the
    test [if (animFrameRef.current)] in [animateTo] is an exact test for an
    animation in flight; the ref never holds a handle the window has not
    issued.  The cleanup cancels the pending frame but leaves the ref as it
    is.  For any number type, in both files. *)
Theorem X11_animFrameRef_tracks_pending :
  forall (num : Type) (NUM : Number num)
         (h0 : N) (evs : list (Loop.Event num)),
    (let st := GradientBackground.run evs (GradientBackground.mount h0) in
     (Loop.listening _ st = true ->
      (Loop.animFrameRef _ st = 0%N <-> Loop.callbacks _ st = [])) /\
     (Loop.animFrameRef _ st <= Loop.lastHandle _ st)%N /\
     Loop.animFrameRef _ (GradientBackground.dispatch Loop.Unmount st)
     = Loop.animFrameRef _ st)
    /\
    (let st := Part000.run evs (Part000.mount h0) in
     (Loop.listening _ st = true ->
      (Loop.animFrameRef _ st = 0%N <-> Loop.callbacks _ st = [])) /\
     (Loop.animFrameRef _ st <= Loop.lastHandle _ st)%N /\
     Loop.animFrameRef _ (Part000.dispatch Loop.Unmount st)
     = Loop.animFrameRef _ st).
Proof.
  intros num NUM h0 evs. split.
  - intros st.
    destruct (LoopMore.ref_tracks_pending _ GradientBackground.ZONE_CONFIGS
                GradientBackground.initialProps
                GradientBackground.TRANSITION_DURATION
                GradientBackground.easeOutCubic GradientBackground.newProps
                h0 evs) as (Hiff & Hle).
    split; [exact Hiff |]. split; [exact Hle |].
    unfold GradientBackground.dispatch. cbn [Loop.dispatch].
    destruct (Loop.listening _ st); [| reflexivity].
    apply LoopMore.cleanup_handles.
  - intros st.
    destruct (LoopMore.ref_tracks_pending _ Part000.SECTION_CONFIGS
                Part000.initialProps Part000.TRANSITION_DURATION
                Part000.easeOutCubic Part000.newProps
                h0 evs) as (Hiff & Hle).
    split; [exact Hiff |]. split; [exact Hle |].
    unfold Part000.dispatch. cbn [Loop.dispatch].
    destruct (Loop.listening _ st); [| reflexivity].
    apply LoopMore.cleanup_handles.
Qed.

(** After zone 1 has been selected and its animation has finished, the
    ref is back at 0 and nothing is pending. *)
Lemma X11_animFrameRef_tracks_pending_witness :
  let st := GradientBackground.run (num := Q)
              (Loop.transition 1 0 [16] 700)%Q (GradientBackground.mount 0) in
  Loop.animFrameRef _ st = 0%N <-> Loop.callbacks _ st = [].
Proof.
  exact (proj1 (proj1 (X11_animFrameRef_tracks_pending Q _ 0
                         (Loop.transition 1 0 [16] 700)%Q)) eq_refl).
Defined.

(** X12. Selecting the zone that is already shown is invisible.  In exact
    arithmetic, when the current values equal the selected row, every
    frame of the transition renders that row again: the thirteen numeric
    parameters and [type] in [GradientBackground.tsx], the three colours
    and [positionY] in [part_000].  The loop is not short-circuited: it
    still reschedules itself until 700 ms have passed. *)
Theorem X12_reselecting_the_shown_zone :
  forall (h0 : N) (evs : list (Loop.Event Q))
         (zoneIndex perfNow : Q) (frames : list Q) (now : Q),
    (forall config : GradientBackground.ZoneConfig Q,
        let st := GradientBackground.run evs (GradientBackground.mount h0) in
        Loop.listening _ st = true ->
        Loop.config_at _ GradientBackground.ZONE_CONFIGS zoneIndex
          = Some config ->
        Forall (fun f => Loop.running GradientBackground.TRANSITION_DURATION
                           perfNow f = true) frames ->
        (forall key,
            GradientBackground.get key (Loop.currentRef _ st)
            == GradientBackground.get key config) ->
        let st' := GradientBackground.run
                     (Loop.transition zoneIndex perfNow frames now) st in
        (forall key,
            GradientBackground.rendered key (GradientBackground.render st')
            == GradientBackground.get key config) /\
        ShaderGradient.type (GradientBackground.render st')
        = GradientBackground.type config /\
        (Loop.running GradientBackground.TRANSITION_DURATION perfNow now
         = true -> Loop.callbacks _ st' <> []))
    /\
    (forall config : Part000.SectionConfig Q,
        let st := Part000.run evs (Part000.mount h0) in
        Loop.listening _ st = true ->
        Loop.config_at _ Part000.SECTION_CONFIGS zoneIndex = Some config ->
        Forall (fun f => Loop.running Part000.TRANSITION_DURATION
                           perfNow f = true) frames ->
        Part000.color1 (Loop.currentRef _ st) = Part000.color1 config ->
        Part000.color2 (Loop.currentRef _ st) = Part000.color2 config ->
        Part000.color3 (Loop.currentRef _ st) = Part000.color3 config ->
        Part000.positionY (Loop.currentRef _ st)
        == Part000.positionY config ->
        let st' := Part000.run
                     (Loop.transition zoneIndex perfNow frames now) st in
        ShaderGradient.color1 (Part000.render st') = Part000.color1 config /\
        ShaderGradient.color2 (Part000.render st') = Part000.color2 config /\
        ShaderGradient.color3 (Part000.render st') = Part000.color3 config /\
        ShaderGradient.positionY (Part000.render st')
        == Part000.positionY config /\
        (Loop.running Part000.TRANSITION_DURATION perfNow now = true ->
         Loop.callbacks _ st' <> [])).
Proof.
  intros h0 evs zoneIndex perfNow frames now. split.
  - intros config st Hlis Hcfg Hrun Hsame st'.
    pose proof (VariantFacts.zone_transition st zoneIndex perfNow config
                  frames now (VariantFacts.zone_inv h0 evs) Hlis Hcfg Hrun)
      as H.
    set (cl := Loop.mkClosure (Loop.currentRef _ st) config perfNow) in H.
    set (t := GradientBackground.easeOutCubic
                (Loop.rawT_of _ GradientBackground.TRANSITION_DURATION
                   cl now)).
    assert (Hgp : Loop.gradientProps _ st'
                  = GradientBackground.newProps (Loop.currentRef _ st)
                      config t) by exact (proj1 H).
    assert (Hpending :
              Loop.running GradientBackground.TRANSITION_DURATION perfNow now
              = true ->
              Loop.callbacks _ st' = [(Loop.animFrameRef _ st', cl)])
      by exact (proj1 (proj2 (proj2 H))).
    clear H.
    split; [| split].
    + intros key. rewrite VariantFacts.rendered_get, Hgp.
      rewrite VariantFacts.get_newProps.
      unfold GradientBackground.lerp. cbn [add sub mul ExactNumber].
      rewrite (Hsame key). ring.
    + unfold GradientBackground.render. cbn [ShaderGradient.type].
      rewrite Hgp. reflexivity.
    + intros Hr. rewrite (Hpending Hr). discriminate.
  - intros config st Hlis Hcfg Hrun H1 H2 H3 Hy st'.
    pose proof (VariantFacts.section_transition st zoneIndex perfNow config
                  frames now (VariantFacts.section_inv h0 evs) Hlis Hcfg
                  Hrun) as H.
    set (cl := Loop.mkClosure (Loop.currentRef _ st) config perfNow) in H.
    set (t := Part000.easeOutCubic
                (Loop.rawT_of _ Part000.TRANSITION_DURATION cl now)).
    assert (Hgp : Loop.gradientProps _ st'
                  = Part000.newProps (Loop.currentRef _ st) config t)
      by exact (proj1 H).
    assert (Hpending :
              Loop.running Part000.TRANSITION_DURATION perfNow now = true ->
              Loop.callbacks _ st' = [(Loop.animFrameRef _ st', cl)])
      by exact (proj1 (proj2 (proj2 H))).
    clear H.
    destruct (VariantFacts.SECTION_CONFIGS_wellFormed config
                (LoopFacts.config_at_In _ _ zoneIndex config Hcfg))
      as (Hw1 & Hw2 & Hw3).
    unfold Part000.render.
    cbn [ShaderGradient.color1 ShaderGradient.color2 ShaderGradient.color3
         ShaderGradient.positionY].
    rewrite Hgp.
    cbn [Part000.newProps Part000.color1 Part000.color2 Part000.color3
         Part000.positionY].
    rewrite H1, H2, H3.
    rewrite !TweenFacts.lerpColor_same by assumption.
    repeat split.
    + unfold Part000.lerp. cbn [add sub mul ExactNumber].
      rewrite Hy. ring.
    + intros Hr. rewrite (Hpending Hr). discriminate.
Qed.

(** The page shows zone 0 from the start.  Zone 0 is selected at 0 ms and
    frames arrive at 16 and 350 ms: the camera zoom is still that of zone
    0 and a further frame is scheduled.  In [part_000] zone 1, whose row
    equals that of zone 0, is selected: the first colour stays. *)
Lemma X12_reselecting_the_shown_zone_witness :
  (let st' := GradientBackground.run (num := Q)
                (Loop.transition 0 0 [16] 350)%Q
                (GradientBackground.mount 0) in
   GradientBackground.rendered GradientBackground.k_cameraZoom
     (GradientBackground.render st') == 5.0 /\
   Loop.callbacks _ st' <> [])
  /\
  (let st' := Part000.run (num := Q) (Loop.transition 1 0 [16] 350)%Q
                (Part000.mount 0) in
   ShaderGradient.color1 (Part000.render st') = "#ff5005"%string).
Proof.
  split.
  - pose proof (proj1 (X12_reselecting_the_shown_zone 0 [] 0 0 [16] 350)
                  (nth 0 GradientBackground.ZONE_CONFIGS
                       GradientBackground.initialProps)
                  eq_refl eq_refl
                  ltac:(repeat constructor)
                  ltac:(intros key; reflexivity))
      as (Hkeys & _ & Hpending).
    split; [exact (Hkeys GradientBackground.k_cameraZoom) |].
    exact (Hpending eq_refl).
  - exact (proj1 (proj2 (X12_reselecting_the_shown_zone 0 [] 1 0 [16] 350)
                    (nth 1 Part000.SECTION_CONFIGS Part000.initialProps)
                    eq_refl eq_refl
                    ltac:(repeat constructor)
                    eq_refl eq_refl eq_refl
                    ltac:(reflexivity))).
Defined.

(** X13. A transition starts without a jump.  In exact arithmetic, a frame
    stamped with the very time at which the zone change was handled
    renders the values that were shown before the change, also when the
    change interrupts a running transition: the thirteen numeric parameters
    in [GradientBackground.tsx] (while [type] is already the new zone's),
    the three colours and [positionY] in [part_000] (for event sequences
    in which no callback ran with a timestamp before its [startTime]). *)
Theorem X13_transition_starts_without_jump :
  forall (h0 : N) (evs : list (Loop.Event Q)) (zoneIndex perfNow : Q),
    (forall config : GradientBackground.ZoneConfig Q,
        let st := GradientBackground.run evs (GradientBackground.mount h0) in
        Loop.listening _ st = true ->
        Loop.config_at _ GradientBackground.ZONE_CONFIGS zoneIndex
          = Some config ->
        let st' := GradientBackground.run
                     (Loop.transition zoneIndex perfNow [] perfNow) st in
        (forall key,
            GradientBackground.rendered key (GradientBackground.render st')
            == GradientBackground.rendered key
                 (GradientBackground.render st)) /\
        ShaderGradient.type (GradientBackground.render st')
        = GradientBackground.type config)
    /\
    (forall config : Part000.SectionConfig Q,
        let st := Part000.run evs (Part000.mount h0) in
        timely evs (Part000.mount h0) ->
        Loop.listening _ st = true ->
        Loop.config_at _ Part000.SECTION_CONFIGS zoneIndex = Some config ->
        let st' := Part000.run
                     (Loop.transition zoneIndex perfNow [] perfNow) st in
        ShaderGradient.color1 (Part000.render st')
        = ShaderGradient.color1 (Part000.render st) /\
        ShaderGradient.color2 (Part000.render st')
        = ShaderGradient.color2 (Part000.render st) /\
        ShaderGradient.color3 (Part000.render st')
        = ShaderGradient.color3 (Part000.render st) /\
        ShaderGradient.positionY (Part000.render st')
        == ShaderGradient.positionY (Part000.render st)).
Proof.
  intros h0 evs zoneIndex perfNow. split.
  - intros config st Hlis Hcfg st'.
    pose proof (VariantFacts.zone_inv h0 evs) as Hinv. fold st in Hinv.
    pose proof (VariantFacts.zone_transition st zoneIndex perfNow config
                  [] perfNow Hinv Hlis Hcfg (Forall_nil _)) as H.
    set (t := GradientBackground.easeOutCubic
                (Qmin ((perfNow - perfNow) / 700) 1)).
    assert (Hgp : Loop.gradientProps _ st'
                  = GradientBackground.newProps (Loop.currentRef _ st)
                      config t) by exact (proj1 H).
    clear H.
    assert (Ht : t == 0) by apply TweenFacts.eased_at_start.
    split.
    + intros key. rewrite !VariantFacts.rendered_get, Hgp.
      rewrite VariantFacts.get_newProps.
      rewrite <- (Loop.inv_mirror _ _ st Hinv).
      unfold GradientBackground.lerp. cbn [add sub mul ExactNumber].
      rewrite Ht. ring.
    + unfold GradientBackground.render. cbn [ShaderGradient.type].
      rewrite Hgp. reflexivity.
  - intros config st Htimely Hlis Hcfg st'.
    pose proof (VariantFacts.section_inv h0 evs) as Hinv. fold st in Hinv.
    pose proof (VariantFacts.section_transition st zoneIndex perfNow config
                  [] perfNow Hinv Hlis Hcfg (Forall_nil _)) as H.
    set (t := Part000.easeOutCubic (Qmin ((perfNow - perfNow) / 700) 1)).
    assert (Hgp : Loop.gradientProps _ st'
                  = Part000.newProps (Loop.currentRef _ st) config t)
      by exact (proj1 H).
    clear H.
    assert (Ht : t == 0) by apply TweenFacts.eased_at_start.
    destruct (SectionFacts.colours_run evs (Part000.mount h0)
                (LoopFacts.inv_mount _ _ _ h0)
                ltac:(repeat split; reflexivity) Htimely)
      as (Hw1 & Hw2 & Hw3).
    fold st in Hw1, Hw2, Hw3.
    unfold Part000.render.
    cbn [ShaderGradient.color1 ShaderGradient.color2 ShaderGradient.color3
         ShaderGradient.positionY].
    rewrite Hgp, (Loop.inv_mirror _ _ st Hinv).
    cbn [Part000.newProps Part000.color1 Part000.color2 Part000.color3
         Part000.positionY].
    rewrite !TweenFacts.lerpColor_begin by assumption.
    repeat split.
    unfold Part000.lerp. cbn [add sub mul ExactNumber].
    rewrite Ht. ring.
Qed.

(** Zone 2 is selected at 0 ms and a frame arrives at 300 ms; zone 4 is
    then selected at 300 ms and the frame stamped 300 ms renders the
    colour and position that were on screen. *)
Lemma X13_transition_starts_without_jump_witness :
  let evs := Loop.transition 2 0 [] 300 in
  (let st := GradientBackground.run (num := Q) evs
               (GradientBackground.mount 0) in
   let st' := GradientBackground.run (Loop.transition 4 300 [] 300) st in
   GradientBackground.rendered GradientBackground.k_cameraZoom
     (GradientBackground.render st')
   == GradientBackground.rendered GradientBackground.k_cameraZoom
        (GradientBackground.render st))
  /\
  (let st := Part000.run (num := Q) evs (Part000.mount 0) in
   let st' := Part000.run (Loop.transition 4 300 [] 300) st in
   ShaderGradient.color1 (Part000.render st')
   = ShaderGradient.color1 (Part000.render st)).
Proof.
  split.
  - exact (proj1 (proj1 (X13_transition_starts_without_jump 0
                           (Loop.transition 2 0 [] 300) 4 300)
                    (nth 4 GradientBackground.ZONE_CONFIGS
                         GradientBackground.initialProps)
                    eq_refl eq_refl)
             GradientBackground.k_cameraZoom).
  - refine (proj1 (proj2 (X13_transition_starts_without_jump 0
                            (Loop.transition 2 0 [] 300) 4 300)
                     (nth 4 Part000.SECTION_CONFIGS Part000.initialProps)
                     _ eq_refl eq_refl)).
    vm_compute. repeat split; repeat constructor; discriminate.
Defined.

(** X14. A transition lasts until 700 ms have elapsed and no longer.  In
    exact arithmetic, after the frame stamped [now] of a transition
    started at [perfNow] (the earlier frames having come before the end),
    a further frame callback is pending, and [animFrameRef] is non-zero,
    exactly when [now - perfNow < 700]; this includes frames stamped
    before the start.  In both files. *)
Theorem X14_reschedules_until_700ms :
  forall (h0 : N) (evs : list (Loop.Event Q))
         (zoneIndex perfNow : Q) (frames : list Q) (now : Q),
    (forall config : GradientBackground.ZoneConfig Q,
        let st := GradientBackground.run evs (GradientBackground.mount h0) in
        Loop.listening _ st = true ->
        Loop.config_at _ GradientBackground.ZONE_CONFIGS zoneIndex
          = Some config ->
        Forall (fun f => f - perfNow < 700) frames ->
        let st' := GradientBackground.run
                     (Loop.transition zoneIndex perfNow frames now) st in
        (Loop.callbacks _ st' <> [] <-> now - perfNow < 700) /\
        (Loop.animFrameRef _ st' <> 0%N <-> now - perfNow < 700))
    /\
    (forall config : Part000.SectionConfig Q,
        let st := Part000.run evs (Part000.mount h0) in
        Loop.listening _ st = true ->
        Loop.config_at _ Part000.SECTION_CONFIGS zoneIndex = Some config ->
        Forall (fun f => f - perfNow < 700) frames ->
        let st' := Part000.run
                     (Loop.transition zoneIndex perfNow frames now) st in
        (Loop.callbacks _ st' <> [] <-> now - perfNow < 700) /\
        (Loop.animFrameRef _ st' <> 0%N <-> now - perfNow < 700)).
Proof.
  intros h0 evs zoneIndex perfNow frames now.
  assert (Hframes : Forall (fun f => f - perfNow < 700) frames ->
                    Forall (fun f => Loop.running (lit 700) perfNow f = true)
                           frames).
  { apply Forall_impl. intros f. apply ExactFacts.running_iff. }
  assert (Hiff : forall (Config : Type) (cbs : list (N * Loop.Closure Q Config))
                        (ref : N),
             (cbs = [] \/ exists cl, cbs = [(ref, cl)] /\ ref <> 0%N) ->
             (Loop.running (lit 700) perfNow now = true ->
              exists cl, cbs = [(ref, cl)]) ->
             (Loop.running (lit 700) perfNow now = false ->
              cbs = [] /\ ref = 0%N) ->
             (cbs <> [] <-> now - perfNow < 700) /\
             (ref <> 0%N <-> now - perfNow < 700)).
  { intros Config cbs ref Hinv Hrun Hdone.
    rewrite <- ExactFacts.running_iff.
    destruct (Loop.running (lit 700) perfNow now).
    - destruct (Hrun eq_refl) as (cl & Hcb).
      destruct Hinv as [Hnil | (cl' & _ & Hnz)]; [congruence |].
      rewrite Hcb. split; split; auto; discriminate.
    - destruct (Hdone eq_refl) as (-> & ->).
      split; split; intros H; congruence. }
  split.
  - intros config st Hlis Hcfg Hfr st'.
    pose proof (VariantFacts.zone_transition st zoneIndex perfNow config
                  frames now (VariantFacts.zone_inv h0 evs) Hlis Hcfg
                  (Hframes Hfr)) as (_ & _ & Hrun & Hdone).
    pose proof (VariantFacts.zone_inv h0
                  (evs ++ Loop.transition zoneIndex perfNow frames now))
      as Hinv.
    unfold GradientBackground.run in Hinv.
    rewrite LoopFacts.run_app in Hinv.
    apply (Hiff _ (Loop.callbacks _ st') (Loop.animFrameRef _ st')).
    + destruct (Loop.inv_pending _ _ _ Hinv) as [Hnil | (cl & Hcb & Hnz & _)];
        [left; exact Hnil | right; exists cl; split; assumption].
    + intros Hr. eexists. exact (Hrun Hr).
    + intros Hr. destruct (Hdone Hr) as (Hcb & Href & _). split; assumption.
  - intros config st Hlis Hcfg Hfr st'.
    pose proof (VariantFacts.section_transition st zoneIndex perfNow config
                  frames now (VariantFacts.section_inv h0 evs) Hlis Hcfg
                  (Hframes Hfr)) as (_ & _ & Hrun & Hdone).
    pose proof (VariantFacts.section_inv h0
                  (evs ++ Loop.transition zoneIndex perfNow frames now))
      as Hinv.
    unfold Part000.run in Hinv.
    rewrite LoopFacts.run_app in Hinv.
    apply (Hiff _ (Loop.callbacks _ st') (Loop.animFrameRef _ st')).
    + destruct (Loop.inv_pending _ _ _ Hinv) as [Hnil | (cl & Hcb & Hnz & _)];
        [left; exact Hnil | right; exists cl; split; assumption].
    + intros Hr. eexists. exact (Hrun Hr).
    + intros Hr. destruct (Hdone Hr) as (Hcb & Href & _). split; assumption.
Qed.

(** Zone 3 selected at 1000 ms: after the frame at 1699 ms a callback is
    still pending. *)
Lemma X14_reschedules_until_700ms_witness :
  let st' := GradientBackground.run (num := Q)
               (Loop.transition 3 1000 [1016] 1699)%Q
               (GradientBackground.mount 0) in
  Loop.callbacks _ st' <> [] <-> 1699 - 1000 < 700.
Proof.
  exact (proj1 (proj1 (X14_reschedules_until_700ms 0 [] 3 1000 [1016] 1699)
                  (nth 3 GradientBackground.ZONE_CONFIGS
                       GradientBackground.initialProps)
                  eq_refl eq_refl
                  ltac:(repeat constructor))).
Defined.

(** X15. [rgbToHex] does not clamp its channels.  A channel that rounds
    to a value from 256 to 511 (the others being bytes) is written modulo
    256, and its ninth bit is or-ed into the neighbour on its left: a red
    overflow disappears in the marker bit [1 << 24], a green overflow sets
    the lowest bit of red, a blue overflow the lowest bit of green.  A red
    channel from -255 to -1 makes the packed integer negative, and what
    [slice(1)] then removes is the minus sign: the result is '#' followed
    by the digits of the magnitude, without padding.  For any number
    type. *)
Theorem X15_rgbToHex_does_not_clamp :
  forall (num : Type) (NUM : Number num) (r g b : num),
    let R := ToInt32 (Math_round r) in
    let G := ToInt32 (Math_round g) in
    let B := ToInt32 (Math_round b) in
    let byte x := (0 <= x <= 255)%Z in
    let over x := (256 <= x <= 511)%Z in
    (over R -> byte G -> byte B ->
     Part000.rgbToHex r g b
     = String "#" (digitsString (hex2 (R - 256) ++ hex2 G ++ hex2 B))) /\
    (byte R -> over G -> byte B ->
     Part000.rgbToHex r g b
     = String "#"
         (digitsString (hex2 (Z.lor R 1) ++ hex2 (G - 256) ++ hex2 B))) /\
    (byte R -> byte G -> over B ->
     Part000.rgbToHex r g b
     = String "#"
         (digitsString (hex2 R ++ hex2 (Z.lor G 1) ++ hex2 (B - 256)))) /\
    ((- 255 <= R <= - 1)%Z -> byte G -> byte B ->
     Part000.rgbToHex r g b
     = String "#" (toString (- (R * 65536 + G * 256 + B)) 16)).
Proof.
  intros num NUM r g b R G B byte over. subst byte over. cbn beta.
  split; [| split; [| split]]; intros H1 H2 H3;
    unfold Part000.rgbToHex; fold R G B.
  - rewrite PackFacts.packed_red_overflow by assumption.
    rewrite PackFacts.toString_packed by lia. reflexivity.
  - rewrite PackFacts.packed_green_overflow by assumption.
    rewrite PackFacts.toString_packed
      by (try apply PackFacts.lor_1_byte; lia).
    reflexivity.
  - rewrite PackFacts.packed_blue_overflow by assumption.
    rewrite PackFacts.toString_packed
      by (try apply PackFacts.lor_1_byte; lia).
    reflexivity.
  - rewrite PackFacts.packed_red_negative by assumption.
    rewrite PackFacts.toString_negative by lia. reflexivity.
Qed.

(** A red channel of 273 is written as 0x11, a green channel of 256
    turns a red of 0 into 1, and a red channel of -1 gives five digits. *)
Lemma X15_rgbToHex_does_not_clamp_witness :
  Part000.rgbToHex (273 : Q) 0 0 = "#110000"%string /\
  Part000.rgbToHex (0 : Q) 256 0 = "#010000"%string /\
  Part000.rgbToHex (-1 : Q) 0 0 = "#10000"%string.
Proof.
  split; [| split].
  - refine (proj1 (X15_rgbToHex_does_not_clamp Q _ 273 0 0) _ _ _);
      vm_compute; split; discriminate.
  - refine (proj1 (proj2 (X15_rgbToHex_does_not_clamp Q _ 0 256 0)) _ _ _);
      vm_compute; split; discriminate.
  - refine (proj2 (proj2 (proj2 (X15_rgbToHex_does_not_clamp Q _ (-1) 0 0)))
              _ _ _);
      vm_compute; split; discriminate.
Defined.

(** X16. Rounding errors do not accumulate from frame to frame.  Every
    frame interpolates from the values captured when the transition
    started, not from the previous frame's output, so what the frame at
    [now] renders does not depend on how many frames came before it (all
    of them before the end) nor on their timestamps.  For any number type,
    doubles included, in both files. *)
Theorem X16_frames_do_not_accumulate :
  forall (num : Type) (NUM : Number num)
         (h0 : N) (evs : list (Loop.Event num))
         (zoneIndex perfNow : num) (frames : list num) (now : num),
    (forall config : GradientBackground.ZoneConfig num,
        let st := GradientBackground.run evs (GradientBackground.mount h0) in
        Loop.listening _ st = true ->
        Loop.config_at _ GradientBackground.ZONE_CONFIGS zoneIndex
          = Some config ->
        Forall (fun f => Loop.running GradientBackground.TRANSITION_DURATION
                           perfNow f = true) frames ->
        let st1 := GradientBackground.run
                     (Loop.transition zoneIndex perfNow frames now) st in
        let st2 := GradientBackground.run
                     (Loop.transition zoneIndex perfNow [] now) st in
        Loop.gradientProps _ st1 = Loop.gradientProps _ st2 /\
        Loop.currentRef _ st1 = Loop.currentRef _ st2 /\
        GradientBackground.render st1 = GradientBackground.render st2)
    /\
    (forall config : Part000.SectionConfig num,
        let st := Part000.run evs (Part000.mount h0) in
        Loop.listening _ st = true ->
        Loop.config_at _ Part000.SECTION_CONFIGS zoneIndex = Some config ->
        Forall (fun f => Loop.running Part000.TRANSITION_DURATION
                           perfNow f = true) frames ->
        let st1 := Part000.run
                     (Loop.transition zoneIndex perfNow frames now) st in
        let st2 := Part000.run (Loop.transition zoneIndex perfNow [] now) st in
        Loop.gradientProps _ st1 = Loop.gradientProps _ st2 /\
        Loop.currentRef _ st1 = Loop.currentRef _ st2 /\
        Part000.render st1 = Part000.render st2).
Proof.
  intros num NUM h0 evs zoneIndex perfNow frames now. split.
  - intros config st Hlis Hcfg Hrun st1 st2.
    pose proof (VariantFacts.zone_inv h0 evs) as Hinv. fold st in Hinv.
    destruct (VariantFacts.zone_transition st zoneIndex perfNow config
                frames now Hinv Hlis Hcfg Hrun) as (Hgp1 & Hcur1 & _).
    destruct (VariantFacts.zone_transition st zoneIndex perfNow config
                [] now Hinv Hlis Hcfg (Forall_nil _)) as (Hgp2 & Hcur2 & _).
    assert (Hgp : Loop.gradientProps _ st1 = Loop.gradientProps _ st2)
      by exact (eq_trans Hgp1 (eq_sym Hgp2)).
    assert (Hcur : Loop.currentRef _ st1 = Loop.currentRef _ st2)
      by exact (eq_trans Hcur1 (eq_sym Hcur2)).
    split; [exact Hgp |]. split; [exact Hcur |].
    unfold GradientBackground.render. now rewrite Hgp.
  - intros config st Hlis Hcfg Hrun st1 st2.
    pose proof (VariantFacts.section_inv h0 evs) as Hinv. fold st in Hinv.
    destruct (VariantFacts.section_transition st zoneIndex perfNow config
                frames now Hinv Hlis Hcfg Hrun) as (Hgp1 & Hcur1 & _).
    destruct (VariantFacts.section_transition st zoneIndex perfNow config
                [] now Hinv Hlis Hcfg (Forall_nil _)) as (Hgp2 & Hcur2 & _).
    assert (Hgp : Loop.gradientProps _ st1 = Loop.gradientProps _ st2)
      by exact (eq_trans Hgp1 (eq_sym Hgp2)).
    assert (Hcur : Loop.currentRef _ st1 = Loop.currentRef _ st2)
      by exact (eq_trans Hcur1 (eq_sym Hcur2)).
    split; [exact Hgp |]. split; [exact Hcur |].
    unfold Part000.render. now rewrite Hgp.
Qed.

(** In doubles: zone 4 selected at 0 ms; the frame at 500 ms renders the
    same element whether or not frames at 16, 33 and 250 ms came first. *)
Lemma X16_frames_do_not_accumulate_witness :
  let st := GradientBackground.mount (num := PrimFloat.float) 0 in
  GradientBackground.render
    (GradientBackground.run
       (Loop.transition (lit 4) (lit 0) [lit 16; lit 33; lit 250] (lit 500))
       st)
  = GradientBackground.render
      (GradientBackground.run
         (Loop.transition (lit 4) (lit 0) [] (lit 500)) st).
Proof.
  refine (proj2 (proj2
            (proj1 (X16_frames_do_not_accumulate PrimFloat.float _ 0 []
                      (lit 4) (lit 0) [lit 16; lit 33; lit 250] (lit 500))
               (nth 4 GradientBackground.ZONE_CONFIGS
                    GradientBackground.initialProps) _ _ _))).
  - reflexivity.
  - vm_compute. reflexivity.
  - repeat constructor; vm_compute; reflexivity.
Defined.

(** X17. The component does not depend on the values of its frame
    handles.  Other code of the page taking frame handles, and the value
    at which the window's handle counter stood at mount, change nothing
    of what is rendered, of [currentRef], of the listener or of the
    closure that is pending: a run with foreign requests interleaved is in
    these respects the run without them.  For any number type, in both
    files. *)
Theorem X17_independent_of_handle_values :
  forall (num : Type) (NUM : Number num)
         (h0 h0' : N) (evs : list (Loop.Event num)),
    (let st := GradientBackground.run evs (GradientBackground.mount h0) in
     let st' := GradientBackground.run (withoutForeign evs)
                  (GradientBackground.mount h0') in
     GradientBackground.render st = GradientBackground.render st' /\
     Loop.currentRef _ st = Loop.currentRef _ st' /\
     Loop.listening _ st = Loop.listening _ st' /\
     map snd (Loop.callbacks _ st) = map snd (Loop.callbacks _ st'))
    /\
    (let st := Part000.run evs (Part000.mount h0) in
     let st' := Part000.run (withoutForeign evs) (Part000.mount h0') in
     Part000.render st = Part000.render st' /\
     Loop.currentRef _ st = Loop.currentRef _ st' /\
     Loop.listening _ st = Loop.listening _ st' /\
     map snd (Loop.callbacks _ st) = map snd (Loop.callbacks _ st')).
Proof.
  intros num NUM h0 h0' evs. split.
  - intros st st'.
    assert (H : Loop.gradientProps _ st = Loop.gradientProps _ st' /\
                Loop.currentRef _ st = Loop.currentRef _ st' /\
                Loop.listening _ st = Loop.listening _ st' /\
                map snd (Loop.callbacks _ st)
                = map snd (Loop.callbacks _ st'))
      by exact (HandleFacts.alike_mounts _ GradientBackground.ZONE_CONFIGS
                  GradientBackground.initialProps
                  GradientBackground.TRANSITION_DURATION
                  GradientBackground.easeOutCubic GradientBackground.newProps
                  h0 h0' evs).
    destruct H as (Hgp & Hrest).
    split; [| exact Hrest].
    unfold GradientBackground.render. now rewrite Hgp.
  - intros st st'.
    assert (H : Loop.gradientProps _ st = Loop.gradientProps _ st' /\
                Loop.currentRef _ st = Loop.currentRef _ st' /\
                Loop.listening _ st = Loop.listening _ st' /\
                map snd (Loop.callbacks _ st)
                = map snd (Loop.callbacks _ st'))
      by exact (HandleFacts.alike_mounts _ Part000.SECTION_CONFIGS
                  Part000.initialProps Part000.TRANSITION_DURATION
                  Part000.easeOutCubic Part000.newProps h0 h0' evs).
    destruct H as (Hgp & Hrest).
    split; [| exact Hrest].
    unfold Part000.render. now rewrite Hgp.
Qed.
